(** * ValidationReportReader: a shallow embedding and its properties

    The development follows [rcsb/utils/validation/ValidationReportReader.py].
    Python objects that are shared and mutated in place (the attribute
    dictionaries of the parsed XML tree, which [__extract] hands on as rows
    and [__buildCif] then updates) live in an explicit store of dictionaries;
    everything else is passed by value.  Exceptions are values of an error
    monad. *)

From Stdlib Require Import ZArith NArith List String Ascii Lia Permutation.
From Stdlib Require Import DecimalString.
From stdpp Require Import base list strings sorting.

Local Open Scope string_scope.
Local Open Scope list_scope.
Local Open Scope Z_scope.

(** ** Python values, exceptions *)

(** Row values are the strings of the XML attributes and the integers that
    [__buildCif] injects as ordinals. *)
Inductive pyval :=
  | VStr (s : string)
  | VInt (n : Z).

#[global] Instance pyval_eq_dec : EqDecision pyval.
Proof. solve_decision. Defined.

Inductive pyerr :=
  | KeyError (k : string)
  | IndexError
  | ValueError
  | AttributeError.

Inductive result (A : Type) :=
  | Ok (a : A)
  | Raise (e : pyerr).
Arguments Ok {A} a.
Arguments Raise {A} e.

#[global] Instance result_ret : MRet result := @Ok.
#[global] Instance result_bind : MBind result := λ A B f m,
  match m with
  | Ok a => f a
  | Raise e => Raise e
  end.

(** A [for] loop whose body may raise. *)
Fixpoint foldM {A B : Type} (f : A → B → result A) (l : list B) (a : A) : result A :=
  match l with
  | [] => Ok a
  | x :: l' => a' ← f a x; foldM f l' a'
  end.

(** ** Python strings

    A Python 3 [str] is a sequence of Unicode characters; it is kept here as
    its UTF-8 encoding, a string of bytes.  Equality, concatenation and
    splitting at an ASCII character are the same on both; stripping is not,
    and decodes the characters at the two ends. *)

(** [c.isspace()] for the character [c] with code point [cp]: the characters
    that Python 3 counts as whitespace. *)
Definition isspace (cp : N) : bool :=
  ((9 <=? cp) && (cp <=? 13) || (28 <=? cp) && (cp <=? 31) || (cp =? 32)
   || (cp =? 0x85) || (cp =? 0xA0) || (cp =? 0x1680)
   || (0x2000 <=? cp) && (cp <=? 0x200A)
   || (cp =? 0x2028) || (cp =? 0x2029) || (cp =? 0x202F) || (cp =? 0x205F)
   || (cp =? 0x3000))%N.

(** The payload of a continuation byte [10xxxxxx]. *)
Definition continuation (a : ascii) : option N :=
  let b := N_of_ascii a in
  if ((0x80 <=? b) && (b <? 0xC0))%N then Some (b - 0x80)%N else None.

(** A decoded code point is accepted when it is a code point and is not
    below [lo], the least one that needs as many bytes as it was read
    from. *)
Definition shortest (lo cp : N) (more : nat) : option (N * nat) :=
  if ((lo <=? cp) && (cp <? 0x110000))%N then Some (cp, more) else None.

(** The character a string starts with: its code point and the number of
    bytes that follow its first byte. *)
Definition first_char (s : string) : option (N * nat) :=
  match s with
  | EmptyString => None
  | String a s1 =>
      let b := N_of_ascii a in
      if (b <? 0x80)%N then Some (b, 0%nat)
      else if (b <? 0xC0)%N then None
      else if (b <? 0xE0)%N then
        match s1 with
        | String a1 _ =>
            c1 ← continuation a1;
            shortest 0x80 ((b - 0xC0) * 64 + c1) 1
        | _ => None
        end
      else if (b <? 0xF0)%N then
        match s1 with
        | String a1 (String a2 _) =>
            c1 ← continuation a1; c2 ← continuation a2;
            shortest 0x800 (((b - 0xE0) * 64 + c1) * 64 + c2) 2
        | _ => None
        end
      else if (b <? 0xF8)%N then
        match s1 with
        | String a1 (String a2 (String a3 _)) =>
            c1 ← continuation a1; c2 ← continuation a2; c3 ← continuation a3;
            shortest 0x10000 ((((b - 0xF0) * 64 + c1) * 64 + c2) * 64 + c3) 3
        | _ => None
        end
      else None
  end.

(** Whether [s] starts with a whitespace character, and the number of bytes
    after the first byte of that character. *)
Definition leading_space (s : string) : option nat :=
  match first_char s with
  | Some (cp, more) => if isspace cp then Some more else None
  | None => None
  end.

(** [s] without its first [skip] bytes and the whitespace after them. *)
Fixpoint lstrip_from (skip : nat) (s : string) : string :=
  match s with
  | EmptyString => EmptyString
  | String a s' =>
      match skip with
      | S k => lstrip_from k s'
      | O =>
          match leading_space s with
          | Some more => lstrip_from more s'
          | None => s
          end
      end
  end.

(** [s.lstrip()] *)
Definition lstrip (s : string) : string := lstrip_from 0 s.

(** Whether [s], after its first [skip] bytes, is whitespace only. *)
Fixpoint blank_from (skip : nat) (s : string) : bool :=
  match s with
  | EmptyString => true
  | String a s' =>
      match skip with
      | S k => blank_from k s'
      | O =>
          match leading_space s with
          | Some more => blank_from more s'
          | None => false
          end
      end
  end.

(** [s.rstrip()]: the text up to the point from which only whitespace
    follows.  A suffix that starts inside a character starts with a
    continuation byte and is not blank. *)
Fixpoint rstrip (s : string) : string :=
  match s with
  | EmptyString => EmptyString
  | String a s' => if blank_from 0 s then EmptyString else String a (rstrip s')
  end.

(** [s.strip()] *)
Definition strip (s : string) : string := rstrip (lstrip s).

(** [chr(cp)], encoded. *)
Definition chr (cp : N) : string :=
  let byte n := String (ascii_of_N n) EmptyString in
  (if cp <? 0x80 then byte cp
   else if cp <? 0x800 then
     byte (0xC0 + cp / 64) +:+ byte (0x80 + cp mod 64)
   else if cp <? 0x10000 then
     byte (0xE0 + cp / 4096) +:+ byte (0x80 + (cp / 64) mod 64)
     +:+ byte (0x80 + cp mod 64)
   else
     byte (0xF0 + cp / 262144) +:+ byte (0x80 + (cp / 4096) mod 64)
     +:+ byte (0x80 + (cp / 64) mod 64) +:+ byte (0x80 + cp mod 64))%N.

(** The encoding of a text given by its characters. *)
Definition encode (cps : list N) : string :=
  fold_right (λ cp s, chr cp +:+ s) EmptyString cps.

(** [s.strip()] on the characters of [s]. *)
Fixpoint lstrip_chars (cps : list N) : list N :=
  match cps with
  | [] => []
  | cp :: cps' => if isspace cp then lstrip_chars cps' else cps
  end.

Definition strip_chars (cps : list N) : list N :=
  rev (lstrip_chars (rev (lstrip_chars cps))).

(** First field of [s] and the fields after it. *)
Fixpoint split_on (sep : ascii) (s : string) : string * list string :=
  match s with
  | EmptyString => (EmptyString, [])
  | String a s' =>
      let '(hd, tl) := split_on sep s' in
      if decide (a = sep) then (EmptyString, hd :: tl) else (String a hd, tl)
  end.

(** [s.split(sep)] for a one-character separator. *)
Definition py_split (sep : ascii) (s : string) : list string :=
  let '(hd, tl) := split_on sep s in hd :: tl.

(** [sep.join(l)] *)
Definition py_join (sep : string) (l : list string) : string := String.concat sep l.

(** [str(v)] *)
Definition py_str (v : pyval) : string :=
  match v with
  | VStr s => s
  | VInt n => NilZero.string_of_int (Z.to_int n)
  end.

(** ** Python dictionaries

    A dictionary is the list of its items in insertion order. *)
Section Dict.
Context {K V : Type} `{EqDecision K}.

(** [d.get(k)] *)
Fixpoint aget (d : list (K * V)) (k : K) : option V :=
  match d with
  | [] => None
  | (k', v) :: d' => if decide (k = k') then Some v else aget d' k
  end.

(** [d[k] = v] *)
Fixpoint aset (d : list (K * V)) (k : K) (v : V) : list (K * V) :=
  match d with
  | [] => [(k, v)]
  | (k', v') :: d' =>
      if decide (k = k') then (k, v) :: d' else (k', v') :: aset d' k v
  end.

(** [list(d)] *)
Definition akeys (d : list (K * V)) : list K := map fst d.

(** [d1.update(d2)] *)
Definition aupdate (d1 d2 : list (K * V)) : list (K * V) :=
  fold_left (λ acc kv, aset acc kv.1 kv.2) d2 d1.
End Dict.

(** [d[k]], raising [KeyError] *)
Definition getitem {V : Type} (d : list (string * V)) (k : string) : result V :=
  match aget d k with
  | Some v => Ok v
  | None => Raise (KeyError k)
  end.

(** [d.setdefault(k, []).append(x)] *)
Definition setdefault_append {V : Type} (d : list (string * list V)) (k : string) (x : V)
  : list (string * list V) :=
  match aget d k with
  | Some l => aset d k (l ++ [x])
  | None => aset d k [x]
  end.

Abbreviation dict := (list (string * pyval)).

(** ** The store of shared dictionaries *)

Abbreviation loc := nat (only parsing).
Abbreviation store := (list dict).

(** The dictionary a reference points to.  The references of a parsed tree
    and of the rows made from it are all in the store (see [wf_doc] below);
    for any other number [deref] gives the empty dictionary and an update
    does nothing. *)
Definition deref (st : store) (l : loc) : dict := default [] (st !! l).

(** ** The parsed document (ElementTree)

    An element has a tag, a reference to its attribute dictionary and its
    child elements in document order. *)
#[local] Set Warnings "-register-all".
Inductive element := Element {
  tag : string;
  attrib : loc;
  children : list element
}.

(** ** Schema tables, supplied by ValidationReportSchemaUtils *)

Record schemaMap := {
  attributes : list ((string * string) * list (string * string));
  categories : list (string * string)
}.

Record reader := {
  schemaMap_ : schemaMap;
  atOrdD : list (string * Z);
  atMap : list (string * string);
  attribD : list (string * list string)
}.

(** [__init__], given the tables the schema utilities return. *)
Definition init (sm : schemaMap) (ord : list (string * Z)) (am : list (string * string))
  : reader :=
  {| schemaMap_ := sm;
     atOrdD := ord;
     atMap := am;
     attribD :=
       fold_left (λ d key, setdefault_append d key.1 key.2) (akeys (attributes sm)) [] |}.

(** ** mmcif containers

    [DataCategory] and [DataContainer] belong to the mmcif library; they are
    modelled as far as the reader calls them. *)

(** A [DataCategory]: name, attribute names, rows of cells; [None] is the
    cell of a row that lacks the attribute. *)
Record category := {
  cname : string;
  attributeNameList : list string;
  data : list (list (option pyval))
}.

(** [DataCategory(name, attrs, rowList)] for a list of row dictionaries. *)
Definition DataCategory (name : string) (attrs : list string) (rowList : list dict)
  : category :=
  {| cname := name;
     attributeNameList := attrs;
     data := map (λ rowD, map (aget rowD) attrs) rowList |}.

(** [attrs.index(a)] *)
Fixpoint index_of (a : string) (attrs : list string) : option nat :=
  match attrs with
  | [] => None
  | a' :: attrs' => if decide (a = a') then Some 0%nat else S <$> index_of a attrs'
  end.

Definition hasAttribute (c : category) (a : string) : bool :=
  bool_decide (a ∈ attributeNameList c).

Definition getRowCount (c : category) : nat := length (data c).

(** [catObj.getValue(a, iRow)], that is
    [self.data[iRow][self._attributeNameList.index(a)]]. *)
Definition getValue (c : category) (a : string) (iRow : nat) : result (option pyval) :=
  match data c !! iRow with
  | None => Raise IndexError
  | Some row =>
      match index_of a (attributeNameList c) with
      | None => Raise ValueError
      | Some ind =>
          match row !! ind with
          | Some cell => Ok cell
          | None => Raise IndexError
          end
      end
  end.

(** [catObj.setValue(v, a, iRow)] on a row that exists; the reader calls it
    only on a cell that [getValue] has just read. *)
Definition setValue (c : category) (v : pyval) (a : string) (iRow : nat) : result category :=
  match data c !! iRow with
  | None => Raise IndexError
  | Some row =>
      match index_of a (attributeNameList c) with
      | None => Raise ValueError
      | Some ind =>
          Ok {| cname := cname c;
                attributeNameList := attributeNameList c;
                data := <[iRow := <[ind := Some v]> row]> (data c) |}
      end
  end.

(** [catObj.renameAttributes(mapD)] *)
Definition renameAttributes (c : category) (mapD : list (string * string)) : category :=
  {| cname := cname c;
     attributeNameList :=
       map (λ a, default a (aget mapD a)) (attributeNameList c);
     data := data c |}.

Definition setName (c : category) (name : string) : category :=
  {| cname := name; attributeNameList := attributeNameList c; data := data c |}.

(** A [DataContainer]: its name and the catalogue of its categories, keyed
    by the name each had when it was appended, in append order. *)
Record container := {
  contName : string;
  objCatalog : list (string * category)
}.

Definition DataContainer (name : string) : container :=
  {| contName := name; objCatalog := [] |}.

(** [cur.append(obj)] *)
Definition append (cur : container) (obj : category) : container :=
  {| contName := contName cur; objCatalog := aset (objCatalog cur) (cname obj) obj |}.

Definition getObjNameList (cur : container) : list string := akeys (objCatalog cur).

Definition getObj (cur : container) (name : string) : option category :=
  aget (objCatalog cur) name.

(** An in-place change of the category registered under [key]. *)
Definition putObj (cur : container) (key : string) (obj : category) : container :=
  {| contName := contName cur; objCatalog := aset (objCatalog cur) key obj |}.

(** ** The reader *)

(** The cardinal attributes of a [ModelledSubgroup]. *)
Definition atL : list string :=
  ["altcode"; "chain"; "ent"; "model"; "resname"; "resnum"; "said"; "seq"].

(** [{k: src[k] for k in ks if k in src}] *)
Definition restrict (src : dict) (ks : list string) : dict :=
  fold_left (λ acc k, match aget src k with Some v => aset acc k v | None => acc end) ks [].

(** The row of a child: [d = {k: ch.attrib[k] for k in ch.attrib}] and then
    [d.update({k: msgD[k] for k in atL if k in msgD})]. *)
Definition child_row (chattrib msgD : dict) : dict :=
  let d := restrict chattrib (akeys chattrib) in
  aupdate d (restrict msgD atL).

(** [rD]: the rows (references to dictionaries) collected for each tag. *)
Abbreviation rowtable := (list (string * list loc)).

(** The dictionary behind [msgD]: the attributes of the top-level element, or
    a new empty dictionary. *)
Definition msg_dict (st : store) (msgD : option loc) : dict :=
  match msgD with
  | Some l => deref st l
  | None => []
  end.

(** Body of [for gch in ch]. *)
Definition extract_gch (s : rowtable * store) (gch : element) : rowtable * store :=
  (setdefault_append s.1 (tag gch) (attrib gch), s.2).

(** Body of [for ch in el]: the new dictionary [d] is allocated at the end of
    the store. *)
Definition extract_ch (msgD : option loc) (s : rowtable * store) (ch : element)
  : rowtable * store :=
  let d := child_row (deref s.2 (attrib ch)) (msg_dict s.2 msgD) in
  let l := length s.2 in
  fold_left extract_gch (children ch)
    (setdefault_append s.1 (tag ch) l, s.2 ++ [d]).

(** Body of [for el in xrt.getroot()]. *)
Definition extract_el (s : rowtable * store) (el : element) : rowtable * store :=
  let s1 := (setdefault_append s.1 (tag el) (attrib el), s.2) in
  let msgD := if decide (tag el = "ModelledSubgroup") then Some (attrib el) else None in
  fold_left (extract_ch msgD) (children el) s1.

(** [__extract] *)
Definition extract (st : store) (root : element) : rowtable * store :=
  fold_left extract_el (children root) ([], st).

(** [enumerate(l, start)] *)
Fixpoint enumerate {A : Type} (start : Z) (l : list A) : list (Z * A) :=
  match l with
  | [] => []
  | x :: l' => (start, x) :: enumerate (start + 1) l'
  end.

(** [atS.update(ks)], the set kept as the list of its members in the order
    they were first added. *)
Definition set_update (atS ks : list string) : list string :=
  fold_left (λ s k, if decide (k ∈ s) then s else s ++ [k]) ks atS.

(** The three assignments to a row in [__buildCif]. *)
Definition normalize_row (hasOrdinal : bool) (ii : Z) (rowD : dict) : dict :=
  let r1 := if hasOrdinal then aset rowD "ordinal" (VInt ii) else rowD in
  let r2 := match aget r1 "icode" with
            | Some v => aset r1 "icode" (VStr (strip (py_str v)))
            | None => r1
            end in
  match aget r2 "altcode" with
  | Some v => aset r2 "altcode" (VStr (strip (py_str v)))
  | None => r2
  end.

(** Body of [for ii, rowD in enumerate(rowList, 1)]: the row is updated in
    place. *)
Definition row_step (hasOrdinal : bool) (s : store * list string) (x : Z * loc)
  : store * list string :=
  let rowD := normalize_row hasOrdinal x.1 (deref s.1 x.2) in
  (<[x.2 := rowD]> s.1, set_update s.2 (akeys rowD)).

(** Stable insertion into a list sorted by rank. *)
Fixpoint insert_item (x : string * Z) (l : list (string * Z)) : list (string * Z) :=
  match l with
  | [] => [x]
  | y :: l' => if x.2 <=? y.2 then x :: y :: l' else y :: insert_item x l'
  end.

(** [sorted(sD.items(), key=operator.itemgetter(1))] *)
Definition sorted_items (sD : list (string * Z)) : list (string * Z) :=
  foldr insert_item [] sD.

Section Reader.
(** [list(atS)]: the order in which Python iterates over a set is not
    specified, so it is a parameter. *)
Variable set_iter : list string → list string.
Variable self : reader.

(** [{ky: self.__atOrdD[ky] for ky in attributeNameList}] *)
Definition rank_dict (attributeNameList : list string) : result (list (string * Z)) :=
  foldM (λ sD ky, r ← getitem (atOrdD self) ky; Ok (aset sD ky r)) attributeNameList [].

(** Body of the first loop of [__buildCif]. *)
Definition build_category (s : store * container) (entry : string * list loc)
  : result (store * container) :=
  let elName := entry.1 in
  let rowList := entry.2 in
  let catName := elName in
  if (length rowList <? 1)%nat then Ok s else
  registered ← getitem (attribD self) catName;
  if (length registered <? 1)%nat then Ok s else
  if bool_decide (catName ∈ ["programs"]) then Ok s else
  registered' ← getitem (attribD self) catName;
  let hasOrdinal := bool_decide ("ordinal" ∈ registered') in
  let s1 := fold_left (row_step hasOrdinal) (enumerate 1 rowList) (s.1, []) in
  let attributeNameList := set_iter s1.2 in
  sD ← rank_dict attributeNameList;
  let srtAtL := map fst (sorted_items sD) in
  let aCat := DataCategory catName srtAtL (map (deref s1.1) rowList) in
  Ok (s1.1, append s.2 aCat).

(** The new name of one attribute:
    [atD[(catName, atName)]['at'] if (catName, atName) in atD else atName]. *)
Definition map_attribute (catName atName : string) : result string :=
  match aget (attributes (schemaMap_ self)) (catName, atName) with
  | Some entry => getitem entry "at"
  | None => Ok atName
  end.

(** The new name of a category. *)
Definition map_category (catName : string) : string :=
  default catName (aget (categories (schemaMap_ self)) catName).

(** Body of the second loop of [__buildCif]. *)
Definition rename_category (cur : container) (catName : string) : result container :=
  match getObj cur catName with
  | None => Raise AttributeError
  | Some catObj =>
      let atNameList := attributeNameList catObj in
      let mapCatName := map_category catName in
      mapD ← foldM (λ mapD atName, v ← map_attribute catName atName; Ok (aset mapD atName v))
                   atNameList [];
      Ok (putObj cur catName (setName (renameAttributes catObj mapD) mapCatName))
  end.

(** One provenance token. *)
Definition decode_token (ky : string) : string := default ky (aget (atMap self) ky).

(** The new value of a [properties] cell. *)
Definition decode_properties (pV : string) : string :=
  let pVL := map strip (py_split "," pV) in
  let nL := map decode_token pVL in
  py_join "," nL.

(** Body of [for iRow in range(catObj.getRowCount())]; a cell that is not a
    string has no [split]. *)
Definition provenance_row (catObj : category) (iRow : nat) : result category :=
  pV ← getValue catObj "properties" iRow;
  match pV with
  | Some (VStr pV) => setValue catObj (VStr (decode_properties pV)) "properties" iRow
  | _ => Raise AttributeError
  end.

(** The last part of [__buildCif]; [None] is Python's [None], returned when
    the function runs off its end. *)
Definition map_provenance (cur : container) : result (option (list container)) :=
  match getObj cur "program" with
  | Some catObj =>
      if negb (getRowCount catObj =? 0)%nat && hasAttribute catObj "properties" then
        catObj' ← foldM provenance_row (seq 0 (getRowCount catObj)) catObj;
        Ok (Some [putObj cur "program" catObj'])
      else Ok None
  | None => Ok None
  end.

(** The three parts of [__buildCif] in turn. *)
Definition build_categories (st : store) (rD : rowtable) : result (store * container) :=
  foldM build_category rD (st, DataContainer "vrpt").

Definition rename_categories (cur : container) : result container :=
  foldM rename_category (getObjNameList cur) cur.

Definition buildCif (st : store) (rD : rowtable)
  : result (store * option (list container)) :=
  s ← build_categories st rD;
  cur ← rename_categories s.2;
  r ← map_provenance cur;
  Ok (s.1, r).

(** [read], from the parsed tree on. *)
Definition read (st : store) (xrt : element) : result (store * option (list container)) :=
  let s := extract st xrt in
  buildCif s.2 s.1.
End Reader.


(** ** Notions used to state the properties *)

(** The rows collected under a tag. *)
Definition rows_of (rD : rowtable) (t : string) : list loc := default [] (aget rD t).

(** Where a row comes from: it is the attribute dictionary of an element
    itself, or a new dictionary made of a child's attributes overlaid with the
    attributes [msgD] carried from its parent. *)
Inductive rowsrc :=
  | Own (l : loc)
  | Overlay (ch : loc) (msgD : option loc).

(** The attribute dictionary an origin reads. *)
Definition src_loc (s : rowsrc) : loc :=
  match s with
  | Own l => l
  | Overlay ch _ => ch
  end.

(** The flattening as the design describes it, in document order: a row for
    each top-level element, for each of its children (overlaid with the
    cardinal attributes when the parent is a [ModelledSubgroup]) and for each
    grandchild. *)
Definition flat_ch (msgD : option loc) (ch : element) : list (string * rowsrc) :=
  (tag ch, Overlay (attrib ch) msgD) :: map (λ g, (tag g, Own (attrib g))) (children ch).

Definition flat_el (el : element) : list (string * rowsrc) :=
  let msgD := if decide (tag el = "ModelledSubgroup") then Some (attrib el) else None in
  (tag el, Own (attrib el)) :: concat (map (flat_ch msgD) (children el)).

Definition flatten (root : element) : list (string * rowsrc) :=
  concat (map flat_el (children root)).

(** The content of a row of a given origin, read in the store [st]. *)
Definition src_dict (st : store) (s : rowsrc) : dict :=
  match s with
  | Own l => deref st l
  | Overlay ch msgD => child_row (deref st ch) (msg_dict st msgD)
  end.

(** A parsed document: every element of the three levels has an attribute
    dictionary of its own in the store. *)
Definition wf_doc (st : store) (root : element) : Prop :=
  NoDup (map (λ p, src_loc p.2) (flatten root)) ∧
  Forall (λ p, (src_loc p.2 < length st)%nat) (flatten root).

#[global] Instance wf_doc_dec st root : Decision (wf_doc st root).
Proof. unfold wf_doc. apply _. Defined.

(** A row reference [r] (with its tag) is the row of origin [p]: its content
    in [st'] is what the origin reads in [st]; it is the element's own
    dictionary, or one allocated after [st]. *)
Definition row_matches (st st' : store) (r : string * loc) (p : string * rowsrc) : Prop :=
  r.1 = p.1 ∧
  deref st' r.2 = src_dict st p.2 ∧
  match p.2 with
  | Own l => r.2 = l
  | Overlay _ _ => (length st ≤ r.2)%nat
  end.

(** Order of two ranked columns. *)
Definition rank_le (x y : string * Z) : Prop := x.2 ≤ y.2.

Section Emission.
Variable set_iter : list string → list string.
Variable self : reader.

(** The first loop of [__buildCif] skips the rows [rowList] of tag [key]. *)
Definition skips (key : string) (rowList : list loc) : Prop :=
  rowList = [] ∨
  ∃ registered, aget (attribD self) key = Some registered ∧
                (registered = [] ∨ key = "programs").

(** The first loop of [__buildCif], reaching the rows [rowList] of tag [key]
    with the store [st], leaves the store [st'] and appends the category
    [aCat]. *)
Definition emits (st : store) (key : string) (rowList : list loc)
    (st' : store) (aCat : category) : Prop :=
  ∃ registered sD,
    aget (attribD self) key = Some registered ∧
    registered ≠ [] ∧ rowList ≠ [] ∧ key ≠ "programs" ∧
    let s1 := fold_left (row_step (bool_decide ("ordinal" ∈ registered)))
                (enumerate 1 rowList) (st, []) in
    st' = s1.1 ∧
    rank_dict self (set_iter s1.2) = Ok sD ∧
    aCat = DataCategory key (map fst (sorted_items sD)) (map (deref s1.1) rowList).
End Emission.

(** The tags with rows that the first loop of [__buildCif] does not skip. *)
Definition kept_tag (self : reader) (t : string) : Prop :=
  t ≠ "programs" ∧ aget (attribD self) t ≠ Some [].

#[global] Instance kept_tag_dec self t : Decision (kept_tag self t).
Proof. unfold kept_tag. apply _. Defined.

(** The second loop of [__buildCif] turns the category [c] registered under
    [key] into [c']: the category name and each column name are translated,
    the columns by the entry for [key] and the column's own name. *)
Definition renamed (self : reader) (key : string) (c c' : category) : Prop :=
  cname c' = map_category self key ∧
  Forall2 (λ a a', map_attribute self key a = Ok a')
    (attributeNameList c) (attributeNameList c') ∧
  data c' = data c.

(** The row table of a parsed document: one entry for a tag, no dictionary
    twice among the rows of a tag, every row in the store. *)
Definition wf_rows (st : store) (rD : rowtable) : Prop :=
  NoDup (akeys rD) ∧
  ∀ t rows, (t, rows) ∈ rD → NoDup rows ∧ Forall (λ l, (l < length st)%nat) rows.

(** ** A small report, to run the definitions on *)

(** [list(atS)] in insertion order. *)
Definition set_iter_insertion (atS : list string) : list string := atS.

Definition sample_schema : schemaMap :=
  {| attributes :=
       [ (("Entry", "pdbid"), [("cat", "pdbx_vrpt_summary"); ("at", "entry_id")]);
         (("Entry", "ordinal"), [("cat", "pdbx_vrpt_summary"); ("at", "ordinal")]);
         (("ModelledSubgroup", "ordinal"), [("at", "ordinal")]);
         (("ModelledSubgroup", "chain"), [("at", "auth_asym_id")]);
         (("ModelledSubgroup", "resnum"), [("at", "auth_seq_id")]);
         (("ModelledSubgroup", "icode"), [("at", "PDB_ins_code")]);
         (("clash", "ordinal"), [("at", "ordinal")]);
         (("clash", "atom"), [("at", "atom")]);
         (("dist", "ordinal"), [("at", "ordinal")]);
         (("programs", "ordinal"), [("at", "ordinal")]);
         (("program", "ordinal"), [("at", "ordinal")]);
         (("program", "name"), [("at", "name")]);
         (("pdbx_vrpt_software", "name"), [("at", "software_name")]) ];
     categories :=
       [ ("Entry", "pdbx_vrpt_summary");
         ("ModelledSubgroup", "pdbx_vrpt_instance_results");
         ("program", "pdbx_vrpt_software") ] |}.

Definition sample_order : list (string * Z) :=
  [ ("ordinal", 0); ("pdbid", 1); ("model", 2); ("chain", 3); ("resnum", 4);
    ("icode", 5); ("altcode", 6); ("atom", 7); ("cid", 8); ("value", 9);
    ("name", 10); ("properties", 11); ("version", 12) ].

Definition sample_atMap : list (string * string) :=
  [ ("clashscore", "Clashscore"); ("percent-rama-outliers", "Ramachandran outliers") ].

Definition sample_reader : reader := init sample_schema sample_order sample_atMap.

(** The attribute dictionaries of the elements of [sample_doc]. *)
Definition sample_store : store :=
  [ [("pdbid", VStr "1ABC")];
    [("model", VStr "1"); ("chain", VStr "A"); ("resnum", VStr "5"); ("icode", VStr " ")];
    [("atom", VStr "CA"); ("cid", VStr "7"); ("chain", VStr "Z")];
    [("value", VStr "0.41")];
    [];
    [("name", VStr "mogul"); ("properties", VStr "clashscore, bonds_rmsz"); ("version", VStr "1.8")] ].

Definition sample_doc : element :=
  Element "wwPDB-validation-information" 6%nat
    [ Element "Entry" 0%nat [];
      Element "ModelledSubgroup" 1%nat
        [ Element "clash" 2%nat [ Element "dist" 3%nat [] ] ];
      Element "programs" 4%nat
        [ Element "program" 5%nat [] ] ].

(** The same report with blanks outside ASCII: no-break spaces around the
    insertion code, and a no-break space, an ideographic space and an em
    space around the provenance tokens. *)
Definition unicode_store : store :=
  [ [("pdbid", VStr "1ABC")];
    [("model", VStr "1"); ("chain", VStr "A"); ("resnum", VStr "5");
     ("icode", VStr (chr 0xA0 +:+ "A" +:+ chr 0xA0))];
    [("atom", VStr "CA"); ("cid", VStr "7"); ("chain", VStr "Z")];
    [("value", VStr "0.41")];
    [];
    [("name", VStr "mogul");
     ("properties",
      VStr (chr 0xA0 +:+ "clashscore," +:+ chr 0x3000 +:+ "bonds_rmsz" +:+ chr 0x2003));
     ("version", VStr "1.8")] ].

(** A report without a [program] element. *)
Definition summary_store : store := [ [("pdbid", VStr "1ABC")] ].

Definition summary_doc : element :=
  Element "wwPDB-validation-information" 1%nat [ Element "Entry" 0%nat [] ].

(** A report whose [program] element has no [properties] attribute. *)
Definition noproperties_store : store :=
  [ [("pdbid", VStr "1ABC")]; []; [("name", VStr "mogul")] ].

Definition noproperties_doc : element :=
  Element "wwPDB-validation-information" 3%nat
    [ Element "Entry" 0%nat [];
      Element "programs" 1%nat [ Element "program" 2%nat [] ] ].

(** A report with an element whose tag the schema map does not know. *)
Definition unregistered_store : store := [ [("pdbid", VStr "1ABC")]; [("id", VStr "1")] ].

Definition unregistered_doc : element :=
  Element "wwPDB-validation-information" 2%nat
    [ Element "Entry" 0%nat []; Element "Extension" 1%nat [] ].

(** A schema map with no attribute of the [programs] element. *)
Definition program_schema : schemaMap :=
  {| attributes :=
       [ (("program", "name"), [("at", "name")]);
         (("program", "properties"), [("at", "properties")]) ];
     categories := [ ("program", "pdbx_vrpt_software") ] |}.

Definition programs_store : store :=
  [ []; [("name", VStr "mogul"); ("properties", VStr "clashscore")] ].

Definition programs_doc : element :=
  Element "wwPDB-validation-information" 2%nat
    [ Element "programs" 0%nat [ Element "program" 1%nat [] ] ].

(** A report with an attribute that has no rank. *)
Definition unranked_store : store :=
  [ [("pdbid", VStr "1ABC"); ("XMLcreationDate", VStr "2019-01-24")] ].

(** ** [__parse] and [cnv] *)

(** [s] without its first [n] characters. *)
Fixpoint drop_string (n : nat) (s : string) : string :=
  match n, s with
  | O, _ => s
  | S n', String _ s' => drop_string n' s'
  | S _, EmptyString => EmptyString
  end.

(** [s[-n:]] for a positive [n]: the last [n] characters, or all of [s] when
    it is shorter. *)
Definition py_tail (n : nat) (s : string) : string :=
  drop_string (String.length s - n) s.

Section Parse.
(** The file layer and the XML parser are collaborators: [gzip.open],
    [open] and [ET.parse], each giving a value or an error of its own. *)
Context {E handle tree : Type}.
Variable gzip_open : string → E + handle.
Variable plain_open : string → E + handle.
Variable ET_parse : handle → E + tree.

(** [__parse] *)
Definition parse (filePath : string) : E + tree :=
  if bool_decide (py_tail 3 filePath = ".gz") then
    match gzip_open filePath with
    | inl e => inl e
    | inr ifh => ET_parse ifh
    end
  else
    match plain_open filePath with
    | inl e => inl e
    | inr ifh => ET_parse ifh
    end.
End Parse.

Section Cnv.
Variable set_iter : list string → list string.
Variable self : reader.
(** [self.__mU.doExport(cifFilePath, cL, format=...)], a collaborator. *)
Variable doExport : string → option (list container) → string → bool.

End Cnv.

(** ** Further notions *)

(** A document cut below its grandchildren. *)
Definition prune_gch (gch : element) : element := Element (tag gch) (attrib gch) [].

Definition prune_ch (ch : element) : element :=
  Element (tag ch) (attrib ch) (map prune_gch (children ch)).

Definition prune_el (el : element) : element :=
  Element (tag el) (attrib el) (map prune_ch (children el)).

Definition prune (root : element) : element :=
  Element (tag root) (attrib root) (map prune_el (children root)).

(** Every row of a category has a cell for every column. *)
Definition rectangular (c : category) : Prop :=
  Forall (λ row, length row = length (attributeNameList c)) (data c).

(** The row table has one entry for a tag and no entry without rows. *)
Definition table_ok (rD : rowtable) : Prop :=
  NoDup (akeys rD) ∧ ∀ t rows, (t, rows) ∈ rD → rows ≠ [].

(** A report with two [program] elements, the second without [properties]. *)
Definition twoprograms_store : store :=
  [ [];
    [("name", VStr "mogul"); ("properties", VStr "clashscore")];
    [("name", VStr "xtriage")] ].

Definition twoprograms_doc : element :=
  Element "wwPDB-validation-information" 3%nat
    [ Element "programs" 0%nat
        [ Element "program" 1%nat []; Element "program" 2%nat [] ] ].

(** A report with a fourth level. *)
Definition deep_doc : element :=
  Element "wwPDB-validation-information" 6%nat
    [ Element "Entry" 0%nat [];
      Element "ModelledSubgroup" 1%nat
        [ Element "clash" 2%nat
            [ Element "dist" 3%nat [ Element "note" 4%nat [] ] ] ] ].

(** A schema map with an entry that has no [at] field. *)
Definition incomplete_schema : schemaMap :=
  {| attributes := [ (("Entry", "pdbid"), [("cat", "pdbx_vrpt_summary")]) ];
     categories := [ ("Entry", "pdbx_vrpt_summary") ] |}.
(** * Properties *)

(** ** The error monad *)

Lemma bind_Ok {A B : Type} (m : result A) (f : A → result B) (b : B) :
  m ≫= f = Ok b → ∃ a, m = Ok a ∧ f a = Ok b.
Proof. destruct m as [a|e]; simpl; [eauto | discriminate]. Qed.

Lemma foldM_app {A B : Type} (f : A → B → result A) (l1 l2 : list B) (a : A) :
  foldM f (l1 ++ l2) a = foldM f l1 a ≫= foldM f l2.
Proof.
  revert a. induction l1 as [|x l1 IH]; intros a; simpl; [done|].
  destruct (f a x) as [a'|e]; simpl; [apply IH | done].
Qed.

(** An invariant of the loop state holds after a loop that did not raise. *)
Lemma foldM_invariant {A B : Type} (P : A → Prop) (f : A → B → result A) (l : list B) :
  (∀ a x a', x ∈ l → P a → f a x = Ok a' → P a') →
  ∀ a a', P a → foldM f l a = Ok a' → P a'.
Proof.
  induction l as [|x l IH]; intros Hstep a a' Ha Hfold; simpl in Hfold.
  - by simplify_eq.
  - apply bind_Ok in Hfold as (a1 & Hx & Hrest).
    eapply IH; [ | | exact Hrest].
    + intros b y b' Hy. apply Hstep. by right.
    + eapply Hstep; [ by left | exact Ha | exact Hx ].
Qed.

(** ** Dictionaries *)

Section DictFacts.
Context {K V : Type} `{EqDecision K}.
Implicit Types (d : list (K * V)) (k : K) (v : V).

Lemma aget_aset_eq d k v : aget (aset d k v) k = Some v.
Proof.
  induction d as [|[k' v'] d IH]; simpl.
  - by rewrite decide_True.
  - destruct (decide (k = k')) as [->|Hne]; simpl.
    + by rewrite decide_True.
    + by rewrite decide_False.
Qed.

Lemma aget_aset_ne d k k' v : k ≠ k' → aget (aset d k v) k' = aget d k'.
Proof.
  intros Hne. induction d as [|[k0 v0] d IH]; simpl.
  - by rewrite decide_False.
  - destruct (decide (k = k0)) as [->|Hne0]; simpl.
    + by rewrite !decide_False.
    + by rewrite IH.
Qed.

Lemma aget_aset d k k' v :
  aget (aset d k v) k' = if decide (k = k') then Some v else aget d k'.
Proof.
  case_decide as Hk; [subst; apply aget_aset_eq | by apply aget_aset_ne].
Qed.

Lemma aget_is_Some d k : is_Some (aget d k) ↔ k ∈ akeys d.
Proof.
  unfold akeys. induction d as [|[k' v'] d IH]; simpl.
  - split; [by intros [? ?] | by intros ?%elem_of_nil].
  - rewrite elem_of_cons. case_decide as Hk; simpl.
    + split; [by left | eauto].
    + rewrite IH. split; [by right | by intros [?|?]].
Qed.

Lemma aget_None d k : aget d k = None ↔ k ∉ akeys d.
Proof. rewrite <-aget_is_Some, eq_None_not_Some. done. Qed.

Lemma aget_Some_elem_of d k v : aget d k = Some v → (k, v) ∈ d.
Proof.
  induction d as [|[k' v'] d IH]; simpl; [done|].
  case_decide as Hk; intros Hget.
  - injection Hget as ->. subst k'. by left.
  - right. auto.
Qed.

Lemma elem_of_aget d k v : NoDup (akeys d) → (k, v) ∈ d → aget d k = Some v.
Proof.
  unfold akeys. induction d as [|[k' v'] d IH]; simpl.
  - by intros _ ?%elem_of_nil.
  - intros [Hnotin Hnd]%NoDup_cons [Heq|Hin]%elem_of_cons.
    + simplify_eq. by rewrite decide_True.
    + rewrite decide_False; [by apply IH|].
      intros ->. apply Hnotin. apply (list_elem_of_fmap_2 fst) in Hin. done.
Qed.

Lemma akeys_aset d k v k' : k' ∈ akeys (aset d k v) ↔ k' = k ∨ k' ∈ akeys d.
Proof.
  rewrite <-!aget_is_Some, aget_aset. case_decide; subst.
  - split; [by left | eauto].
  - split; [by right | by intros [?|?]].
Qed.

Lemma akeys_aset_present d k v : k ∈ akeys d → akeys (aset d k v) = akeys d.
Proof.
  unfold akeys. induction d as [|[k' v'] d IH]; simpl.
  - by intros ?%elem_of_nil.
  - intros Hin. case_decide as Hk; simpl; [by subst|].
    f_equal. apply IH. apply elem_of_cons in Hin as [?|?]; [done | done].
Qed.

Lemma akeys_aset_absent d k v : k ∉ akeys d → akeys (aset d k v) = akeys d ++ [k].
Proof.
  unfold akeys. induction d as [|[k' v'] d IH]; simpl; [done|].
  intros Hin. apply not_elem_of_cons in Hin as [Hne Hin].
  rewrite decide_False by done. simpl. by rewrite IH.
Qed.

Lemma NoDup_akeys_aset d k v : NoDup (akeys d) → NoDup (akeys (aset d k v)).
Proof.
  intros Hnd. destruct (decide (k ∈ akeys d)) as [Hin|Hnotin].
  - by rewrite akeys_aset_present.
  - rewrite akeys_aset_absent by done.
    apply NoDup_app. split_and!; [done | | apply NoDup_singleton].
    intros x Hx ->%list_elem_of_singleton. done.
Qed.

(** Assignments in a loop: the last one to a key wins. *)
Lemma aget_aupdate d1 d2 k :
  NoDup (akeys d2) →
  aget (aupdate d1 d2) k = match aget d2 k with Some v => Some v | None => aget d1 k end.
Proof.
  unfold aupdate, akeys. revert d1.
  induction d2 as [|[k' v'] d2 IH]; intros d1 Hnd; simpl; [done|].
  apply NoDup_cons in Hnd as [Hnotin Hnd]. simpl in Hnotin.
  rewrite IH by done. case_decide as Hk.
  - subst k'. apply aget_None in Hnotin. rewrite Hnotin. apply aget_aset_eq.
  - destruct (aget d2 k); [done|]. apply aget_aset_ne. congruence.
Qed.
End DictFacts.

(** ** Flattening *)

Lemma list_map_fmap {A B : Type} (f : A → B) (l : list A) : map f l = f <$> l.
Proof. reflexivity. Qed.

Lemma rows_of_setdefault_append (rD : rowtable) k x t :
  rows_of (setdefault_append rD k x) t
  = if decide (k = t) then rows_of rD t ++ [x] else rows_of rD t.
Proof.
  unfold rows_of, setdefault_append.
  destruct (aget rD k) as [l|] eqn:Hk; rewrite aget_aset;
    case_decide; subst; rewrite ?Hk; done.
Qed.

Lemma NoDup_akeys_setdefault_append {V : Type} (d : list (string * list V)) k x :
  NoDup (akeys d) → NoDup (akeys (setdefault_append d k x)).
Proof. unfold setdefault_append. destruct (aget d k); apply NoDup_akeys_aset. Qed.

Lemma deref_app_l (st news : store) (l : loc) :
  (l < length st)%nat → deref (st ++ news) l = deref st l.
Proof. intros Hl. unfold deref. by rewrite lookup_app_l. Qed.

Lemma deref_alloc (st : store) (d : dict) : deref (st ++ [d]) (length st) = d.
Proof. unfold deref. by rewrite list_lookup_middle. Qed.

Lemma Forall2_impl_Forall_l {A B : Type} (P Q : A → B → Prop) (l : list A) (k : list B) :
  Forall2 P l k → Forall (λ x, ∀ y, P x y → Q x y) l → Forall2 Q l k.
Proof.
  induction 1 as [|x y l k Hxy _ IH]; intros HF; [constructor|].
  apply Forall_cons in HF as [Hx HF]. constructor; auto.
Qed.

Section Flatten.
Variable st : store.

(** The state of [__extract] after the rows of the origins [fl] have been
    appended: [acc] lists the references appended, in order. *)
Definition extract_inv (s : rowtable * store) (fl : list (string * rowsrc)) : Prop :=
  ∃ acc : list (string * loc),
    (∀ t, rows_of s.1 t = (filter (λ r, r.1 = t) acc).*2) ∧
    Forall2 (row_matches st s.2) acc fl ∧
    Forall (λ r, (r.2 < length s.2)%nat) acc ∧
    NoDup acc.*2 ∧
    NoDup (akeys s.1) ∧
    ∃ news, s.2 = st ++ news.

Lemma extract_inv_init : extract_inv ([], st) [].
Proof.
  exists []. split_and!; try done; try constructor.
  exists []. simpl. by rewrite app_nil_r.
Qed.

Lemma row_matches_acc_notin acc fl (s2 : store) l :
  Forall2 (row_matches st s2) acc fl →
  (l < length st)%nat →
  l ∉ map (λ p, src_loc p.2) fl →
  l ∉ acc.*2.
Proof.
  intros HF Hl Hnotin Hin.
  apply list_elem_of_fmap in Hin as ([t l'] & -> & Hin).
  apply list_elem_of_lookup in Hin as [i Hi].
  destruct (Forall2_lookup_l _ _ _ _ _ HF Hi) as ([t' src] & Hfl & _ & _ & Hsrc).
  simpl in *. destruct src as [l0|ch m].
  - subst l0. apply Hnotin. rewrite list_map_fmap.
    apply list_elem_of_fmap. exists (t', Own l'). split; [done|].
    apply list_elem_of_lookup. eauto.
  - lia.
Qed.

(** Appending an element's own dictionary. *)
Lemma extract_inv_own s fl t l :
  extract_inv s fl →
  (l < length st)%nat →
  l ∉ map (λ p, src_loc p.2) fl →
  extract_inv (setdefault_append s.1 t l, s.2) (fl ++ [(t, Own l)]).
Proof.
  intros (acc & Hrows & HF & Hval & Hnd & Hkeys & news & Hst) Hl Hnotin.
  exists (acc ++ [(t, l)]). simpl. split_and!.
  - intros t'. rewrite rows_of_setdefault_append, Hrows, filter_app, fmap_app.
    rewrite filter_cons, filter_nil. simpl. case_decide; simpl; [done|].
    by rewrite app_nil_r.
  - apply Forall2_app; [done|]. constructor; [|constructor].
    split_and!; simpl; [done| |done].
    rewrite Hst. by apply deref_app_l.
  - apply Forall_app. split; [done|]. constructor; [|constructor].
    simpl. rewrite Hst, length_app. lia.
  - rewrite fmap_app. apply NoDup_app. split_and!; [done| |apply NoDup_singleton].
    intros x Hx ->%list_elem_of_singleton.
    by eapply row_matches_acc_notin.
  - by apply NoDup_akeys_setdefault_append.
  - eauto.
Qed.

(** Appending a newly allocated child row. *)
Lemma extract_inv_fresh s fl t ch msgD :
  extract_inv s fl →
  (ch < length st)%nat →
  (∀ m, msgD = Some m → (m < length st)%nat) →
  extract_inv
    (setdefault_append s.1 t (length s.2),
     s.2 ++ [child_row (deref s.2 ch) (msg_dict s.2 msgD)])
    (fl ++ [(t, Overlay ch msgD)]).
Proof.
  intros (acc & Hrows & HF & Hval & Hnd & Hkeys & news & Hst) Hch Hmsg.
  exists (acc ++ [(t, length s.2)]). simpl. split_and!.
  - intros t'. rewrite rows_of_setdefault_append, Hrows, filter_app, fmap_app.
    rewrite filter_cons, filter_nil. simpl. case_decide; simpl; [done|].
    by rewrite app_nil_r.
  - apply Forall2_app.
    + eapply Forall2_impl_Forall_l; [exact HF|].
      eapply Forall_impl; [exact Hval|].
      intros r Hr p (Ht & Hd & Hs).
      split_and!; [done| |done].
      rewrite <-Hd. by apply deref_app_l.
    + constructor; [|constructor]. split_and!; simpl; [done| |].
      * rewrite deref_alloc. rewrite Hst. rewrite deref_app_l by done.
        f_equal. destruct msgD as [m|]; simpl; [|done].
        apply deref_app_l. by apply Hmsg.
      * rewrite Hst, length_app. lia.
  - apply Forall_app. split.
    + eapply Forall_impl; [exact Hval|]. intros r Hr. simpl in *.
      rewrite length_app. lia.
    + constructor; [|constructor]. simpl. rewrite length_app. simpl. lia.
  - rewrite fmap_app. apply NoDup_app. split_and!; [done| |apply NoDup_singleton].
    intros x Hx ->%list_elem_of_singleton.
    apply list_elem_of_fmap in Hx as (r & Hr1 & Hr2).
    rewrite Forall_forall in Hval. specialize (Hval r Hr2). simpl in *. lia.
  - by apply NoDup_akeys_setdefault_append.
  - exists (news ++ [child_row (deref s.2 ch) (msg_dict s.2 msgD)]).
    by rewrite Hst, app_assoc.
Qed.

Local Abbreviation locs fl := (map (λ p : string * rowsrc, src_loc p.2) fl).
Local Abbreviation valid fl := (Forall (λ p : string * rowsrc, (src_loc p.2 < length st)%nat) fl).

Lemma locs_head_notin fl p rest :
  NoDup (locs (fl ++ p :: rest)) → src_loc p.2 ∉ locs fl.
Proof.
  rewrite map_app. simpl. rewrite !list_map_fmap.
  intros (_ & Hdisj & _)%NoDup_app Hin.
  apply (Hdisj _ Hin). by left.
Qed.

Lemma NoDup_locs_app_l fl1 fl2 : NoDup (locs (fl1 ++ fl2)) → NoDup (locs fl1).
Proof. rewrite map_app, !list_map_fmap. by intros (? & _)%NoDup_app. Qed.

Lemma extract_gch_inv gs : ∀ s fl,
  extract_inv s fl →
  NoDup (locs (fl ++ map (λ g, (tag g, Own (attrib g))) gs)) →
  valid (map (λ g, (tag g, Own (attrib g))) gs) →
  extract_inv (fold_left extract_gch gs s) (fl ++ map (λ g, (tag g, Own (attrib g))) gs).
Proof.
  induction gs as [|g gs IH]; intros s fl Hinv Hnd Hval; simpl.
  - by rewrite app_nil_r.
  - simpl in Hnd, Hval. apply Forall_cons in Hval as [Hg Hval].
    pose proof (locs_head_notin _ _ _ Hnd) as Hnotin.
    rewrite (cons_middle _ fl), app_assoc in Hnd |- *.
    apply IH; [|done|done].
    by apply extract_inv_own.
Qed.

Lemma extract_ch_inv msgD cs : ∀ s fl,
  extract_inv s fl →
  (∀ m, msgD = Some m → (m < length st)%nat) →
  NoDup (locs (fl ++ concat (map (flat_ch msgD) cs))) →
  valid (concat (map (flat_ch msgD) cs)) →
  extract_inv (fold_left (extract_ch msgD) cs s) (fl ++ concat (map (flat_ch msgD) cs)).
Proof.
  induction cs as [|c cs IH]; intros s fl Hinv Hmsg Hnd Hval;
    cbn [fold_left map concat] in *.
  - by rewrite app_nil_r.
  -
    apply Forall_app in Hval as [Hc Hval].
    rewrite app_assoc in Hnd |- *.
    apply IH; [|done|done|done].
    apply NoDup_locs_app_l in Hnd.
    unfold flat_ch in Hc, Hnd |- *. apply Forall_cons in Hc as [Hc Hgs].
    rewrite (cons_middle _ fl), app_assoc in Hnd |- *.
    unfold extract_ch. apply extract_gch_inv; [|done|done].
    by apply extract_inv_fresh.
Qed.

Lemma extract_el_inv els : ∀ s fl,
  extract_inv s fl →
  NoDup (locs (fl ++ concat (map flat_el els))) →
  valid (concat (map flat_el els)) →
  extract_inv (fold_left extract_el els s) (fl ++ concat (map flat_el els)).
Proof.
  induction els as [|el els IH]; intros s fl Hinv Hnd Hval;
    cbn [fold_left map concat] in *.
  - by rewrite app_nil_r.
  -
    apply Forall_app in Hval as [Hel Hval].
    rewrite app_assoc in Hnd |- *.
    apply IH; [|done|done].
    apply NoDup_locs_app_l in Hnd.
    unfold flat_el in Hel, Hnd |- *. apply Forall_cons in Hel as [Hown Hcs].
    pose proof (locs_head_notin _ _ _ Hnd) as Hnotin.
    rewrite (cons_middle _ fl), app_assoc in Hnd |- *.
    unfold extract_el. apply extract_ch_inv; [| |done|done].
    + by apply extract_inv_own.
    + intros m Hm. case_decide; by simplify_eq.
Qed.

(** [__extract] collects exactly the rows of the flattening. *)
Lemma extract_flatten root :
  wf_doc st root → extract_inv (extract st root) (flatten root).
Proof.
  intros [Hnd Hval]. unfold extract, flatten.
  apply (extract_el_inv (children root) ([], st) []); [apply extract_inv_init|done|done].
Qed.
End Flatten.

(** The rows collected under a tag and the origins of that tag in the
    flattening correspond one to one, in document order. *)
Lemma extract_rows_of st root t :
  wf_doc st root →
  Forall2 (λ l p, row_matches st (extract st root).2 (t, l) p)
    (rows_of (extract st root).1 t) (filter (λ p, p.1 = t) (flatten root)).
Proof.
  intros Hwf. destruct (extract_flatten st root Hwf) as (acc & Hrows & HF & _).
  rewrite Hrows.
  apply (Forall2_filter _ (λ r, r.1 = t) (λ p, p.1 = t)) in HF;
    [|intros r p (Ht & _); by rewrite Ht].
  apply Forall2_fmap_l. eapply Forall2_impl_Forall_l; [exact HF|].
  apply Forall_forall. intros [t' l] [Ht _]%list_elem_of_filter p Hm.
  simpl in Ht. by subst t'.
Qed.

Lemma extract_row_of_origin st root t src :
  wf_doc st root → (t, src) ∈ flatten root →
  ∃ l, l ∈ rows_of (extract st root).1 t ∧ row_matches st (extract st root).2 (t, l) (t, src).
Proof.
  intros Hwf Hin. pose proof (extract_rows_of st root t Hwf) as HF.
  assert ((t, src) ∈ filter (λ p : string * rowsrc, p.1 = t) (flatten root)) as Hf
    by (by apply list_elem_of_filter).
  apply list_elem_of_lookup in Hf as [i Hi].
  destruct (Forall2_lookup_r _ _ _ _ _ HF Hi) as (l & Hl & Hm).
  exists l. split; [|done]. by eapply list_elem_of_lookup_2.
Qed.

Lemma extract_origin_of_row st root t l :
  wf_doc st root → l ∈ rows_of (extract st root).1 t →
  ∃ src, (t, src) ∈ flatten root ∧ row_matches st (extract st root).2 (t, l) (t, src).
Proof.
  intros Hwf Hin. pose proof (extract_rows_of st root t Hwf) as HF.
  apply list_elem_of_lookup in Hin as [i Hi].
  destruct (Forall2_lookup_l _ _ _ _ _ HF Hi) as ([t' src] & Hp & Hm).
  apply list_elem_of_lookup_2, list_elem_of_filter in Hp as [Ht Hp].
  simpl in Ht. subst t'. eauto.
Qed.

(** No dictionary is a row twice, neither under one tag nor under two. *)
Lemma extract_rows_NoDup st root t :
  wf_doc st root → NoDup (rows_of (extract st root).1 t).
Proof.
  intros Hwf. destruct (extract_flatten st root Hwf) as (acc & Hrows & _ & _ & Hnd & _).
  rewrite Hrows. eapply sublist_NoDup; [exact Hnd|].
  apply fmap_sublist, sublist_filter.
Qed.

Lemma extract_rows_one_tag st root t1 t2 l :
  wf_doc st root →
  l ∈ rows_of (extract st root).1 t1 → l ∈ rows_of (extract st root).1 t2 → t1 = t2.
Proof.
  intros Hwf. destruct (extract_flatten st root Hwf) as (acc & Hrows & _ & _ & Hnd & _).
  rewrite !Hrows.
  intros ([t1' l1] & -> & [Ht1 H1]%list_elem_of_filter)%list_elem_of_fmap
         ([t2' l2] & Hl & [Ht2 H2]%list_elem_of_filter)%list_elem_of_fmap.
  simpl in *. subst.
  apply list_elem_of_lookup in H1 as [i Hi]. apply list_elem_of_lookup in H2 as [j Hj].
  assert (i = j) as ->.
  { eapply NoDup_lookup; [exact Hnd| |]; rewrite list_lookup_fmap.
    - by rewrite Hi. - by rewrite Hj. }
  congruence.
Qed.

Lemma extract_rows_valid st root t l :
  wf_doc st root → l ∈ rows_of (extract st root).1 t → (l < length (extract st root).2)%nat.
Proof.
  intros Hwf. destruct (extract_flatten st root Hwf) as (acc & Hrows & _ & Hval & _).
  rewrite Hrows. intros (r & -> & [_ Hr]%list_elem_of_filter)%list_elem_of_fmap.
  rewrite Forall_forall in Hval. by apply Hval.
Qed.

(** [__extract] allocates; it changes no dictionary that exists. *)
Lemma extract_store_grows st root :
  wf_doc st root → ∃ news, (extract st root).2 = st ++ news.
Proof.
  intros Hwf. by destruct (extract_flatten st root Hwf) as (acc & _ & _ & _ & _ & _ & Hst).
Qed.

Lemma extract_entry st root t rows :
  wf_doc st root → (t, rows) ∈ (extract st root).1 → rows = rows_of (extract st root).1 t.
Proof.
  intros Hwf Hin.
  destruct (extract_flatten st root Hwf) as (acc & _ & _ & _ & _ & Hkeys & _).
  unfold rows_of. by rewrite (elem_of_aget _ _ _ Hkeys Hin).
Qed.

(** ** Rows of children *)

Lemma restrict_fold_lookup (src acc : dict) (ks : list string) (k : string) :
  aget (fold_left (λ acc k, match aget src k with Some v => aset acc k v | None => acc end)
          ks acc) k
  = if decide (k ∈ ks)
    then match aget src k with Some v => Some v | None => aget acc k end
    else aget acc k.
Proof.
  revert acc. induction ks as [|k0 ks IH]; intros acc; cbn [fold_left].
  - case_decide as Hk; [by apply elem_of_nil in Hk | done].
  - rewrite IH. destruct (decide (k = k0)) as [->|Hne].
    + rewrite (decide_True (P := k0 ∈ k0 :: ks)) by (by left).
      destruct (aget src k0) as [v|] eqn:Hsrc.
      * by case_decide; [|rewrite aget_aset_eq].
      * by case_decide.
    + assert (aget (match aget src k0 with Some v => aset acc k0 v | None => acc end) k
              = aget acc k) as ->.
      { destruct (aget src k0); [by rewrite aget_aset_ne|done]. }
      destruct (decide (k ∈ ks)) as [Hin|Hnotin].
      * rewrite decide_True; [done | by right].
      * rewrite decide_False; [done|]. by intros [?|?]%elem_of_cons.
Qed.

Lemma restrict_lookup (src : dict) (ks : list string) (k : string) :
  aget (restrict src ks) k = if decide (k ∈ ks) then aget src k else None.
Proof.
  unfold restrict. rewrite restrict_fold_lookup. simpl.
  case_decide; [by destruct (aget src k) | done].
Qed.

Lemma restrict_NoDup (src : dict) (ks : list string) : NoDup (akeys (restrict src ks)).
Proof.
  unfold restrict. assert (NoDup (akeys ([] : dict))) as Hnil by constructor.
  revert Hnil. generalize ([] : dict). induction ks as [|k ks IH]; intros acc Hacc; simpl; [done|].
  apply IH. destruct (aget src k); [by apply NoDup_akeys_aset | done].
Qed.

(** A child's row: the parent's value for a cardinal attribute the parent
    has, the child's own value otherwise. *)
Lemma child_row_lookup (chattrib msgD : dict) (k : string) :
  aget (child_row chattrib msgD) k
  = match (if decide (k ∈ atL) then aget msgD k else None) with
    | Some v => Some v
    | None => aget chattrib k
    end.
Proof.
  unfold child_row. rewrite aget_aupdate by apply restrict_NoDup.
  rewrite !restrict_lookup.
  destruct (decide (k ∈ atL)); [destruct (aget msgD k)|]; try done;
    case_decide as Hk; try done; by apply aget_None in Hk.
Qed.

Lemma child_row_no_parent (chattrib : dict) (k : string) :
  aget (child_row chattrib []) k = aget chattrib k.
Proof. rewrite child_row_lookup. by case_decide. Qed.

(** ** The row loop of [__buildCif] *)

Lemma enumerate_fmap_snd {A : Type} (n : Z) (l : list A) : (enumerate n l).*2 = l.
Proof. revert n. induction l as [|x l IH]; intros n; simpl; [done | by rewrite IH]. Qed.

Lemma enumerate_lookup {A : Type} (n : Z) (l : list A) (i : nat) (x : A) :
  l !! i = Some x → enumerate n l !! i = Some (n + Z.of_nat i, x).
Proof.
  revert n i. induction l as [|y l IH]; intros n i Hi; [done|].
  destruct i as [|i]; simpl in *.
  - simplify_eq. do 2 f_equal. lia.
  - rewrite (IH (n + 1) i Hi). do 2 f_equal. lia.
Qed.

Lemma set_update_elem_of (atS ks : list string) (k : string) :
  k ∈ set_update atS ks ↔ k ∈ atS ∨ k ∈ ks.
Proof.
  unfold set_update. revert atS. induction ks as [|k0 ks IH]; intros atS; simpl.
  - rewrite elem_of_nil. tauto.
  - rewrite IH, elem_of_cons. case_decide as Hk0.
    + split; [tauto|]. intros [?|[->|?]]; tauto.
    + rewrite elem_of_app, list_elem_of_singleton. tauto.
Qed.

Lemma set_update_NoDup (atS ks : list string) : NoDup atS → NoDup (set_update atS ks).
Proof.
  unfold set_update. revert atS. induction ks as [|k0 ks IH]; intros atS Hnd; simpl; [done|].
  apply IH. case_decide as Hk0; [done|].
  apply NoDup_app. split_and!; [done| |apply NoDup_singleton].
  by intros x Hx ->%list_elem_of_singleton.
Qed.

Lemma normalize_row_keys (h : bool) (ii : Z) (rowD : dict) (k : string) :
  k ∈ akeys (normalize_row h ii rowD) ↔ k ∈ akeys rowD ∨ (h = true ∧ k = "ordinal").
Proof.
  unfold normalize_row.
  set (r1 := if h then aset rowD "ordinal" (VInt ii) else rowD).
  set (r2 := match aget r1 "icode" with
             | Some v => aset r1 "icode" (VStr (strip (py_str v)))
             | None => r1
             end).
  assert (k ∈ akeys r1 ↔ k ∈ akeys rowD ∨ (h = true ∧ k = "ordinal")) as H1.
  { subst r1. destruct h; [rewrite akeys_aset|].
    - split; [intros [->|?]; auto | intros [?|[_ ->]]; auto].
    - split; [auto | intros [?|[? _]]; [done | discriminate]]. }
  assert (k ∈ akeys r2 ↔ k ∈ akeys r1) as H2.
  { subst r2. destruct (aget r1 "icode") eqn:Hi; [|done].
    rewrite akeys_aset_present; [done|]. apply aget_is_Some. eauto. }
  rewrite <-H1, <-H2.
  destruct (aget r2 "altcode") eqn:Ha; [|done].
  rewrite akeys_aset_present; [done|]. apply aget_is_Some. eauto.
Qed.

Lemma normalize_row_ordinal (ii : Z) (rowD : dict) :
  aget (normalize_row true ii rowD) "ordinal" = Some (VInt ii).
Proof.
  unfold normalize_row.
  set (r1 := aset rowD "ordinal" (VInt ii)).
  set (r2 := match aget r1 "icode" with
             | Some v => aset r1 "icode" (VStr (strip (py_str v)))
             | None => r1
             end).
  assert (aget r1 "ordinal" = Some (VInt ii)) as H1 by apply aget_aset_eq.
  assert (aget r2 "ordinal" = Some (VInt ii)) as H2.
  { subst r2. destruct (aget r1 "icode"); [by rewrite aget_aset_ne|done]. }
  destruct (aget r2 "altcode"); [by rewrite aget_aset_ne|done].
Qed.

Lemma deref_insert_eq (st : store) (l : loc) (d : dict) :
  (l < length st)%nat → deref (<[l := d]> st) l = d.
Proof. intros Hl. unfold deref. by rewrite list_lookup_insert_eq. Qed.

Lemma deref_insert_ne (st : store) (l l' : loc) (d : dict) :
  l ≠ l' → deref (<[l := d]> st) l' = deref st l'.
Proof. intros Hl. unfold deref. by rewrite list_lookup_insert_ne. Qed.

Lemma row_step_keys_mono h s x l k :
  k ∈ akeys (deref s.1 l) → k ∈ akeys (deref (row_step h s x).1 l).
Proof.
  intros Hk. unfold row_step. simpl.
  destruct (decide (x.2 = l)) as [<-|Hne]; [|by rewrite deref_insert_ne].
  destruct (decide (x.2 < length s.1)%nat) as [Hlt|Hge].
  - rewrite deref_insert_eq by done. apply normalize_row_keys. by left.
  - rewrite list_insert_ge by lia. done.
Qed.

Section RowLoop.
Variable h : bool.
Implicit Types (xs : list (Z * loc)) (s : store * list string).

Lemma row_loop_length xs s :
  length (fold_left (row_step h) xs s).1 = length s.1.
Proof.
  revert s. induction xs as [|x xs IH]; intros s; simpl; [done|].
  rewrite IH. unfold row_step. simpl. apply length_insert.
Qed.

(** A dictionary that is not a row of the loop is not touched. *)
Lemma row_loop_other xs s l :
  l ∉ xs.*2 → (fold_left (row_step h) xs s).1 !! l = s.1 !! l.
Proof.
  revert s. induction xs as [|x xs IH]; intros s Hl; simpl; [done|].
  rewrite fmap_cons in Hl. apply not_elem_of_cons in Hl as [Hne Hl].
  rewrite IH by done. unfold row_step. simpl. by rewrite list_lookup_insert_ne.
Qed.

(** A row that occurs once holds its normalized content after the loop. *)
Lemma row_loop_row xs s ii l :
  NoDup xs.*2 → (ii, l) ∈ xs → (l < length s.1)%nat →
  deref (fold_left (row_step h) xs s).1 l = normalize_row h ii (deref s.1 l).
Proof.
  revert s. induction xs as [|x xs IH]; intros s Hnd Hin Hl; simpl.
  - by apply elem_of_nil in Hin.
  - rewrite fmap_cons in Hnd. apply NoDup_cons in Hnd as [Hnotin Hnd].
    apply elem_of_cons in Hin as [<-|Hin].
    + unfold deref at 1. rewrite row_loop_other by done.
      unfold row_step. simpl. by rewrite list_lookup_insert_eq.
    + assert (x.2 ≠ l) as Hne.
      { intros <-. apply Hnotin. apply list_elem_of_fmap. by exists (ii, x.2). }
      rewrite IH; [|done|done|].
      * unfold row_step. simpl. by rewrite deref_insert_ne.
      * unfold row_step. simpl. by rewrite length_insert.
Qed.

Lemma row_loop_keys_mono xs s l k :
  k ∈ akeys (deref s.1 l) → k ∈ akeys (deref (fold_left (row_step h) xs s).1 l).
Proof.
  revert s. induction xs as [|x xs IH]; intros s Hk; simpl; [done|].
  by apply IH, row_step_keys_mono.
Qed.

Lemma row_loop_atS_keep xs s k : k ∈ s.2 → k ∈ (fold_left (row_step h) xs s).2.
Proof.
  revert s. induction xs as [|x xs IH]; intros s Hk; simpl; [done|].
  apply IH. unfold row_step. simpl. apply set_update_elem_of. by left.
Qed.

(** Every key of every row is collected. *)
Lemma row_loop_atS_sub xs s x k :
  x ∈ xs → k ∈ akeys (deref s.1 x.2) → k ∈ (fold_left (row_step h) xs s).2.
Proof.
  revert s. induction xs as [|y xs IH]; intros s Hin Hk; simpl.
  - by apply elem_of_nil in Hin.
  - apply elem_of_cons in Hin as [<-|Hin].
    + apply row_loop_atS_keep. unfold row_step. simpl.
      apply set_update_elem_of. right. apply normalize_row_keys. by left.
    + apply IH; [done|]. by apply row_step_keys_mono.
Qed.

Lemma row_loop_atS_NoDup xs s : NoDup s.2 → NoDup (fold_left (row_step h) xs s).2.
Proof.
  revert s. induction xs as [|x xs IH]; intros s Hnd; simpl; [done|].
  apply IH. unfold row_step. simpl. by apply set_update_NoDup.
Qed.

(** The set collected is the union of the key sets of the rows. *)
Lemma row_loop_atS xs s k :
  NoDup xs.*2 → Forall (λ x, (x.2 < length s.1)%nat) xs →
  k ∈ (fold_left (row_step h) xs s).2
  ↔ k ∈ s.2 ∨ ∃ x, x ∈ xs ∧ k ∈ akeys (deref (fold_left (row_step h) xs s).1 x.2).
Proof.
  revert s. induction xs as [|x xs IH]; intros s Hnd Hval; simpl.
  - split; [by left|]. intros [?|(x & ?%elem_of_nil & _)]; done.
  - rewrite fmap_cons in Hnd. apply NoDup_cons in Hnd as [Hnotin Hnd].
    apply Forall_cons in Hval as [Hx Hval].
    assert (deref (fold_left (row_step h) xs (row_step h s x)).1 x.2
            = normalize_row h x.1 (deref s.1 x.2)) as Hrow.
    { unfold deref at 1. rewrite row_loop_other by done.
      unfold row_step. simpl. by rewrite list_lookup_insert_eq. }
    rewrite IH; [|done|].
    + unfold row_step at 1. simpl. rewrite set_update_elem_of. split.
      * intros [[?|Hk]|(y & Hy & Hk)]; [by left| |].
        -- right. exists x. split; [by left|]. by rewrite Hrow.
        -- right. exists y. split; [by right|done].
      * intros [?|(y & [->|Hy]%elem_of_cons & Hk)]; [by left; left| |].
        -- left; right. by rewrite <-Hrow.
        -- right. eauto.
    + eapply Forall_impl; [exact Hval|]. intros y Hy. unfold row_step. simpl.
      by rewrite length_insert.
Qed.
End RowLoop.

Lemma row_loop_atS_ordinal xs s :
  xs ≠ [] → "ordinal" ∈ (fold_left (row_step true) xs s).2.
Proof.
  destruct xs as [|x xs]; [done|]. intros _. simpl.
  apply row_loop_atS_keep. unfold row_step. simpl.
  apply set_update_elem_of. right. apply normalize_row_keys. by right.
Qed.

(** ** Ordering the columns *)

Lemma insert_item_perm x l : insert_item x l ≡ₚ x :: l.
Proof.
  induction l as [|y l IH]; simpl; [done|].
  destruct (x.2 <=? y.2); [done|]. rewrite IH. apply Permutation_swap.
Qed.

Lemma sorted_items_perm sD : sorted_items sD ≡ₚ sD.
Proof.
  unfold sorted_items. induction sD as [|x sD IH]; simpl; [done|].
  by rewrite insert_item_perm, IH.
Qed.

Lemma insert_item_sorted x l :
  StronglySorted rank_le l → StronglySorted rank_le (insert_item x l).
Proof.
  induction 1 as [|y l Hl IH Hy]; simpl.
  - repeat constructor.
  - destruct (x.2 <=? y.2) eqn:Hxy.
    + apply Z.leb_le in Hxy. constructor; [by constructor|].
      constructor; [done|]. eapply Forall_impl; [exact Hy|].
      unfold rank_le. intros z Hz. lia.
    + apply Z.leb_gt in Hxy. constructor; [done|].
      rewrite insert_item_perm. constructor; [|done]. unfold rank_le. lia.
Qed.

Lemma sorted_items_sorted sD : StronglySorted rank_le (sorted_items sD).
Proof.
  unfold sorted_items. induction sD as [|x sD IH]; simpl; [constructor|].
  by apply insert_item_sorted.
Qed.

Lemma StronglySorted_lookup_lt {A : Type} (R : relation A) (l : list A) i j x y :
  StronglySorted R l → l !! i = Some x → l !! j = Some y → (i < j)%nat → R x y.
Proof.
  intros Hs. revert i j. induction Hs as [|z l Hl IH Hz]; intros i j Hi Hj Hlt; [done|].
  destruct i as [|i], j as [|j]; simpl in *; try lia.
  - simplify_eq. rewrite Forall_forall in Hz. apply Hz. by eapply list_elem_of_lookup_2.
  - eapply IH; [done..|lia].
Qed.

Section Ranks.
Variable self : reader.

Local Abbreviation rank_step :=
  (λ (sD : list (string * Z)) (ky : string), r ← getitem (atOrdD self) ky; Ok (aset sD ky r)).

Lemma rank_fold_lookup l : ∀ acc sD k,
  foldM rank_step l acc = Ok sD →
  aget sD k = if decide (k ∈ l) then aget (atOrdD self) k else aget acc k.
Proof.
  induction l as [|k0 l IH]; intros acc sD k Hfold; simpl in Hfold.
  - simplify_eq. case_decide as Hk; [by apply elem_of_nil in Hk | done].
  - apply bind_Ok in Hfold as (acc' & Hstep & Hfold).
    unfold getitem in Hstep. destruct (aget (atOrdD self) k0) as [r|] eqn:Hr; [|done].
    simpl in Hstep. simplify_eq.
    rewrite (IH _ _ k Hfold). destruct (decide (k ∈ l)) as [Hin|Hnotin].
    + rewrite decide_True; [done | by right].
    + rewrite aget_aset. destruct (decide (k0 = k)) as [->|Hne].
      * rewrite decide_True; [done | by left].
      * rewrite decide_False; [done|]. intros [?|?]%elem_of_cons; by simplify_eq.
Qed.

Lemma rank_fold_ranked l : ∀ acc sD k,
  foldM rank_step l acc = Ok sD → k ∈ l → is_Some (aget (atOrdD self) k).
Proof.
  induction l as [|k0 l IH]; intros acc sD k Hfold Hin; simpl in Hfold.
  - by apply elem_of_nil in Hin.
  - apply bind_Ok in Hfold as (acc' & Hstep & Hfold).
    unfold getitem in Hstep. destruct (aget (atOrdD self) k0) as [r|] eqn:Hr; [|done].
    apply elem_of_cons in Hin as [->|Hin]; [by rewrite Hr | eauto].
Qed.

Lemma rank_fold_NoDup l : ∀ acc sD,
  foldM rank_step l acc = Ok sD → NoDup (akeys acc) → NoDup (akeys sD).
Proof.
  induction l as [|k0 l IH]; intros acc sD Hfold Hnd; simpl in Hfold.
  - by simplify_eq.
  - apply bind_Ok in Hfold as (acc' & Hstep & Hfold).
    apply bind_Ok in Hstep as (r & _ & Hacc). simpl in Hacc. simplify_eq.
    eapply IH; [done|]. by apply NoDup_akeys_aset.
Qed.

(** A column without a rank makes the ranking raise [KeyError]. *)
Lemma rank_fold_unranked l : ∀ acc k,
  k ∈ l → aget (atOrdD self) k = None →
  ∃ k', foldM rank_step l acc = Raise (KeyError k').
Proof.
  induction l as [|k0 l IH]; intros acc k Hin Hk; simpl.
  - by apply elem_of_nil in Hin.
  - unfold getitem. destruct (aget (atOrdD self) k0) as [r|] eqn:Hr; simpl; [|eauto].
    apply elem_of_cons in Hin as [->|Hin]; [congruence | eauto].
Qed.

Lemma rank_fold_error l : ∀ acc e,
  foldM rank_step l acc = Raise e → ∃ k, e = KeyError k.
Proof.
  induction l as [|k0 l IH]; intros acc e; simpl; [done|].
  unfold getitem. destruct (aget (atOrdD self) k0) as [r|] eqn:Hr; simpl.
  - apply IH.
  - intros. simplify_eq. eauto.
Qed.

(** The sorted column list of a category. *)
Lemma rank_dict_columns l sD :
  rank_dict self l = Ok sD →
  let srtAtL := map fst (sorted_items sD) in
  NoDup srtAtL ∧
  (∀ c, c ∈ srtAtL ↔ c ∈ l) ∧
  (∀ c, c ∈ srtAtL → is_Some (aget (atOrdD self) c)) ∧
  (∀ i j c1 c2 r1 r2,
     srtAtL !! i = Some c1 → srtAtL !! j = Some c2 →
     aget (atOrdD self) c1 = Some r1 → aget (atOrdD self) c2 = Some r2 →
     r1 < r2 → (i < j)%nat).
Proof.
  intros Hfold. unfold rank_dict in Hfold. simpl.
  pose proof (rank_fold_NoDup _ _ _ Hfold (NoDup_nil_2)) as Hnd.
  assert (∀ c, c ∈ akeys sD ↔ c ∈ l) as Hkeys.
  { intros c. rewrite <-aget_is_Some, (rank_fold_lookup _ _ _ c Hfold).
    case_decide as Hc; simpl.
    - split; [done|]. intros _. by eapply rank_fold_ranked.
    - split; [by intros [? ?] | done]. }
  assert (map fst (sorted_items sD) ≡ₚ akeys sD) as Hperm.
  { unfold akeys. rewrite !list_map_fmap. by rewrite sorted_items_perm. }
  assert (∀ i c r, map fst (sorted_items sD) !! i = Some c →
                   aget (atOrdD self) c = Some r → sorted_items sD !! i = Some (c, r)) as Hpos.
  { intros i c r Hi Hr. rewrite list_map_fmap, list_lookup_fmap in Hi.
    destruct (sorted_items sD !! i) as [[c' r']|] eqn:Hsi; simpl in Hi; [|done].
    simplify_eq. do 2 f_equal.
    assert ((c, r') ∈ sD) as Hin.
    { rewrite <-sorted_items_perm. by eapply list_elem_of_lookup_2. }
    apply (elem_of_aget _ _ _ Hnd) in Hin.
    rewrite (rank_fold_lookup _ _ _ c Hfold) in Hin.
    case_decide; simpl in Hin; congruence. }
  split_and!.
  - by rewrite Hperm.
  - intros c. by rewrite Hperm.
  - intros c Hc. rewrite Hperm, Hkeys in Hc. by eapply rank_fold_ranked.
  - intros i j c1 c2 r1 r2 Hi Hj Hr1 Hr2 Hlt.
    pose proof (Hpos _ _ _ Hi Hr1) as Hi'. pose proof (Hpos _ _ _ Hj Hr2) as Hj'.
    destruct (decide (i < j)%nat) as [|Hge]; [done|]. exfalso.
    destruct (decide (i = j)) as [->|Hne]; [simplify_eq; lia|].
    assert (rank_le (c2, r2) (c1, r1)) as Hle.
    { eapply (StronglySorted_lookup_lt rank_le); [apply sorted_items_sorted|done|done|lia]. }
    unfold rank_le in Hle. simpl in Hle. lia.
Qed.
End Ranks.

(** ** The first loop of [__buildCif] *)

Lemma length_lt_1 {A : Type} (l : list A) : (length l <? 1)%nat = true ↔ l = [].
Proof. destruct l; simpl; [done|]. split; [|done]. intros H. apply Nat.ltb_lt in H. lia. Qed.

Lemma length_lt_1_false {A : Type} (l : list A) : (length l <? 1)%nat = false ↔ l ≠ [].
Proof. rewrite <-length_lt_1. by destruct (length l <? 1)%nat. Qed.

Lemma bool_decide_programs (k : string) :
  bool_decide (k ∈ ["programs"]) = bool_decide (k = "programs").
Proof. apply bool_decide_ext. apply list_elem_of_singleton. Qed.

Section Build.
Variable set_iter : list string → list string.
Variable self : reader.

(** What a step of the loop that does not raise has done. *)
Lemma build_category_Ok s entry s' :
  build_category set_iter self s entry = Ok s' →
  (s' = s ∧ skips self entry.1 entry.2) ∨
  (∃ aCat, emits set_iter self s.1 entry.1 entry.2 s'.1 aCat ∧ s'.2 = append s.2 aCat).
Proof.
  unfold build_category. destruct entry as [key rows]. simpl.
  destruct (length rows <? 1)%nat eqn:Hrows.
  { intros. simplify_eq. left. split; [done|]. left. by apply length_lt_1. }
  apply length_lt_1_false in Hrows.
  unfold getitem. destruct (aget (attribD self) key) as [registered|] eqn:Hreg; [|done].
  simpl. destruct (length registered <? 1)%nat eqn:Hlen.
  { intros. simplify_eq. left. split; [done|]. right. exists registered.
    split; [done|]. left. by apply length_lt_1. }
  apply length_lt_1_false in Hlen.
  rewrite bool_decide_programs. case_bool_decide as Hprog.
  { intros. simplify_eq. left. split; [done|]. right. exists registered. auto. }
  simpl. intros Hrest. apply bind_Ok in Hrest as (sD & HsD & Hs').
  simplify_eq. right. eexists. split; [|done].
  exists registered, sD. simpl. split_and!; done.
Qed.

(** A tag that is not registered makes the step raise. *)
Lemma build_category_unregistered s key rows :
  rows ≠ [] → aget (attribD self) key = None →
  build_category set_iter self s (key, rows) = Raise (KeyError key).
Proof.
  intros Hrows Hreg. unfold build_category. simpl.
  apply length_lt_1_false in Hrows. rewrite Hrows.
  unfold getitem. by rewrite Hreg.
Qed.

(** The loop raises nothing but [KeyError]. *)
Lemma build_category_Raise s entry e :
  build_category set_iter self s entry = Raise e → ∃ k, e = KeyError k.
Proof.
  unfold build_category. destruct entry as [key rows]. simpl.
  destruct (length rows <? 1)%nat; [done|].
  unfold getitem. destruct (aget (attribD self) key) as [registered|] eqn:Hreg; simpl.
  - destruct (length registered <? 1)%nat; [done|].
    destruct (bool_decide (key ∈ ["programs"])); [done|]. simpl.
    destruct (rank_dict self _) as [sD|e'] eqn:HsD; simpl; [done|].
    intros. simplify_eq. by eapply rank_fold_error.
  - intros. simplify_eq. eauto.
Qed.

Lemma emits_cname st key rows st' aCat :
  emits set_iter self st key rows st' aCat → cname aCat = key.
Proof. intros (registered & sD & _ & _ & _ & _ & _ & _ & ->). done. Qed.

Lemma emits_length st key rows st' aCat :
  emits set_iter self st key rows st' aCat → length st' = length st.
Proof.
  intros (registered & sD & _ & _ & _ & _ & -> & _). by rewrite row_loop_length.
Qed.

Lemma emits_other st key rows st' aCat l :
  emits set_iter self st key rows st' aCat → l ∉ rows → st' !! l = st !! l.
Proof.
  intros (registered & sD & _ & _ & _ & _ & -> & _) Hl.
  rewrite row_loop_other; [done|]. by rewrite enumerate_fmap_snd.
Qed.

Lemma emits_keys_mono st key rows st' aCat l k :
  emits set_iter self st key rows st' aCat →
  k ∈ akeys (deref st l) → k ∈ akeys (deref st' l).
Proof.
  intros (registered & sD & _ & _ & _ & _ & -> & _) Hk.
  by apply row_loop_keys_mono.
Qed.

Lemma build_categories_length rD s s' :
  foldM (build_category set_iter self) rD s = Ok s' → length s'.1 = length s.1.
Proof.
  apply (foldM_invariant (λ a, length a.1 = length s.1)); [|done].
  intros a x a' _ Ha [[-> _]|(aCat & Hem & _)]%build_category_Ok; [done|].
  rewrite <-Ha. by eapply emits_length.
Qed.

(** Every category of the container after the loop was built by a step of
    the loop, from an entry of the row table. *)
Lemma build_categories_getObj rD : ∀ s s' key aCat,
  foldM (build_category set_iter self) rD s = Ok s' →
  getObj s'.2 key = Some aCat →
  getObj s.2 key = Some aCat ∨
  ∃ rD1 rows rD2 sa sb,
    rD = rD1 ++ (key, rows) :: rD2 ∧
    foldM (build_category set_iter self) rD1 s = Ok sa ∧
    emits set_iter self sa.1 key rows sb aCat ∧
    foldM (build_category set_iter self) rD2 (sb, append sa.2 aCat) = Ok s'.
Proof.
  induction rD as [|entry rD IH]; intros s s' key aCat Hfold Hget; simpl in Hfold.
  - simplify_eq. by left.
  - apply bind_Ok in Hfold as (s1 & Hstep & Hfold).
    destruct (IH _ _ _ _ Hfold Hget)
      as [Hget1|(rD1 & rows & rD2 & sa & sb & -> & Hpre & Hem & Hpost)].
    + pose proof Hstep as Hstep'.
      apply build_category_Ok in Hstep' as [[-> _]|(aCat0 & Hem & Hs1)]; [by left|].
      rewrite Hs1 in Hget1. unfold getObj, append in Hget1. simpl in Hget1.
      rewrite aget_aset in Hget1. rewrite (emits_cname _ _ _ _ _ Hem) in Hget1.
      case_decide as Hkey; [|by left].
      simplify_eq. right. exists [], entry.2, rD, s, s1.1. split_and!.
      * by destruct entry.
      * done.
      * done.
      * rewrite <-Hs1. by destruct s1.
    + right. exists (entry :: rD1), rows, rD2, sa, sb. split_and!; [done| |done|done].
      simpl. by rewrite Hstep.
Qed.

(** The catalogue has one entry for a name. *)
Lemma build_categories_NoDup rD s s' :
  foldM (build_category set_iter self) rD s = Ok s' →
  NoDup (getObjNameList s.2) → NoDup (getObjNameList s'.2).
Proof.
  intros Hfold Hnd. revert Hnd Hfold.
  apply (foldM_invariant (λ s, NoDup (getObjNameList s.2))).
  intros a x a' _ Ha [[-> _]|(aCat & _ & Ha')]%build_category_Ok; [done|].
  rewrite Ha'. unfold getObjNameList, append. simpl. by apply NoDup_akeys_aset.
Qed.

(** The loop changes only dictionaries that are rows. *)
Lemma build_categories_other rD s s' l :
  foldM (build_category set_iter self) rD s = Ok s' →
  (∀ t rows, (t, rows) ∈ rD → l ∉ rows) →
  s'.1 !! l = s.1 !! l.
Proof.
  intros Hfold Hl. revert Hfold.
  apply (foldM_invariant (λ a, a.1 !! l = s.1 !! l)); [|done].
  intros a [t rows] a' Hin Ha [[-> _]|(aCat & Hem & _)]%build_category_Ok; [done|].
  rewrite <-Ha. eapply emits_other; [done|]. by eapply Hl.
Qed.

Hypothesis set_iter_perm : ∀ l, set_iter l ≡ₚ l.

Lemma index_of_elem_of (a : string) (l : list string) :
  a ∈ l → ∃ i, index_of a l = Some i ∧ l !! i = Some a.
Proof.
  induction l as [|b l IH]; simpl; [by intros ?%elem_of_nil|].
  intros Hin. case_decide as Hab; [subst; by exists 0%nat|].
  apply elem_of_cons in Hin as [?|Hin]; [done|].
  destruct (IH Hin) as (i & -> & Hi). by exists (S i).
Qed.

(** Reading a cell of a new category. *)
Lemma getValue_DataCategory name attrs (rowDs : list dict) i rowD a :
  rowDs !! i = Some rowD → a ∈ attrs →
  getValue (DataCategory name attrs rowDs) a i = Ok (aget rowD a).
Proof.
  intros Hi Ha. apply index_of_elem_of in Ha as (ind & Hind & Hat).
  unfold getValue, DataCategory. cbn [data attributeNameList].
  rewrite Hind, !list_map_fmap, list_lookup_fmap, Hi. cbn [fmap option_fmap option_map].
  by rewrite list_map_fmap, list_lookup_fmap, Hat.
Qed.

(** The columns of a category that is built: the keys of its rows, each
    once, every one ranked, in the order of the ranks. *)
Lemma emits_columns st key rows st' aCat :
  emits set_iter self st key rows st' aCat →
  NoDup (attributeNameList aCat) ∧
  (∀ c, c ∈ attributeNameList aCat → is_Some (aget (atOrdD self) c)) ∧
  (∀ l c, l ∈ rows → c ∈ akeys (deref st l) → c ∈ attributeNameList aCat) ∧
  (∀ i j c1 c2 r1 r2,
     attributeNameList aCat !! i = Some c1 → attributeNameList aCat !! j = Some c2 →
     aget (atOrdD self) c1 = Some r1 → aget (atOrdD self) c2 = Some r2 →
     r1 < r2 → (i < j)%nat).
Proof.
  intros (registered & sD & Hreg & _ & Hrows & _ & Hs1 & HsD & ->). simpl in *.
  destruct (rank_dict_columns self _ _ HsD) as (Hnd & Hmem & Hranked & Hord).
  split_and!; [done|done| |done].
  intros l c Hl Hc. apply Hmem. rewrite set_iter_perm.
  apply list_elem_of_lookup in Hl as [i Hi].
  eapply (row_loop_atS_sub _ _ _ (1 + Z.of_nat i, l)); [|done].
  eapply list_elem_of_lookup_2. by apply enumerate_lookup.
Qed.

(** The columns are the keys of the rows as the loop leaves them. *)
Lemma emits_columns_rows st key rows st' aCat :
  emits set_iter self st key rows st' aCat →
  NoDup rows → Forall (λ l, (l < length st)%nat) rows →
  ∀ c, c ∈ attributeNameList aCat ↔ ∃ l, l ∈ rows ∧ c ∈ akeys (deref st' l).
Proof.
  intros (registered & sD & Hreg & _ & Hrows & _ & -> & HsD & ->) Hnd Hval c. simpl.
  destruct (rank_dict_columns self _ _ HsD) as (_ & Hmem & _).
  rewrite Hmem, set_iter_perm, row_loop_atS.
  - split.
    + intros [?%elem_of_nil|(x & Hx & Hc)]; [done|]. exists x.2. split; [|done].
      rewrite <-(enumerate_fmap_snd 1 rows). apply list_elem_of_fmap. eauto.
    + intros (l & Hl & Hc). right.
      apply list_elem_of_lookup in Hl as [i Hi].
      exists (1 + Z.of_nat i, l). split; [|done].
      eapply list_elem_of_lookup_2. by apply enumerate_lookup.
  - by rewrite enumerate_fmap_snd.
  - apply Forall_forall. intros x Hx. simpl.
    rewrite Forall_forall in Hval. apply Hval.
    rewrite <-(enumerate_fmap_snd 1 rows). apply list_elem_of_fmap. eauto.
Qed.

(** The rows of a category that is built, as the loop leaves them. *)
Lemma emits_rows st key rows st' aCat registered i l :
  emits set_iter self st key rows st' aCat →
  aget (attribD self) key = Some registered →
  NoDup rows → Forall (λ l, (l < length st)%nat) rows →
  rows !! i = Some l →
  deref st' l
  = normalize_row (bool_decide ("ordinal" ∈ registered)) (Z.of_nat i + 1) (deref st l).
Proof.
  intros (registered' & sD & Hreg & _ & _ & _ & -> & _) Hreg' Hnd Hval Hi.
  simplify_eq. rewrite (row_loop_row _ _ _ (1 + Z.of_nat i) l).
  - f_equal. lia.
  - by rewrite enumerate_fmap_snd.
  - eapply list_elem_of_lookup_2. by apply enumerate_lookup.
  - simpl. rewrite Forall_forall in Hval. apply Hval. by eapply list_elem_of_lookup_2.
Qed.

(** The ordinal column of a category that is built. *)
Lemma emits_ordinal st key rows st' aCat registered :
  emits set_iter self st key rows st' aCat →
  aget (attribD self) key = Some registered → "ordinal" ∈ registered →
  NoDup rows → Forall (λ l, (l < length st)%nat) rows →
  getRowCount aCat = length rows ∧
  ∀ i, (i < length rows)%nat →
       getValue aCat "ordinal" i = Ok (Some (VInt (Z.of_nat i + 1))).
Proof.
  intros (registered' & sD & Hreg & _ & Hrows & _ & Hs1 & HsD & ->) Hreg' Hord Hnd Hval.
  simplify_eq. rewrite bool_decide_eq_true_2 in HsD |- * by done.
  split; [unfold getRowCount; simpl; by rewrite !length_map|].
  intros i Hi. destruct (lookup_lt_is_Some_2 rows i Hi) as [l Hl].
  destruct (rank_dict_columns self _ _ HsD) as (_ & Hmem & _).
  assert ("ordinal" ∈ map fst (sorted_items sD)) as Hcol.
  { apply Hmem. rewrite set_iter_perm. apply row_loop_atS_ordinal.
    destruct rows; [done|]. done. }
  rewrite (getValue_DataCategory _ _ _ _ (deref (fold_left (row_step true) (enumerate 1 rows) (st, [])).1 l));
    [|by rewrite list_map_fmap, list_lookup_fmap, Hl|done].
  do 2 f_equal.
  rewrite (row_loop_row _ _ _ (1 + Z.of_nat i) l).
  - rewrite normalize_row_ordinal. do 2 f_equal. lia.
  - by rewrite enumerate_fmap_snd.
  - eapply list_elem_of_lookup_2. by apply enumerate_lookup.
  - simpl. rewrite Forall_forall in Hval. apply Hval. by eapply list_elem_of_lookup_2.
Qed.

(** A category with a column that has no rank is not built: the step
    raises [KeyError]. *)
Lemma build_category_unranked s key rows registered l k :
  aget (attribD self) key = Some registered → registered ≠ [] → key ≠ "programs" →
  l ∈ rows →
  k ∈ akeys (deref s.1 l) ∨ ("ordinal" ∈ registered ∧ k = "ordinal") →
  aget (atOrdD self) k = None →
  ∃ k', build_category set_iter self s (key, rows) = Raise (KeyError k').
Proof.
  intros Hreg Hne Hprog Hl Hk Hrank. unfold build_category. simpl.
  assert (rows ≠ []) as Hrows by (intros ->; by apply elem_of_nil in Hl).
  apply length_lt_1_false in Hrows, Hne. rewrite Hrows.
  unfold getitem. rewrite Hreg. simpl. rewrite Hne.
  rewrite bool_decide_programs, bool_decide_eq_false_2 by done. simpl.
  match goal with |- context [rank_dict self ?cols] =>
    destruct (rank_fold_unranked self cols [] k) as [k' Hk']
  end; [|done|].
  - rewrite set_iter_perm. destruct Hk as [Hk|[Hord ->]].
    + apply list_elem_of_lookup in Hl as [i Hi].
      eapply (row_loop_atS_sub _ _ _ (1 + Z.of_nat i, l)); [|done].
      eapply list_elem_of_lookup_2. by apply enumerate_lookup.
    + rewrite bool_decide_eq_true_2 by done. apply row_loop_atS_ordinal.
      apply length_lt_1_false in Hrows. by destruct rows.
  - unfold rank_dict. rewrite Hk'. eauto.
Qed.

Lemma build_categories_unranked rD : ∀ s key rows registered l k,
  (key, rows) ∈ rD →
  aget (attribD self) key = Some registered → registered ≠ [] → key ≠ "programs" →
  l ∈ rows →
  k ∈ akeys (deref s.1 l) ∨ ("ordinal" ∈ registered ∧ k = "ordinal") →
  aget (atOrdD self) k = None →
  ∃ k', foldM (build_category set_iter self) rD s = Raise (KeyError k').
Proof.
  induction rD as [|entry rD IH]; intros s key rows registered l k Hin Hreg Hne Hprog Hl Hk Hrank.
  - by apply elem_of_nil in Hin.
  - simpl. destruct (build_category set_iter self s entry) as [s1|e] eqn:Hstep; simpl.
    + apply elem_of_cons in Hin as [<-|Hin].
      * destruct (build_category_unranked s key rows registered l k) as [k' Hk']; try done.
        congruence.
      * eapply IH; try done.
        destruct Hk as [Hk|?]; [left|by right].
        apply build_category_Ok in Hstep as [[-> _]|(aCat & Hem & _)]; [done|].
        by eapply emits_keys_mono.
    + apply build_category_Raise in Hstep as [k' ->]. eauto.
Qed.
End Build.

(** ** The second loop of [__buildCif] *)

Section Rename.
Variable self : reader.

Local Abbreviation mapD_step catName :=
  (λ (mapD : list (string * string)) (atName : string),
     v ← map_attribute self catName atName; Ok (aset mapD atName v)).

Lemma mapD_fold_lookup catName l : ∀ acc mapD a,
  foldM (mapD_step catName) l acc = Ok mapD →
  (a ∈ l → ∃ v, map_attribute self catName a = Ok v ∧ aget mapD a = Some v) ∧
  (a ∉ l → aget mapD a = aget acc a).
Proof.
  induction l as [|a0 l IH]; intros acc mapD a Hfold; simpl in Hfold.
  - simplify_eq. split; [by intros ?%elem_of_nil | done].
  - apply bind_Ok in Hfold as (acc' & Hstep & Hfold).
    apply bind_Ok in Hstep as (v0 & Hv0 & Hacc). simpl in Hacc. simplify_eq.
    destruct (IH _ _ a Hfold) as [IHin IHout].
    destruct (decide (a ∈ l)) as [Hin|Hnotin].
    + split; [auto|]. intros Hc. exfalso. apply Hc. by right.
    + split.
      * intros [->|?]%elem_of_cons; [|done].
        exists v0. split; [done|]. by rewrite IHout, aget_aset_eq.
      * intros Hc. apply not_elem_of_cons in Hc as [Hne _].
        rewrite IHout by done. by apply aget_aset_ne.
Qed.

Lemma rename_category_Ok cur k cur' :
  rename_category self cur k = Ok cur' →
  ∃ c c', getObj cur k = Some c ∧ renamed self k c c' ∧ cur' = putObj cur k c'.
Proof.
  unfold rename_category. destruct (getObj cur k) as [c|] eqn:Hc; [|done].
  intros Hren. apply bind_Ok in Hren as (mapD & HmapD & Hcur'). simplify_eq.
  eexists _, _. split_and!; [done| |done].
  split_and!; [done| |done]. simpl. rewrite list_map_fmap.
  apply Forall2_fmap_r, Forall_Forall2_diag, Forall_forall.
  intros a Ha. simpl.
  destruct (mapD_fold_lookup _ _ _ _ a HmapD) as [Hin _].
  destruct (Hin Ha) as (v & Hv & ->). done.
Qed.

Lemma getObjNameList_putObj cur k c :
  is_Some (getObj cur k) → getObjNameList (putObj cur k c) = getObjNameList cur.
Proof.
  intros Hk. unfold getObjNameList, putObj. simpl.
  apply akeys_aset_present. by apply aget_is_Some.
Qed.

Lemma rename_fold ks : ∀ cur cur',
  NoDup ks →
  foldM (rename_category self) ks cur = Ok cur' →
  getObjNameList cur' = getObjNameList cur ∧
  ∀ key,
    (key ∈ ks → ∃ c c', getObj cur key = Some c ∧ getObj cur' key = Some c' ∧
                        renamed self key c c') ∧
    (key ∉ ks → getObj cur' key = getObj cur key).
Proof.
  induction ks as [|k ks IH]; intros cur cur' Hnd Hfold; simpl in Hfold.
  - simplify_eq. split; [done|]. intros key. split; [by intros ?%elem_of_nil | done].
  - apply NoDup_cons in Hnd as [Hk Hnd].
    apply bind_Ok in Hfold as (cur1 & Hstep & Hfold).
    apply rename_category_Ok in Hstep as (c & c1 & Hc & Hren & ->).
    destruct (IH _ _ Hnd Hfold) as [Hkeys Hall]. split.
    + rewrite Hkeys. by apply getObjNameList_putObj.
    + intros key. destruct (Hall key) as [Hin Hout]. split.
      * intros [->|Hkey]%elem_of_cons.
        -- exists c, c1. split_and!; [done| |done].
           rewrite (proj2 (Hall k) Hk). unfold getObj, putObj. simpl. apply aget_aset_eq.
        -- destruct (Hin Hkey) as (c0 & c' & Hc0 & Hc' & Hren').
           exists c0, c'. split_and!; [|done|done].
           rewrite <-Hc0. unfold getObj, putObj. simpl. symmetry.
           apply aget_aset_ne. by intros ->.
      * intros Hkey. apply not_elem_of_cons in Hkey as [Hne Hkey].
        rewrite (Hout Hkey). unfold getObj, putObj. simpl. by apply aget_aset_ne.
Qed.

(** Every category is renamed, once. *)
Lemma rename_categories_spec cur cur' :
  NoDup (getObjNameList cur) →
  rename_categories self cur = Ok cur' →
  getObjNameList cur' = getObjNameList cur ∧
  (∀ key c, getObj cur key = Some c →
            ∃ c', getObj cur' key = Some c' ∧ renamed self key c c') ∧
  (∀ key c', getObj cur' key = Some c' →
             ∃ c, getObj cur key = Some c ∧ renamed self key c c').
Proof.
  intros Hnd Hfold. unfold rename_categories in Hfold.
  destruct (rename_fold _ _ _ Hnd Hfold) as [Hkeys Hall].
  split_and!; [done| |].
  - intros key c Hc.
    assert (key ∈ getObjNameList cur) as Hkey by (apply aget_is_Some; eauto).
    destruct (proj1 (Hall key) Hkey) as (c0 & c' & Hc0 & Hc' & Hren).
    unfold getObj in *. simplify_eq. eauto.
  - intros key c' Hc'.
    assert (key ∈ getObjNameList cur) as Hkey.
    { rewrite <-Hkeys. apply aget_is_Some. eauto. }
    destruct (proj1 (Hall key) Hkey) as (c0 & c'' & Hc0 & Hc'' & Hren).
    unfold getObj in *. simplify_eq. eauto.
Qed.
End Rename.

(** ** Documents and their row tables *)

Lemma elem_of_concat {A : Type} (x : A) (ls : list (list A)) :
  x ∈ concat ls ↔ ∃ l, l ∈ ls ∧ x ∈ l.
Proof.
  rewrite list_elem_of_In, in_concat. split.
  - intros (l & Hl & Hx). exists l. by rewrite !list_elem_of_In.
  - intros (l & Hl & Hx). exists l. by rewrite <-!list_elem_of_In.
Qed.

Lemma NoDup_fmap_elem_inj {A B : Type} (f : A → B) (l : list A) (x y : A) :
  NoDup (f <$> l) → x ∈ l → y ∈ l → f x = f y → x = y.
Proof.
  intros Hnd [i Hi]%list_elem_of_lookup [j Hj]%list_elem_of_lookup Hf.
  assert (i = j) as ->; [|congruence].
  eapply NoDup_lookup; [exact Hnd| |]; rewrite list_lookup_fmap.
  - by rewrite Hi.
  - rewrite Hj. simpl. by rewrite Hf.
Qed.

Lemma flatten_top root el :
  el ∈ children root → (tag el, Own (attrib el)) ∈ flatten root.
Proof.
  intros Hel. unfold flatten. apply elem_of_concat. exists (flat_el el). split.
  - rewrite list_map_fmap. apply list_elem_of_fmap. eauto.
  - unfold flat_el. by left.
Qed.

Lemma flatten_child root el ch :
  el ∈ children root → ch ∈ children el →
  (tag ch,
   Overlay (attrib ch)
     (if decide (tag el = "ModelledSubgroup") then Some (attrib el) else None))
  ∈ flatten root.
Proof.
  intros Hel Hch. unfold flatten. apply elem_of_concat. exists (flat_el el). split.
  - rewrite list_map_fmap. apply list_elem_of_fmap. eauto.
  - unfold flat_el. right. apply elem_of_concat. eexists. split.
    + rewrite list_map_fmap. apply list_elem_of_fmap. eauto.
    + unfold flat_ch. by left.
Qed.

Lemma flatten_grandchild root el ch gch :
  el ∈ children root → ch ∈ children el → gch ∈ children ch →
  (tag gch, Own (attrib gch)) ∈ flatten root.
Proof.
  intros Hel Hch Hgch. unfold flatten. apply elem_of_concat. exists (flat_el el). split.
  - rewrite list_map_fmap. apply list_elem_of_fmap. eauto.
  - unfold flat_el. right. apply elem_of_concat. eexists. split.
    + rewrite list_map_fmap. apply list_elem_of_fmap. eauto.
    + unfold flat_ch. right. rewrite list_map_fmap. apply list_elem_of_fmap. eauto.
Qed.

Lemma wf_doc_valid st root p :
  wf_doc st root → p ∈ flatten root → (src_loc p.2 < length st)%nat.
Proof. intros [_ Hval] Hp. rewrite Forall_forall in Hval. by apply Hval. Qed.

(** The row table of a parsed document is well formed. *)
Lemma extract_wf_rows st root :
  wf_doc st root → wf_rows (extract st root).2 (extract st root).1.
Proof.
  intros Hwf. split.
  - by destruct (extract_flatten st root Hwf) as (acc & _ & _ & _ & _ & Hkeys & _).
  - intros t rows Hin. rewrite (extract_entry _ _ _ _ Hwf Hin). split.
    + by apply extract_rows_NoDup.
    + apply Forall_forall. intros l Hl. by eapply extract_rows_valid.
Qed.

(** The dictionary of a child element is never a row. *)
Lemma child_attrib_not_row st root el ch t rows :
  wf_doc st root → el ∈ children root → ch ∈ children el →
  (t, rows) ∈ (extract st root).1 → attrib ch ∉ rows.
Proof.
  intros Hwf Hel Hch Hin Hrow.
  rewrite (extract_entry _ _ _ _ Hwf Hin) in Hrow.
  destruct (extract_origin_of_row _ _ _ _ Hwf Hrow) as (src & Hsrc & _ & _ & Hloc).
  pose proof (flatten_child _ _ _ Hel Hch) as Hfl.
  simpl in Hloc. destruct src as [l|c m].
  - subst l. destruct Hwf as [Hnd _]. rewrite list_map_fmap in Hnd.
    by pose proof (NoDup_fmap_elem_inj _ _ _ _ Hnd Hsrc Hfl eq_refl).
  - pose proof (wf_doc_valid _ _ _ Hwf Hfl). simpl in *. lia.
Qed.

(** ** Categories built from a parsed document *)

Section ReadBuild.
Variable set_iter : list string → list string.
Variable self : reader.

(** A category in the container after the first loop of a [read] was built
    from the rows collected under its key; the rest of the loop leaves
    these rows alone. *)
Lemma read_built_category st xrt st1 cur key aCat :
  wf_doc st xrt →
  build_categories set_iter self (extract st xrt).2 (extract st xrt).1 = Ok (st1, cur) →
  getObj cur key = Some aCat →
  let rows := rows_of (extract st xrt).1 key in
  ∃ sa sb,
    emits set_iter self sa key rows sb aCat ∧
    NoDup rows ∧ Forall (λ l, (l < length sa)%nat) rows ∧
    ∀ l, l ∈ rows → st1 !! l = sb !! l.
Proof.
  intros Hwf Hbuild Hget. unfold build_categories in Hbuild.
  destruct (build_categories_getObj _ _ _ _ _ _ _ Hbuild Hget)
    as [Hinit|(rD1 & rows & rD2 & sa & sb & HrD & Hpre & Hem & Hpost)]; [done|].
  destruct (extract_wf_rows _ _ Hwf) as [Hkeys Hrows].
  assert ((key, rows) ∈ (extract st xrt).1) as Hin.
  { rewrite HrD. apply elem_of_app. right. by left. }
  pose proof (extract_entry _ _ _ _ Hwf Hin) as Heq.
  destruct (Hrows _ _ Hin) as [Hnd Hval]. simpl. rewrite <-Heq.
  exists sa.1, sb. split_and!; [done|done| |].
  - apply build_categories_length in Hpre. simpl in Hpre. by rewrite Hpre.
  - intros l Hl.
    apply (build_categories_other _ _ _ _ _ l) in Hpost; [done|].
    intros t' rows' Hin' Hl'.
    assert ((t', rows') ∈ (extract st xrt).1) as Hin''.
    { rewrite HrD. apply elem_of_app. right. by right. }
    pose proof (extract_entry _ _ _ _ Hwf Hin'') as Heq'.
    assert (key = t') as <-.
    { eapply extract_rows_one_tag; [done| |]; [by rewrite <-Heq | by rewrite <-Heq']. }
    rewrite HrD in Hkeys. unfold akeys in Hkeys.
    rewrite map_app in Hkeys. simpl in Hkeys. rewrite !list_map_fmap in Hkeys.
    apply NoDup_app in Hkeys as (_ & _ & Hkeys).
    apply NoDup_cons in Hkeys as [Hkeys _]. apply Hkeys.
    apply list_elem_of_fmap. by exists (key, rows').
Qed.
End ReadBuild.

(** ** The last part of [__buildCif] *)

Section Provenance.
Variable self : reader.

Lemma provenance_row_shape c i c' :
  provenance_row self c i = Ok c' →
  cname c' = cname c ∧ attributeNameList c' = attributeNameList c ∧
  length (data c') = length (data c).
Proof.
  unfold provenance_row. intros Hrow.
  apply bind_Ok in Hrow as (pV & _ & Hset).
  destruct pV as [[pV|]|]; try done.
  unfold setValue in Hset.
  destruct (data c !! i), (index_of "properties" (attributeNameList c)); try done.
  simplify_eq. simpl. by rewrite length_insert.
Qed.

Lemma provenance_fold_shape iRows c c' :
  foldM (provenance_row self) iRows c = Ok c' →
  cname c' = cname c ∧ attributeNameList c' = attributeNameList c ∧
  length (data c') = length (data c).
Proof.
  apply (foldM_invariant
           (λ a, cname a = cname c ∧ attributeNameList a = attributeNameList c ∧
                 length (data a) = length (data c))); [|done].
  intros a x a' _ (H1 & H2 & H3) (H1' & H2' & H3')%provenance_row_shape.
  split_and!; congruence.
Qed.


(** What is returned otherwise: the container, with the names of the
    [program] category as they were. *)
Lemma map_provenance_Some cur l :
  map_provenance self cur = Ok (Some l) →
  ∃ catObj catObj',
    getObj cur "program" = Some catObj ∧ l = [putObj cur "program" catObj'] ∧
    cname catObj' = cname catObj ∧
    attributeNameList catObj' = attributeNameList catObj.
Proof.
  unfold map_provenance. destruct (getObj cur "program") as [catObj|]; [|done].
  destruct (_ && _); [|done]. intros Hm.
  apply bind_Ok in Hm as (catObj' & Hfold & Hl). simplify_eq.
  apply provenance_fold_shape in Hfold as (? & ? & _). by exists catObj, catObj'.
Qed.

(** A token without an entry in the decode table is kept. *)
Lemma decode_tokens_absent (pVL : list string) :
  Forall (λ ky, aget (atMap self) ky = None) pVL → map (decode_token self) pVL = pVL.
Proof.
  induction 1 as [|ky pVL Hky _ IH]; simpl; [done|].
  unfold decode_token at 1. by rewrite Hky, IH.
Qed.
End Provenance.

(** [__init__] registers no empty attribute list. *)
Lemma init_registered_nonempty sm ord am key registered :
  aget (attribD (init sm ord am)) key = Some registered → registered ≠ [].
Proof.
  unfold init. simpl.
  assert (∀ k r, aget ([] : list (string * list string)) k = Some r → r ≠ []) as Hnil by done.
  revert Hnil. generalize ([] : list (string * list string)).
  generalize (akeys (attributes sm)). intros ks. revert key registered.
  induction ks as [|k ks IH]; intros key registered d Hd; simpl; [by apply Hd|].
  apply IH. intros k' r. unfold setdefault_append.
  destruct (aget d k.1) as [l0|]; rewrite aget_aset; case_decide; eauto;
    intros; simplify_eq; [by destruct l0 | done].
Qed.

(** ** Further facts on the rows *)

Lemma fold_left_invariant {A B : Type} (P : A → Prop) (f : A → B → A) (l : list B) (a : A) :
  P a → (∀ a x, P a → P (f a x)) → P (fold_left f l a).
Proof.
  intros Ha Hstep. revert a Ha. induction l as [|x l IH]; intros a Ha; simpl; [done|].
  apply IH. by apply Hstep.
Qed.

Lemma elem_of_aset {K V : Type} `{EqDecision K} (d : list (K * V)) k v kv :
  kv ∈ aset d k v → kv = (k, v) ∨ kv ∈ d.
Proof.
  induction d as [|[k' v'] d IH]; simpl.
  - intros ->%list_elem_of_singleton. by left.
  - case_decide as Hk.
    + intros [->|Hin]%elem_of_cons; [by left | right; by right].
    + intros [->|Hin]%elem_of_cons; [right; by left|].
      destruct (IH Hin) as [->|?]; [by left | right; by right].
Qed.

Lemma aget_setdefault_append {V : Type} (d : list (string * list V)) k x t :
  aget (setdefault_append d k x) t
  = if decide (k = t) then Some (default [] (aget d k) ++ [x]) else aget d t.
Proof.
  unfold setdefault_append.
  destruct (aget d k) as [l|] eqn:Hk; rewrite aget_aset; by case_decide.
Qed.

Lemma setdefault_append_table_ok (rD : rowtable) k x :
  table_ok rD → table_ok (setdefault_append rD k x).
Proof.
  intros [Hnd Hrows]. split; [by apply NoDup_akeys_setdefault_append|].
  intros t rows Hin. unfold setdefault_append in Hin.
  destruct (aget rD k) as [l|]; apply elem_of_aset in Hin as [Heq|Hin];
    simplify_eq; eauto; by destruct l.
Qed.

Lemma extract_table_ok st root : table_ok (extract st root).1.
Proof.
  unfold extract.
  apply (fold_left_invariant (λ s : rowtable * store, table_ok s.1)).
  { split; [constructor | by intros t rows ?%elem_of_nil]. }
  intros s el Hs. unfold extract_el.
  apply (fold_left_invariant (λ s : rowtable * store, table_ok s.1)).
  { by apply setdefault_append_table_ok. }
  intros s' ch Hs'. unfold extract_ch.
  apply (fold_left_invariant (λ s : rowtable * store, table_ok s.1)).
  { by apply setdefault_append_table_ok. }
  intros s'' gch Hs''. unfold extract_gch. by apply setdefault_append_table_ok.
Qed.

Lemma normalize_row_other (h : bool) (ii : Z) (rowD : dict) (k : string) :
  k ≠ "ordinal" → k ≠ "icode" → k ≠ "altcode" →
  aget (normalize_row h ii rowD) k = aget rowD k.
Proof.
  intros Ho Hi Ha. unfold normalize_row.
  set (r1 := if h then aset rowD "ordinal" (VInt ii) else rowD).
  set (r2 := match aget r1 "icode" with
             | Some v => aset r1 "icode" (VStr (strip (py_str v)))
             | None => r1
             end).
  assert (aget r1 k = aget rowD k) as H1.
  { subst r1. destruct h; [by rewrite aget_aset_ne|done]. }
  assert (aget r2 k = aget r1 k) as H2.
  { subst r2. destruct (aget r1 "icode"); [by rewrite aget_aset_ne|done]. }
  rewrite <-H1, <-H2. destruct (aget r2 "altcode"); [by rewrite aget_aset_ne|done].
Qed.

Lemma normalize_row_icode (h : bool) (ii : Z) (rowD : dict) :
  aget (normalize_row h ii rowD) "icode"
  = (λ v, VStr (strip (py_str v))) <$> aget rowD "icode".
Proof.
  unfold normalize_row.
  set (r1 := if h then aset rowD "ordinal" (VInt ii) else rowD).
  set (r2 := match aget r1 "icode" with
             | Some v => aset r1 "icode" (VStr (strip (py_str v)))
             | None => r1
             end).
  assert (aget r1 "icode" = aget rowD "icode") as H1.
  { subst r1. destruct h; [by rewrite aget_aset_ne|done]. }
  assert (aget r2 "icode" = (λ v, VStr (strip (py_str v))) <$> aget rowD "icode") as H2.
  { subst r2. rewrite <-H1. destruct (aget r1 "icode") eqn:Hi; simpl; [|done].
    by rewrite aget_aset_eq. }
  rewrite <-H2. destruct (aget r2 "altcode"); [by rewrite aget_aset_ne|done].
Qed.

Lemma normalize_row_altcode (h : bool) (ii : Z) (rowD : dict) :
  aget (normalize_row h ii rowD) "altcode"
  = (λ v, VStr (strip (py_str v))) <$> aget rowD "altcode".
Proof.
  unfold normalize_row.
  set (r1 := if h then aset rowD "ordinal" (VInt ii) else rowD).
  set (r2 := match aget r1 "icode" with
             | Some v => aset r1 "icode" (VStr (strip (py_str v)))
             | None => r1
             end).
  assert (aget r1 "altcode" = aget rowD "altcode") as H1.
  { subst r1. destruct h; [by rewrite aget_aset_ne|done]. }
  assert (aget r2 "altcode" = aget r1 "altcode") as H2.
  { subst r2. destruct (aget r1 "icode"); [by rewrite aget_aset_ne|done]. }
  rewrite <-H1, <-H2. destruct (aget r2 "altcode") eqn:Ha; simpl; [|done].
  by rewrite aget_aset_eq.
Qed.

(** A category built in a [read]: its cells are read from its rows, which
    nothing has changed since [__extract] but the loop over these very
    rows. *)
Lemma read_built_cells set_iter self st xrt st1 cur key aCat i l :
  wf_doc st xrt →
  build_categories set_iter self (extract st xrt).2 (extract st xrt).1 = Ok (st1, cur) →
  getObj cur key = Some aCat →
  rows_of (extract st xrt).1 key !! i = Some l →
  ∃ registered,
    aget (attribD self) key = Some registered ∧
    deref st1 l
    = normalize_row (bool_decide ("ordinal" ∈ registered)) (Z.of_nat i + 1)
        (deref (extract st xrt).2 l) ∧
    ∀ a, a ∈ attributeNameList aCat → getValue aCat a i = Ok (aget (deref st1 l) a).
Proof.
  intros Hwf Hbuild Hget Hi. unfold build_categories in Hbuild.
  destruct (build_categories_getObj _ _ _ _ _ _ _ Hbuild Hget)
    as [Hinit|(rD1 & rows & rD2 & sa & sb & HrD & Hpre & Hem & Hpost)]; [done|].
  destruct (extract_wf_rows _ _ Hwf) as [Hkeys Hrows].
  assert ((key, rows) ∈ (extract st xrt).1) as Hin.
  { rewrite HrD. apply elem_of_app. right. by left. }
  pose proof (extract_entry _ _ _ _ Hwf Hin) as Heq.
  destruct (Hrows _ _ Hin) as [Hnd Hval]. rewrite <-Heq in Hi.
  assert (l ∈ rows) as Hl by (by eapply list_elem_of_lookup_2).
  assert (∀ t' rows', (t', rows') ∈ (extract st xrt).1 → t' ≠ key → l ∉ rows') as Hother.
  { intros t' rows' Hin' Hne Hl'.
    pose proof (extract_entry _ _ _ _ Hwf Hin') as Heq'.
    apply Hne. symmetry.
    eapply extract_rows_one_tag; [done| |]; [by rewrite <-Heq | by rewrite <-Heq']. }
  rewrite HrD in Hkeys. unfold akeys in Hkeys.
  rewrite map_app in Hkeys. simpl in Hkeys. rewrite !list_map_fmap in Hkeys.
  apply NoDup_app in Hkeys as (_ & Hdisj & Hkeys).
  apply NoDup_cons in Hkeys as [Hkeys _].
  assert (sa.1 !! l = (extract st xrt).2 !! l) as Hbefore.
  { apply (build_categories_other _ _ _ _ _ l) in Hpre; [done|].
    intros t' rows' Hin'. apply (Hother t').
    - rewrite HrD. apply elem_of_app. by left.
    - intros ->. eapply (Hdisj key); [|by left].
      apply list_elem_of_fmap. by exists (key, rows'). }
  assert (st1 !! l = sb !! l) as Hafter.
  { apply (build_categories_other _ _ _ _ _ l) in Hpost; [done|].
    intros t' rows' Hin'. apply (Hother t').
    - rewrite HrD. apply elem_of_app. right. by right.
    - intros ->. apply Hkeys. apply list_elem_of_fmap. by exists (key, rows'). }
  assert (Forall (λ l, (l < length sa.1)%nat) rows) as Hval'.
  { apply build_categories_length in Hpre. simpl in Hpre. by rewrite Hpre. }
  pose proof Hem as (registered & sD & Hreg & _ & _ & _ & _ & _ & HaCat).
  exists registered. split_and!; [done| |].
  - unfold deref at 1. rewrite Hafter. fold (deref sb l).
    rewrite (emits_rows _ _ _ _ _ _ _ _ _ _ Hem Hreg Hnd Hval' Hi).
    unfold deref. by rewrite Hbefore.
  - intros a Ha. unfold deref. rewrite Hafter. fold (deref sb l).
    destruct Hem as (registered' & sD' & _ & _ & _ & _ & Hsb & _ & ->).
    rewrite Hsb. apply getValue_DataCategory; [|done].
    by rewrite list_map_fmap, list_lookup_fmap, Hi.
Qed.

(** The row of a child element: a new dictionary, made of the child's
    attributes and the attributes carried from a [ModelledSubgroup] parent. *)
Lemma extract_child_row st xrt el ch :
  wf_doc st xrt → el ∈ children xrt → ch ∈ children el →
  ∃ l, l ∈ rows_of (extract st xrt).1 (tag ch) ∧ (length st ≤ l)%nat ∧
       deref (extract st xrt).2 l
       = child_row (deref st (attrib ch))
           (if decide (tag el = "ModelledSubgroup") then deref st (attrib el) else []).
Proof.
  intros Hwf Hel Hch.
  destruct (extract_row_of_origin _ _ _ _ Hwf (flatten_child _ _ _ Hel Hch))
    as (l & Hl & _ & Hd & Hfresh).
  exists l. split_and!; [done|done|]. simpl in Hd. rewrite Hd. by case_decide.
Qed.

(** The row of a top-level element or of a grandchild: the element's own
    dictionary, as it is. *)
Lemma extract_own_row st xrt t l :
  wf_doc st xrt → (t, Own l) ∈ flatten xrt →
  l ∈ rows_of (extract st xrt).1 t ∧ deref (extract st xrt).2 l = deref st l.
Proof.
  intros Hwf Hin.
  destruct (extract_row_of_origin _ _ _ _ Hwf Hin) as (l' & Hl' & _ & Hd & Hown).
  simpl in *. by subst l'.
Qed.

(** ** What the first loop of [__buildCif] does to the store *)

Lemma row_step_frame h s x l k :
  k ≠ "ordinal" → k ≠ "icode" → k ≠ "altcode" →
  aget (deref (row_step h s x).1 l) k = aget (deref s.1 l) k.
Proof.
  intros Ho Hi Ha. unfold row_step. simpl.
  destruct (decide (x.2 = l)) as [<-|Hne]; [|by rewrite deref_insert_ne].
  destruct (decide (x.2 < length s.1)%nat) as [Hlt|Hge].
  - rewrite deref_insert_eq by done. by apply normalize_row_other.
  - rewrite list_insert_ge by lia. done.
Qed.

Lemma row_loop_frame h xs s l k :
  k ≠ "ordinal" → k ≠ "icode" → k ≠ "altcode" →
  aget (deref (fold_left (row_step h) xs s).1 l) k = aget (deref s.1 l) k.
Proof.
  intros Ho Hi Ha. revert s. induction xs as [|x xs IH]; intros s; simpl; [done|].
  rewrite IH. by apply row_step_frame.
Qed.

Section Fate.
Variable set_iter : list string → list string.
Variable self : reader.

Lemma emits_frame st key rows st' aCat l k :
  emits set_iter self st key rows st' aCat →
  k ≠ "ordinal" → k ≠ "icode" → k ≠ "altcode" →
  aget (deref st' l) k = aget (deref st l) k.
Proof.
  intros (registered & sD & _ & _ & _ & _ & -> & _) Ho Hi Ha.
  by apply row_loop_frame.
Qed.

(** The loop changes no key of any dictionary but [ordinal], [icode] and
    [altcode]. *)
Lemma build_categories_frame rD s s' l k :
  foldM (build_category set_iter self) rD s = Ok s' →
  k ≠ "ordinal" → k ≠ "icode" → k ≠ "altcode" →
  aget (deref s'.1 l) k = aget (deref s.1 l) k.
Proof.
  intros Hfold Ho Hi Ha. revert Hfold.
  apply (foldM_invariant (λ a, aget (deref a.1 l) k = aget (deref s.1 l) k)); [|done].
  intros a x a' _ Hinv [[-> _]|(aCat & Hem & _)]%build_category_Ok; [done|].
  rewrite <-Hinv. by eapply emits_frame.
Qed.

Lemma skips_not_kept key rows :
  rows ≠ [] → skips self key rows → ¬ kept_tag self key.
Proof.
  intros Hrows [?|(registered & Hreg & [-> | ->])] [Hprog Hne]; done.
Qed.

Lemma emits_kept st key rows st' aCat :
  emits set_iter self st key rows st' aCat → kept_tag self key.
Proof.
  intros (registered & sD & Hreg & Hne & _ & Hprog & _). split; [done|].
  rewrite Hreg. by intros [= ->].
Qed.

(** A category stays in the container once it is there. *)
Lemma build_categories_keeps rD s s' key :
  foldM (build_category set_iter self) rD s = Ok s' →
  is_Some (getObj s.2 key) → is_Some (getObj s'.2 key).
Proof.
  intros Hfold Hs. revert Hs Hfold.
  apply (foldM_invariant (λ a, is_Some (getObj a.2 key))).
  intros a x a' _ Hinv [[-> _]|(aCat & _ & Ha')]%build_category_Ok; [done|].
  rewrite Ha'. unfold getObj, append. simpl. rewrite aget_aset.
  by case_decide.
Qed.

(** The names in the container after the loop: those that were there, then
    the tags of the row table that are not skipped, in the order of the
    table. *)
Lemma build_fold_names rD : ∀ s s',
  table_ok rD →
  (∀ k, k ∈ akeys rD → k ∉ getObjNameList s.2) →
  foldM (build_category set_iter self) rD s = Ok s' →
  getObjNameList s'.2 = getObjNameList s.2 ++ filter (kept_tag self) (akeys rD).
Proof.
  induction rD as [|entry rD IH]; intros s s' [Hnd Hrows] Hfresh Hfold; simpl in Hfold.
  - simplify_eq. by rewrite app_nil_r.
  - unfold akeys in Hnd, Hfresh. simpl in Hnd, Hfresh.
    apply NoDup_cons in Hnd as [Hentry Hnd].
    assert (table_ok rD) as Hok.
    { split; [done|]. intros t rows Hin. apply (Hrows t). by right. }
    assert (entry.2 ≠ []) as Hne.
    { apply (Hrows entry.1). destruct entry. by left. }
    apply bind_Ok in Hfold as (s1 & Hstep & Hfold).
    unfold akeys. simpl.
    apply build_category_Ok in Hstep as [[-> Hskip]|(aCat & Hem & Hs1)].
    + rewrite filter_cons_False by (by apply skips_not_kept with entry.2).
      apply (IH _ _ Hok (λ k Hk, Hfresh k (list_elem_of_further _ _ _ Hk)) Hfold).
    + pose proof (emits_cname _ _ _ _ _ _ _ Hem) as Hname.
      rewrite filter_cons_True by (by eapply emits_kept).
      assert (getObjNameList s1.2 = getObjNameList s.2 ++ [entry.1]) as Hs1names.
      { rewrite Hs1. unfold getObjNameList, append. simpl. rewrite Hname.
        apply akeys_aset_absent. apply Hfresh. by left. }
      rewrite (IH s1 s' Hok); [by rewrite Hs1names, <-app_assoc| |done].
      intros k Hk. rewrite Hs1names.
      intros [Hin|Hin%list_elem_of_singleton]%elem_of_app.
      * by apply (Hfresh k); [right|].
      * subst k. done.
Qed.

Lemma build_categories_names st rD st1 cur :
  table_ok rD →
  build_categories set_iter self st rD = Ok (st1, cur) →
  getObjNameList cur = filter (kept_tag self) (akeys rD).
Proof.
  intros Hok Hbuild. unfold build_categories in Hbuild.
  exact (build_fold_names _ (_, DataContainer "vrpt") _ Hok
           (λ k _, not_elem_of_nil k) Hbuild).
Qed.

(** The rows of a tag that has no category after the loop are as they
    were. *)
Lemma build_categories_skipped rD l t : ∀ s s',
  foldM (build_category set_iter self) rD s = Ok s' →
  getObj s'.2 t = None →
  (∀ t' rows', (t', rows') ∈ rD → t' ≠ t → l ∉ rows') →
  s'.1 !! l = s.1 !! l.
Proof.
  induction rD as [|entry rD IH]; intros s s' Hfold Hnone Hother; simpl in Hfold.
  - by simplify_eq.
  - apply bind_Ok in Hfold as (s1 & Hstep & Hfold).
    rewrite (IH _ _ Hfold Hnone) by (intros t' rows' Hin; apply Hother; by right).
    apply build_category_Ok in Hstep as [[-> _]|(aCat & Hem & Hs1)]; [done|].
    eapply emits_other; [done|]. destruct entry as [key rows]. simpl in *.
    apply (Hother key); [by left|]. intros ->.
    assert (is_Some (getObj s1.2 t)) as Hsome.
    { rewrite Hs1. unfold getObj, append. simpl.
      rewrite (emits_cname _ _ _ _ _ _ _ Hem), aget_aset_eq. eauto. }
    apply (build_categories_keeps _ _ _ _ Hfold) in Hsome.
    rewrite Hnone in Hsome. by destruct Hsome.
Qed.

(** What [read] has done to the dictionary of a top-level element or of a
    grandchild, which is row [i] of its tag: nothing when the tag is
    skipped, and the three assignments of the row loop otherwise. *)
Lemma read_row_fate st xrt st1 cur t l :
  wf_doc st xrt →
  build_categories set_iter self (extract st xrt).2 (extract st xrt).1 = Ok (st1, cur) →
  (t, Own l) ∈ flatten xrt →
  ∃ i, rows_of (extract st xrt).1 t !! i = Some l ∧
    (t = "programs" ∨ aget (attribD self) t = Some [] → st1 !! l = st !! l) ∧
    (t ≠ "programs" → aget (attribD self) t ≠ Some [] →
     ∃ registered,
       aget (attribD self) t = Some registered ∧
       deref st1 l
       = normalize_row (bool_decide ("ordinal" ∈ registered)) (Z.of_nat i + 1)
           (deref st l)).
Proof.
  intros Hwf Hbuild Hin.
  destruct (extract_own_row _ _ _ _ Hwf Hin) as [Hrow Hd].
  pose proof (wf_doc_valid _ _ _ Hwf Hin) as Hvalid. simpl in Hvalid.
  assert ((extract st xrt).2 !! l = st !! l) as Hflat.
  { destruct (extract_store_grows _ _ Hwf) as [news ->]. by apply lookup_app_l. }
  pose proof (extract_table_ok st xrt) as Hok.
  pose proof (build_categories_names _ _ _ _ Hok Hbuild) as Hnames.
  assert (t ∈ akeys (extract st xrt).1) as Hkey.
  { apply aget_is_Some. unfold rows_of in Hrow.
    destruct (aget (extract st xrt).1 t); [eauto|]. by apply elem_of_nil in Hrow. }
  pose proof Hrow as Hrow'. apply list_elem_of_lookup in Hrow' as [i Hi].
  exists i. split_and!; [done| |].
  - intros Hskip. rewrite <-Hflat. unfold build_categories in Hbuild.
    apply (build_categories_skipped _ l t _ _ Hbuild).
    + simpl. apply eq_None_not_Some. unfold getObj. rewrite aget_is_Some.
      fold (getObjNameList cur). rewrite Hnames.
      intros [[Hprog Hne] _]%list_elem_of_filter. by destruct Hskip.
    + intros t' rows' Hin' Hne Hl'.
      rewrite (extract_entry _ _ _ _ Hwf Hin') in Hl'.
      apply Hne. by eapply extract_rows_one_tag.
  - intros Hprog Hne.
    assert (is_Some (getObj cur t)) as [aCat Hget].
    { unfold getObj. rewrite aget_is_Some. fold (getObjNameList cur). rewrite Hnames.
      by apply list_elem_of_filter. }
    destruct (read_built_cells _ _ _ _ _ _ _ _ _ _ Hwf Hbuild Hget Hi)
      as (registered & Hreg & Hrowd & _).
    exists registered. split; [done|]. by rewrite Hrowd, Hd.
Qed.
End Fate.

(** ** Stripping *)

Lemma string_app_cons (a : ascii) (s t : string) : String a s +:+ t = String a (s +:+ t).
Proof. reflexivity. Qed.

Lemma string_app_nil (t : string) : EmptyString +:+ t = t.
Proof. reflexivity. Qed.

Ltac ncmp :=
  repeat match goal with
  | |- context [(?a <? ?b)%N] =>
      first [ rewrite (proj2 (N.ltb_lt a b)) by lia
            | rewrite (proj2 (N.ltb_ge a b)) by lia ]
  | |- context [(?a <=? ?b)%N] =>
      first [ rewrite (proj2 (N.leb_le a b)) by lia
            | rewrite (proj2 (N.leb_gt a b)) by lia ]
  end.

Lemma continuation_byte (r : N) :
  (r < 64)%N → continuation (ascii_of_N (0x80 + r)) = Some r.
Proof.
  intros Hr. unfold continuation. rewrite N_ascii_embedding by lia.
  ncmp. simpl. f_equal. lia.
Qed.

(** The bytes of a character with code point [cp]: a first byte, which is
    not a continuation byte, and continuation bytes. *)
Lemma chr_bytes (cp : N) :
  (cp < 0x110000)%N →
  ∃ a rest,
    chr cp = String a rest ∧
    (∀ s, first_char (String a (rest +:+ s)) = Some (cp, String.length rest)) ∧
    Forall (λ b, (0x80 <= N_of_ascii b < 0xC0)%N) (list_ascii_of_string rest).
Proof.
  intros Hcp. unfold chr.
  destruct (N.ltb_spec cp 0x80) as [H1|H1].
  { eexists _, _. split; [reflexivity|]. split; [|constructor].
    intros s. unfold first_char. rewrite N_ascii_embedding by lia. by ncmp. }
  destruct (N.ltb_spec cp 0x800) as [H2|H2].
  { pose proof (N.div_mod cp 64 ltac:(lia)) as Hdm.
    pose proof (N.mod_lt cp 64 ltac:(lia)) as Hr.
    set (q := (cp / 64)%N) in *. set (r := (cp mod 64)%N) in *.
    eexists _, _. split; [reflexivity|]. split.
    - intros s. unfold first_char. rewrite !string_app_cons.
      rewrite N_ascii_embedding by lia. ncmp.
      rewrite continuation_byte by done. simpl. unfold shortest. ncmp. simpl.
      do 2 f_equal. lia.
    - repeat constructor; rewrite N_ascii_embedding by lia; lia. }
  destruct (N.ltb_spec cp 0x10000) as [H3|H3].
  { pose proof (N.div_mod cp 64 ltac:(lia)) as Hdm.
    pose proof (N.mod_lt cp 64 ltac:(lia)) as Hr.
    set (q := (cp / 64)%N) in *. set (r := (cp mod 64)%N) in *.
    pose proof (N.div_mod q 64 ltac:(lia)) as Hdm1.
    pose proof (N.mod_lt q 64 ltac:(lia)) as Hr1.
    replace (cp / 4096)%N with (q / 64)%N
      by (subst q; rewrite N.Div0.div_div; reflexivity).
    set (q1 := (q / 64)%N) in *. set (r1 := (q mod 64)%N) in *.
    eexists _, _. split; [reflexivity|]. split.
    - intros s. unfold first_char. rewrite !string_app_cons.
      rewrite N_ascii_embedding by lia. ncmp.
      repeat (rewrite continuation_byte by done; simpl). unfold shortest. ncmp. simpl.
      do 2 f_equal. lia.
    - repeat constructor; rewrite N_ascii_embedding by lia; lia. }
  pose proof (N.div_mod cp 64 ltac:(lia)) as Hdm.
  pose proof (N.mod_lt cp 64 ltac:(lia)) as Hr.
  set (q := (cp / 64)%N) in *. set (r := (cp mod 64)%N) in *.
  pose proof (N.div_mod q 64 ltac:(lia)) as Hdm1.
  pose proof (N.mod_lt q 64 ltac:(lia)) as Hr1.
  replace (cp / 4096)%N with (q / 64)%N
    by (subst q; rewrite N.Div0.div_div; reflexivity).
  replace (cp / 262144)%N with (q / 64 / 64)%N
    by (subst q; rewrite !N.Div0.div_div; reflexivity).
  set (q1 := (q / 64)%N) in *. set (r1 := (q mod 64)%N) in *.
  pose proof (N.div_mod q1 64 ltac:(lia)) as Hdm2.
  pose proof (N.mod_lt q1 64 ltac:(lia)) as Hr2.
  set (q2 := (q1 / 64)%N) in *. set (r2 := (q1 mod 64)%N) in *.
  eexists _, _. split; [reflexivity|]. split.
  - intros s. unfold first_char. rewrite !string_app_cons.
    rewrite N_ascii_embedding by lia. ncmp.
    repeat (rewrite continuation_byte by done; simpl). unfold shortest. ncmp. simpl.
    do 2 f_equal. lia.
  - repeat constructor; rewrite N_ascii_embedding by lia; lia.
Qed.

Lemma lstrip_from_skip (pre s : string) :
  lstrip_from (String.length pre) (pre +:+ s) = lstrip_from 0 s.
Proof. induction pre as [|a pre IH]; [done|]. rewrite string_app_cons. exact IH. Qed.

Lemma blank_from_skip (pre s : string) :
  blank_from (String.length pre) (pre +:+ s) = blank_from 0 s.
Proof. induction pre as [|a pre IH]; [done|]. rewrite string_app_cons. exact IH. Qed.

Lemma leading_space_chr cp a rest s :
  first_char (String a (rest +:+ s)) = Some (cp, String.length rest) →
  leading_space (String a (rest +:+ s))
  = if isspace cp then Some (String.length rest) else None.
Proof. intros H. unfold leading_space. by rewrite H. Qed.

Lemma lstrip_encode (cps : list N) :
  Forall (λ cp, (cp < 0x110000)%N) cps →
  lstrip (encode cps) = encode (lstrip_chars cps).
Proof.
  unfold lstrip. induction 1 as [|cp cps Hcp _ IH]; [done|].
  destruct (chr_bytes cp Hcp) as (a & rest & Hchr & Hfirst & _).
  cbn [lstrip_chars]. change (encode (cp :: cps)) with (chr cp +:+ encode cps).
  rewrite Hchr, string_app_cons. cbn [lstrip_from].
  rewrite (leading_space_chr cp) by done.
  destruct (isspace cp).
  - by rewrite lstrip_from_skip.
  - change (encode (cp :: cps)) with (chr cp +:+ encode cps). by rewrite Hchr.
Qed.

Lemma blank_encode (cps : list N) :
  Forall (λ cp, (cp < 0x110000)%N) cps →
  blank_from 0 (encode cps) = forallb isspace cps.
Proof.
  induction 1 as [|cp cps Hcp _ IH]; [done|].
  destruct (chr_bytes cp Hcp) as (a & rest & Hchr & Hfirst & _).
  cbn [forallb]. change (encode (cp :: cps)) with (chr cp +:+ encode cps).
  rewrite Hchr, string_app_cons. cbn [blank_from].
  rewrite (leading_space_chr cp) by done.
  destruct (isspace cp); [|done].
  by rewrite blank_from_skip.
Qed.

(** A suffix that starts inside a character is not cut. *)
Lemma rstrip_continuation (rest s : string) :
  Forall (λ b, (0x80 <= N_of_ascii b < 0xC0)%N) (list_ascii_of_string rest) →
  rstrip (rest +:+ s) = rest +:+ rstrip s.
Proof.
  induction rest as [|b rest IH]; [done|].
  cbn [list_ascii_of_string]. intros [Hb Hrest]%Forall_cons.
  rewrite !string_app_cons. cbn [rstrip blank_from].
  unfold leading_space, first_char. ncmp. by rewrite IH.
Qed.

Lemma rstrip_chr (cp : N) (s : string) :
  (cp < 0x110000)%N →
  rstrip (chr cp +:+ s) = if blank_from 0 (chr cp +:+ s) then EmptyString else chr cp +:+ rstrip s.
Proof.
  intros Hcp. destruct (chr_bytes cp Hcp) as (a & rest & Hchr & _ & Hcont).
  rewrite Hchr, !string_app_cons.
  change (rstrip (String a (rest +:+ s)))
    with (if blank_from 0 (String a (rest +:+ s)) then EmptyString
          else String a (rstrip (rest +:+ s))).
  by rewrite rstrip_continuation.
Qed.

Lemma lstrip_chars_app (l1 l2 : list N) :
  lstrip_chars (l1 ++ l2)
  = if forallb isspace l1 then lstrip_chars l2 else lstrip_chars l1 ++ l2.
Proof.
  induction l1 as [|cp l1 IH]; [done|]. simpl. by destruct (isspace cp).
Qed.

Lemma forallb_rev {A : Type} (f : A → bool) (l : list A) :
  forallb f (rev l) = forallb f l.
Proof.
  induction l as [|x l IH]; [done|]. simpl.
  rewrite forallb_app, IH. simpl. by destruct (f x), (forallb f l).
Qed.

Lemma lstrip_chars_blank (l : list N) : forallb isspace l = true → lstrip_chars l = [].
Proof.
  induction l as [|cp l IH]; [done|]. simpl. destruct (isspace cp); [exact IH|done].
Qed.

(** Stripping at the right end, from the left. *)
Lemma rstrip_chars_cons (cp : N) (l : list N) :
  rev (lstrip_chars (rev (cp :: l)))
  = if forallb isspace (cp :: l) then [] else cp :: rev (lstrip_chars (rev l)).
Proof.
  cbn [rev forallb]. rewrite lstrip_chars_app, forallb_rev.
  destruct (forallb isspace l) eqn:Hl.
  - rewrite (lstrip_chars_blank (rev l)) by (by rewrite forallb_rev).
    simpl. by destruct (isspace cp).
  - rewrite rev_app_distr. simpl. by rewrite andb_false_r.
Qed.

Lemma rstrip_encode (cps : list N) :
  Forall (λ cp, (cp < 0x110000)%N) cps →
  rstrip (encode cps) = encode (rev (lstrip_chars (rev cps))).
Proof.
  induction 1 as [|cp cps Hcp Hcps IH]; [done|].
  rewrite rstrip_chars_cons.
  change (encode (cp :: cps)) with (chr cp +:+ encode cps).
  rewrite rstrip_chr by done.
  change (chr cp +:+ encode cps) with (encode (cp :: cps)).
  rewrite blank_encode by (by constructor).
  destruct (forallb isspace (cp :: cps)); [done|]. by rewrite IH.
Qed.

Lemma lstrip_chars_valid (P : N → Prop) (l : list N) : Forall P l → Forall P (lstrip_chars l).
Proof.
  induction 1 as [|cp l Hcp Hl IH]; [done|]. simpl.
  destruct (isspace cp); [done|by constructor].
Qed.

(** Stripping the encoded text is stripping the text: [strip] removes the
    whitespace characters at the two ends of the text and nothing else. *)
Lemma strip_encode (cps : list N) :
  Forall (λ cp, (cp < 0x110000)%N) cps →
  strip (encode cps) = encode (strip_chars cps).
Proof.
  intros Hcps. unfold strip, strip_chars.
  rewrite lstrip_encode by done.
  by rewrite rstrip_encode by (by apply lstrip_chars_valid).
Qed.


(** * Properties of the reader *)

Lemma set_iter_insertion_perm (l : list string) : set_iter_insertion l ≡ₚ l.
Proof. reflexivity. Qed.

Lemma sample_doc_wf : wf_doc sample_store sample_doc.
Proof. apply (bool_decide_unpack _). vm_compute. exact I. Qed.

Lemma unicode_doc_wf : wf_doc unicode_store sample_doc.
Proof. apply (bool_decide_unpack _). vm_compute. exact I. Qed.

(** C1: [read] should return the assembled container for every document,
    also when there is no [program] category or it has no [properties]
    column.  It does not: the [return] statement is inside the [if] of the
    provenance step, so for such a document the container is built and
    renamed and then [read] returns [None]. *)
Theorem read_returns_None_without_provenance :
  (∃ st' cur0 cur,
     build_categories set_iter_insertion sample_reader
       (extract summary_store summary_doc).2 (extract summary_store summary_doc).1
       = Ok (st', cur0) ∧
     rename_categories sample_reader cur0 = Ok cur ∧
     getObj cur "Entry" ≠ None ∧ getObj cur "program" = None ∧
     read set_iter_insertion sample_reader summary_store summary_doc = Ok (st', None)) ∧
  (∃ st' cur0 cur catObj,
     build_categories set_iter_insertion sample_reader
       (extract noproperties_store noproperties_doc).2
       (extract noproperties_store noproperties_doc).1
       = Ok (st', cur0) ∧
     rename_categories sample_reader cur0 = Ok cur ∧
     getObj cur "program" = Some catObj ∧ hasAttribute catObj "properties" = false ∧
     read set_iter_insertion sample_reader noproperties_store noproperties_doc
       = Ok (st', None)).
Proof.
  split.
  - do 3 eexists. split_and!; vm_compute; first [reflexivity | discriminate].
  - do 4 eexists. split_and!; vm_compute; reflexivity.
Qed.

(** C2: a category without a registered attribute list should be skipped
    without an error, and so should [programs].  It is not: the skip test
    reads [self.__attribD[catName]], which raises [KeyError] for a tag that
    is not registered, and it does so before the test for [programs] is
    reached. *)
Theorem unregistered_category_raises :
  aget (attribD sample_reader) "Extension" = None ∧
  read set_iter_insertion sample_reader unregistered_store unregistered_doc
    = Raise (KeyError "Extension") ∧
  aget (attribD (init program_schema sample_order sample_atMap)) "programs" = None ∧
  read set_iter_insertion (init program_schema sample_order sample_atMap)
    programs_store programs_doc
    = Raise (KeyError "programs").
Proof. split_and!; vm_compute; reflexivity. Qed.

(** C3, as the code has it: flattening changes no attribute dictionary.
    [read] leaves every dictionary that is not the dictionary of a top-level
    element or of a grandchild as it was: those of the child elements, of
    the root and of deeper elements.  In every dictionary it leaves every
    key but [ordinal], [icode] and [altcode] as it was.  The dictionary of a
    top-level element or of a grandchild is itself a row of its tag: when
    the tag is skipped ([programs], or a tag registered with no attribute)
    it is unchanged; otherwise, being row [i] of its tag, it has received
    the three assignments of the row loop and nothing else: [ordinal] is
    [i + 1] when the tag has a registered [ordinal] attribute, and [icode]
    and [altcode], where present, are stripped strings. *)
Theorem read_preserves_child_attrib set_iter self st xrt st' r :
  wf_doc st xrt →
  read set_iter self st xrt = Ok (st', r) →
  (∀ l, (l < length st)%nat → (extract st xrt).2 !! l = st !! l) ∧
  (∀ el ch, el ∈ children xrt → ch ∈ children el → st' !! attrib ch = st !! attrib ch) ∧
  (∀ l, (l < length st)%nat → (∀ t, (t, Own l) ∉ flatten xrt) → st' !! l = st !! l) ∧
  (∀ l k, (l < length st)%nat → k ≠ "ordinal" → k ≠ "icode" → k ≠ "altcode" →
          aget (deref st' l) k = aget (deref st l) k) ∧
  (∀ el, el ∈ children xrt → attrib el ∈ rows_of (extract st xrt).1 (tag el)) ∧
  (∀ el ch gch, el ∈ children xrt → ch ∈ children el → gch ∈ children ch →
                attrib gch ∈ rows_of (extract st xrt).1 (tag gch)) ∧
  (∀ t l, (t, Own l) ∈ flatten xrt →
     ∃ i, rows_of (extract st xrt).1 t !! i = Some l ∧
       (t = "programs" ∨ aget (attribD self) t = Some [] → st' !! l = st !! l) ∧
       (t ≠ "programs" → aget (attribD self) t ≠ Some [] →
        ∃ registered,
          aget (attribD self) t = Some registered ∧
          deref st' l
          = normalize_row (bool_decide ("ordinal" ∈ registered)) (Z.of_nat i + 1)
              (deref st l))).
Proof.
  intros Hwf Hread.
  assert (∀ l, (l < length st)%nat → (extract st xrt).2 !! l = st !! l) as Hflat.
  { intros l Hl. destruct (extract_store_grows _ _ Hwf) as [news ->].
    by apply lookup_app_l. }
  unfold read, buildCif in Hread.
  apply bind_Ok in Hread as ([st1 cur] & Hbuild & Hrest).
  apply bind_Ok in Hrest as (cur' & _ & Hrest).
  apply bind_Ok in Hrest as (r' & _ & Hret). simpl in Hret. simplify_eq.
  pose proof Hbuild as Hfold. unfold build_categories in Hfold.
  split_and!; [done| | | | | |].
  - intros el ch Hel Hch.
    apply (build_categories_other _ _ _ _ _ (attrib ch)) in Hfold.
    + simpl in Hfold. rewrite Hfold. apply Hflat.
      apply (wf_doc_valid _ _ _ Hwf (flatten_child _ _ _ Hel Hch)).
    + intros t rows Hin. by eapply child_attrib_not_row.
  - intros l Hl Hnot.
    apply (build_categories_other _ _ _ _ _ l) in Hfold.
    + simpl in Hfold. rewrite Hfold. by apply Hflat.
    + intros t rows Hin Hrow. rewrite (extract_entry _ _ _ _ Hwf Hin) in Hrow.
      destruct (extract_origin_of_row _ _ _ _ Hwf Hrow) as (src & Hsrc & _ & _ & Hloc).
      simpl in Hloc. destruct src as [l'|c m].
      * subst l'. by apply (Hnot t).
      * lia.
  - intros l k Hl Ho Hi Ha.
    pose proof (build_categories_frame _ _ _ _ _ l k Hfold Ho Hi Ha) as Hfr.
    simpl in Hfr. rewrite Hfr. unfold deref. by rewrite Hflat.
  - intros el Hel. by apply extract_own_row, flatten_top.
  - intros el ch gch Hel Hch Hgch. by eapply extract_own_row, flatten_grandchild.
  - intros t l Hin. by eapply read_row_fate.
Qed.

Lemma read_preserves_child_attrib_witness :
  ∃ st' r,
    read set_iter_insertion sample_reader sample_store sample_doc = Ok (st', r) ∧
    st' !! 2%nat = sample_store !! 2%nat ∧ st' !! 5%nat = sample_store !! 5%nat ∧
    st' !! 4%nat = sample_store !! 4%nat ∧
    aget (deref st' 0%nat) "pdbid" = Some (VStr "1ABC") ∧
    deref st' 1%nat
    = [("model", VStr "1"); ("chain", VStr "A"); ("resnum", VStr "5");
       ("icode", VStr EmptyString); ("ordinal", VInt 1)].
Proof.
  eexists _, _.
  assert (read set_iter_insertion sample_reader sample_store sample_doc = Ok (_, _)) as Hread
    by (vm_compute; reflexivity).
  destruct (read_preserves_child_attrib _ _ _ _ _ _ sample_doc_wf Hread)
    as (_ & Hch & _ & Hkeys & _ & _ & Hrow).
  split_and!; [exact Hread| | | | |].
  - apply (Hch (Element "ModelledSubgroup" 1%nat
                  [Element "clash" 2%nat [Element "dist" 3%nat []]])
               (Element "clash" 2%nat [Element "dist" 3%nat []]));
      vm_compute; repeat constructor.
  - apply (Hch (Element "programs" 4%nat [Element "program" 5%nat []])
               (Element "program" 5%nat []));
      vm_compute; repeat constructor.
  - destruct (Hrow "programs" 4%nat) as (i & _ & Hskip & _).
    + vm_compute. repeat constructor.
    + apply Hskip. by left.
  - rewrite (Hkeys 0%nat "pdbid");
      [reflexivity|simpl; lia|discriminate|discriminate|discriminate].
  - destruct (Hrow "ModelledSubgroup" 1%nat) as (i & Hi & _ & Hkept).
    + vm_compute. repeat constructor.
    + destruct Hkept as (registered & Hreg & Hd);
        [discriminate|vm_compute; discriminate|].
      vm_compute in Hi. destruct i as [|i]; [|destruct i; discriminate Hi].
      vm_compute in Hreg. injection Hreg as <-. rewrite Hd. vm_compute. reflexivity.
Defined.

(** C3, as it is stated, fails: [read] completes on the sample report and
    the attribute dictionary of the top-level [Entry] element has changed
    (it has received the ordinal). *)
Lemma read_changes_element_attrib :
  ∃ st' r,
    read set_iter_insertion sample_reader sample_store sample_doc = Ok (st', Some r) ∧
    Element "Entry" 0%nat [] ∈ children sample_doc ∧
    sample_store !! 0%nat = Some [("pdbid", VStr "1ABC")] ∧
    st' !! 0%nat = Some [("pdbid", VStr "1ABC"); ("ordinal", VInt 1)].
Proof.
  eexists _, _. split_and!; [vm_compute; reflexivity | by left | done | done].
Qed.

(** C4: when the rows of a category that is not skipped have a column
    without a rank in the attribute order table (a key of a row, or the
    ordinal the builder adds), [__buildCif] raises [KeyError] and returns no
    container.  [read] is [__buildCif] on the rows of [__extract]. *)
Theorem unranked_column_raises set_iter self st rD key rows registered l k :
  (∀ atS, set_iter atS ≡ₚ atS) →
  (key, rows) ∈ rD →
  aget (attribD self) key = Some registered → registered ≠ [] → key ≠ "programs" →
  l ∈ rows →
  k ∈ akeys (deref st l) ∨ ("ordinal" ∈ registered ∧ k = "ordinal") →
  aget (atOrdD self) k = None →
  ∃ k', buildCif set_iter self st rD = Raise (KeyError k').
Proof.
  intros Hperm Hin Hreg Hne Hprog Hl Hk Hrank.
  destruct (build_categories_unranked set_iter self Hperm rD (st, DataContainer "vrpt")
              key rows registered l k) as [k' Hk']; try done.
  exists k'. unfold buildCif, build_categories. by rewrite Hk'.
Qed.

Lemma unranked_column_raises_witness :
  ∃ k', read set_iter_insertion sample_reader unranked_store summary_doc
        = Raise (KeyError k').
Proof.
  apply (unranked_column_raises set_iter_insertion sample_reader
           (extract unranked_store summary_doc).2 (extract unranked_store summary_doc).1
           "Entry" [0%nat] ["pdbid"; "ordinal"] 0%nat "XMLcreationDate").
  - intros atS. reflexivity.
  - vm_compute. by left.
  - vm_compute. reflexivity.
  - discriminate.
  - discriminate.
  - by left.
  - left. vm_compute. right. by left.
  - vm_compute. reflexivity.
Defined.

(** C5: in a category whose registered attribute list contains [ordinal],
    the ordinal column holds 1 for the first row, 2 for the second, and so
    on to the number of rows. *)
Theorem ordinal_column set_iter self st xrt st1 cur key aCat registered :
  (∀ atS, set_iter atS ≡ₚ atS) →
  wf_doc st xrt →
  build_categories set_iter self (extract st xrt).2 (extract st xrt).1 = Ok (st1, cur) →
  getObj cur key = Some aCat →
  aget (attribD self) key = Some registered → "ordinal" ∈ registered →
  getRowCount aCat = length (rows_of (extract st xrt).1 key) ∧
  (∀ i, (i < getRowCount aCat)%nat →
        getValue aCat "ordinal" i = Ok (Some (VInt (Z.of_nat i + 1)))) ∧
  (∀ i l, rows_of (extract st xrt).1 key !! i = Some l →
          aget (deref st1 l) "ordinal" = Some (VInt (Z.of_nat i + 1))).
Proof.
  intros Hperm Hwf Hbuild Hget Hreg Hord.
  destruct (read_built_category _ _ _ _ _ _ _ _ Hwf Hbuild Hget)
    as (sa & sb & Hem & Hnd & Hval & Hsame).
  destruct (emits_ordinal _ _ Hperm _ _ _ _ _ _ Hem Hreg Hord Hnd Hval) as [Hcount Hcol].
  split_and!; [done| |].
  - intros i Hi. apply Hcol. by rewrite <-Hcount.
  - intros i l Hi. unfold deref. rewrite Hsame by (by eapply list_elem_of_lookup_2).
    fold (deref sb l). rewrite (emits_rows _ _ _ _ _ _ _ _ _ _ Hem Hreg Hnd Hval Hi).
    rewrite bool_decide_eq_true_2 by done. apply normalize_row_ordinal.
Qed.

Lemma ordinal_column_witness :
  ∃ aCat,
    getRowCount aCat = 1%nat ∧ getValue aCat "ordinal" 0 = Ok (Some (VInt 1)).
Proof.
  assert (build_categories set_iter_insertion sample_reader
            (extract sample_store sample_doc).2 (extract sample_store sample_doc).1
          = Ok (_, _)) as Hbuild by (vm_compute; reflexivity).
  match type of Hbuild with
  | _ = Ok (_, ?cur) =>
      assert (getObj cur "clash" = Some _) as Hget by (vm_compute; reflexivity)
  end.
  assert (aget (attribD sample_reader) "clash" = Some _) as Hreg
    by (vm_compute; reflexivity).
  eexists.
  destruct (ordinal_column _ _ _ _ _ _ _ _ _ set_iter_insertion_perm sample_doc_wf
              Hbuild Hget Hreg) as (Hcount & Hcol & _); [by left|].
  split; [exact Hcount|]. apply (Hcol 0%nat). rewrite Hcount. vm_compute. lia.
Defined.

(** C6: the row of a child of a [ModelledSubgroup] element holds, for each
    key, the parent's value if the key is a cardinal attribute that the
    parent has, and the child's own value otherwise; the row of a grandchild
    is the grandchild's attribute dictionary itself, unchanged.  For a child
    with [{y: "2"}] under a parent with [{x: "1"}], [x] cardinal, the row is
    [{y: "2", x: "1"}]. *)
Theorem child_and_grandchild_rows st xrt el ch :
  wf_doc st xrt → el ∈ children xrt → ch ∈ children el →
  (tag el = "ModelledSubgroup" →
   ∃ l, l ∈ rows_of (extract st xrt).1 (tag ch) ∧ (length st ≤ l)%nat ∧
        ∀ k, aget (deref (extract st xrt).2 l) k
             = match (if decide (k ∈ atL) then aget (deref st (attrib el)) k else None) with
               | Some v => Some v
               | None => aget (deref st (attrib ch)) k
               end) ∧
  (∀ gch, gch ∈ children ch →
          attrib gch ∈ rows_of (extract st xrt).1 (tag gch) ∧
          deref (extract st xrt).2 (attrib gch) = deref st (attrib gch)) ∧
  (∀ x y, x ∈ atL → y ≠ x →
          child_row [(y, VStr "2")] [(x, VStr "1")] = [(y, VStr "2"); (x, VStr "1")]).
Proof.
  intros Hwf Hel Hch. split_and!.
  - intros Htag. destruct (extract_child_row _ _ _ _ Hwf Hel Hch) as (l & Hl & Hfresh & Hd).
    exists l. split_and!; [done|done|]. intros k.
    rewrite Hd, decide_True by done. apply child_row_lookup.
  - intros gch Hgch. by eapply extract_own_row, flatten_grandchild.
  - intros x y Hx Hy. unfold child_row.
    assert (restrict [(y, VStr "2")] (akeys [(y, VStr "2")]) = [(y, VStr "2")]) as ->.
    { unfold restrict. simpl. by rewrite decide_True. }
    assert (restrict [(x, VStr "1")] atL = [(x, VStr "1")]) as ->.
    { unfold atL in Hx.
      repeat (apply elem_of_cons in Hx as [->|Hx]; [by vm_compute|]).
      by apply elem_of_nil in Hx. }
    unfold aupdate. simpl. by rewrite decide_False.
Qed.

Lemma child_and_grandchild_rows_witness :
  ∃ l, l ∈ rows_of (extract sample_store sample_doc).1 "clash" ∧
       aget (deref (extract sample_store sample_doc).2 l) "chain" = Some (VStr "A") ∧
       aget (deref (extract sample_store sample_doc).2 l) "atom" = Some (VStr "CA") ∧
       3%nat ∈ rows_of (extract sample_store sample_doc).1 "dist" ∧
       child_row [("y", VStr "2")] [("chain", VStr "1")]
       = [("y", VStr "2"); ("chain", VStr "1")].
Proof.
  destruct (child_and_grandchild_rows sample_store sample_doc
              (Element "ModelledSubgroup" 1%nat
                 [Element "clash" 2%nat [Element "dist" 3%nat []]])
              (Element "clash" 2%nat [Element "dist" 3%nat []]) sample_doc_wf)
    as (Hchild & Hgch & Hex).
  - vm_compute. right. by left.
  - by left.
  - destruct (Hchild eq_refl) as (l & Hl & _ & Hrow). exists l. split_and!.
    + exact Hl.
    + rewrite Hrow. vm_compute. reflexivity.
    + rewrite Hrow. vm_compute. reflexivity.
    + apply (Hgch (Element "dist" 3%nat [])). by left.
    + apply Hex; [vm_compute; right; by left | discriminate].
Defined.

(** C7: the three lookups fall back on the name they are given: a category
    whose name is not in the category table keeps its name, a column whose
    (category, attribute) pair is not in the attribute table keeps its name,
    and a provenance token that is not in the decode table is kept; none of
    these raises. *)
Theorem identity_fallback set_iter self st rD st1 cur cur' key c :
  build_categories set_iter self st rD = Ok (st1, cur) →
  rename_categories self cur = Ok cur' →
  getObj cur key = Some c →
  (∀ catName, aget (categories (schemaMap_ self)) catName = None →
              map_category self catName = catName) ∧
  (∀ catName atName, aget (attributes (schemaMap_ self)) (catName, atName) = None →
                     map_attribute self catName atName = Ok atName) ∧
  (∀ ky, aget (atMap self) ky = None → decode_token self ky = ky) ∧
  (∃ c', getObj cur' key = Some c' ∧
         (aget (categories (schemaMap_ self)) key = None → cname c' = cname c) ∧
         (∀ i a, attributeNameList c !! i = Some a →
                 aget (attributes (schemaMap_ self)) (key, a) = None →
                 attributeNameList c' !! i = Some a)) ∧
  (∀ pV, Forall (λ ky, aget (atMap self) ky = None) (map strip (py_split "," pV)) →
         decode_properties self pV = py_join "," (map strip (py_split "," pV))).
Proof.
  intros Hbuild Hren Hget.
  assert (∀ catName, aget (categories (schemaMap_ self)) catName = None →
                     map_category self catName = catName) as Hcat.
  { intros catName Habs. unfold map_category. by rewrite Habs. }
  assert (∀ catName atName, aget (attributes (schemaMap_ self)) (catName, atName) = None →
                            map_attribute self catName atName = Ok atName) as Hat.
  { intros catName atName Habs. unfold map_attribute. by rewrite Habs. }
  split_and!; [done|done| | |].
  - intros ky Habs. unfold decode_token. by rewrite Habs.
  - pose proof (build_categories_NoDup _ _ _ _ _ Hbuild (NoDup_nil_2)) as Hnd.
    destruct (rename_categories_spec _ _ _ Hnd Hren) as (_ & Hfwd & _).
    destruct (Hfwd _ _ Hget) as (c' & Hget' & Hname & Hattrs & _).
    exists c'. split_and!; [done| |].
    + intros Habs. rewrite Hname, Hcat by done.
      destruct (build_categories_getObj _ _ _ _ _ _ _ Hbuild Hget)
        as [?|(_ & rows & _ & sa & sb & _ & _ & Hem & _)]; [done|].
      symmetry. by eapply emits_cname.
    + intros i a Hi Habs.
      destruct (Forall2_lookup_l _ _ _ _ _ Hattrs Hi) as (a' & Hi' & Ha').
      rewrite Hat in Ha' by done. by simplify_eq.
  - intros pV Habs. unfold decode_properties. by rewrite decode_tokens_absent.
Qed.

Lemma identity_fallback_witness :
  map_category sample_reader "clash" = "clash" ∧
  map_attribute sample_reader "clash" "cid" = Ok "cid" ∧
  decode_token sample_reader "bonds_rmsz" = "bonds_rmsz" ∧
  decode_properties sample_reader "bonds_rmsz, angles_rmsz" = "bonds_rmsz,angles_rmsz" ∧
  decode_properties sample_reader (chr 0xA0 +:+ "bonds_rmsz," +:+ chr 0x3000 +:+ "angles_rmsz")
  = "bonds_rmsz,angles_rmsz" ∧
  ∃ cur' c', getObj cur' "clash" = Some c' ∧ cname c' = "clash" ∧
             attributeNameList c' !! 5%nat = Some "cid".
Proof.
  assert (build_categories set_iter_insertion sample_reader
            (extract sample_store sample_doc).2 (extract sample_store sample_doc).1
          = Ok (_, _)) as Hbuild by (vm_compute; reflexivity).
  match type of Hbuild with
  | _ = Ok (_, ?cur) =>
      assert (rename_categories sample_reader cur = Ok _) as Hren
        by (vm_compute; reflexivity);
      assert (getObj cur "clash" = Some _) as Hget by (vm_compute; reflexivity)
  end.
  destruct (identity_fallback _ _ _ _ _ _ _ _ _ Hbuild Hren Hget)
    as (Hcat & Hat & Htok & (c' & Hget' & Hname & Hcols) & Hprops).
  split_and!.
  - apply Hcat. vm_compute. reflexivity.
  - apply Hat. vm_compute. reflexivity.
  - apply Htok. vm_compute. reflexivity.
  - rewrite Hprops; [vm_compute; reflexivity|].
    vm_compute. repeat constructor.
  - rewrite Hprops; [vm_compute; reflexivity|].
    vm_compute. repeat constructor.
  - eexists _, c'. split_and!; [exact Hget'| |].
    + rewrite Hname; [vm_compute; reflexivity|]. vm_compute. reflexivity.
    + apply Hcols; vm_compute; reflexivity.
Defined.

(** C8: the columns of a category are renamed by the entries of the
    attribute table for the name under which the rows were collected (the
    tag) and the column's own name: the column at a position becomes the
    [at] field of the entry for (tag, column) when the table has one, and
    stays as it is otherwise.  Each column name is translated once, and the
    category is given its new name, the entry of the category table for the
    tag, by the same step, after the columns.  No entry for another category
    name, the new one included, is read. *)
Theorem columns_renamed_by_original_names set_iter self st rD st1 cur cur' key c' :
  build_categories set_iter self st rD = Ok (st1, cur) →
  rename_categories self cur = Ok cur' →
  getObj cur' key = Some c' →
  ∃ c rows,
    (key, rows) ∈ rD ∧ getObj cur key = Some c ∧ cname c = key ∧
    cname c' = map_category self key ∧
    cname c' = default key (aget (categories (schemaMap_ self)) key) ∧
    Forall2 (λ a a', map_attribute self key a = Ok a')
      (attributeNameList c) (attributeNameList c') ∧
    Forall2 (λ a a', match aget (attributes (schemaMap_ self)) (key, a) with
                     | Some entry => aget entry "at" = Some a'
                     | None => a' = a
                     end)
      (attributeNameList c) (attributeNameList c') ∧
    data c' = data c ∧
    ∀ self',
      (∀ a, aget (attributes (schemaMap_ self')) (key, a)
            = aget (attributes (schemaMap_ self)) (key, a)) →
      Forall2 (λ a a', map_attribute self' key a = Ok a')
        (attributeNameList c) (attributeNameList c').
Proof.
  intros Hbuild Hren Hget'.
  pose proof (build_categories_NoDup _ _ _ _ _ Hbuild (NoDup_nil_2)) as Hnd.
  destruct (rename_categories_spec _ _ _ Hnd Hren) as (_ & _ & Hback).
  destruct (Hback _ _ Hget') as (c & Hget & Hname & Hattrs & Hdata).
  destruct (build_categories_getObj _ _ _ _ _ _ _ Hbuild Hget)
    as [?|(rD1 & rows & rD2 & sa & sb & -> & _ & Hem & _)]; [done|].
  exists c, rows. split_and!; try done.
  - apply elem_of_app. right. by left.
  - by eapply emits_cname.
  - eapply Forall2_impl; [exact Hattrs|].
    intros a a'. unfold map_attribute, getitem.
    destruct (aget (attributes (schemaMap_ self)) (key, a)) as [entry|].
    + destruct (aget entry "at"); [by intros [= ->] | done].
    + by intros [= ->].
  - intros self' Hsame. eapply Forall2_impl; [exact Hattrs|].
    intros a a'. unfold map_attribute. by rewrite Hsame.
Qed.

Lemma columns_renamed_by_original_names_witness :
  ∃ cur' c' p',
    getObj cur' "ModelledSubgroup" = Some c' ∧
    cname c' = "pdbx_vrpt_instance_results" ∧
    attributeNameList c' !! 1%nat = Some "model" ∧
    attributeNameList c' !! 2%nat = Some "auth_asym_id" ∧
    attributeNameList c' !! 4%nat = Some "PDB_ins_code" ∧
    getObj cur' "program" = Some p' ∧
    cname p' = "pdbx_vrpt_software" ∧
    aget (attributes (schemaMap_ sample_reader)) ("pdbx_vrpt_software", "name")
    = Some [("at", "software_name")] ∧
    attributeNameList p' !! 1%nat = Some "name".
Proof.
  assert (build_categories set_iter_insertion sample_reader
            (extract sample_store sample_doc).2 (extract sample_store sample_doc).1
          = Ok (_, _)) as Hbuild by (vm_compute; reflexivity).
  match type of Hbuild with
  | _ = Ok (_, ?cur) =>
      assert (rename_categories sample_reader cur = Ok _) as Hren
        by (vm_compute; reflexivity)
  end.
  match type of Hren with
  | _ = Ok ?cur' =>
      assert (getObj cur' "ModelledSubgroup" = Some _) as Hget' by (vm_compute; reflexivity);
      assert (getObj cur' "program" = Some _) as Hgetp' by (vm_compute; reflexivity)
  end.
  destruct (columns_renamed_by_original_names _ _ _ _ _ _ _ _ _ Hbuild Hren Hget')
    as (c & rows & _ & Hget & _ & _ & Hname & _ & Hcols & _).
  destruct (columns_renamed_by_original_names _ _ _ _ _ _ _ _ _ Hbuild Hren Hgetp')
    as (p & prows & _ & Hgetp & _ & _ & Hpname & _ & Hpcols & _).
  vm_compute in Hget. injection Hget as <-.
  vm_compute in Hgetp. injection Hgetp as <-.
  destruct (Forall2_lookup_l _ _ _ 1%nat "model" Hcols eq_refl) as (a1 & H1 & Ha1).
  destruct (Forall2_lookup_l _ _ _ 2%nat "chain" Hcols eq_refl) as (a2 & H2 & Ha2).
  destruct (Forall2_lookup_l _ _ _ 4%nat "icode" Hcols eq_refl) as (a4 & H4 & Ha4).
  destruct (Forall2_lookup_l _ _ _ 1%nat "name" Hpcols eq_refl) as (b1 & Hb1 & Hb1').
  vm_compute in Ha1, Ha2, Ha4, Hb1'.
  injection Ha2 as <-. injection Ha4 as <-. injection Hb1' as <-. subst a1.
  eexists _, _, _. split_and!; [exact Hget'| |exact H1|exact H2|exact H4|exact Hgetp'| | |exact Hb1].
  - rewrite Hname. vm_compute. reflexivity.
  - rewrite Hpname. vm_compute. reflexivity.
  - vm_compute. reflexivity.
Defined.

(** C9: the columns of a category are the keys of its rows, each once; every
    one has a rank; and a column of lower rank stands before a column of
    higher rank.  The renamed column list keeps the positions. *)
Theorem columns_in_rank_order set_iter self st xrt st1 cur cur' key c' :
  (∀ atS, set_iter atS ≡ₚ atS) →
  wf_doc st xrt →
  build_categories set_iter self (extract st xrt).2 (extract st xrt).1 = Ok (st1, cur) →
  rename_categories self cur = Ok cur' →
  getObj cur' key = Some c' →
  ∃ srtAtL,
    Forall2 (λ a a', map_attribute self key a = Ok a') srtAtL (attributeNameList c') ∧
    NoDup srtAtL ∧
    (∀ a, a ∈ srtAtL ↔
          ∃ l, l ∈ rows_of (extract st xrt).1 key ∧ a ∈ akeys (deref st1 l)) ∧
    (∀ a, a ∈ srtAtL → is_Some (aget (atOrdD self) a)) ∧
    (∀ i j c1 c2 r1 r2,
       srtAtL !! i = Some c1 → srtAtL !! j = Some c2 →
       aget (atOrdD self) c1 = Some r1 → aget (atOrdD self) c2 = Some r2 →
       r1 < r2 → (i < j)%nat).
Proof.
  intros Hperm Hwf Hbuild Hren Hget'.
  pose proof (build_categories_NoDup _ _ _ _ _ Hbuild (NoDup_nil_2)) as Hnd.
  destruct (rename_categories_spec _ _ _ Hnd Hren) as (_ & _ & Hback).
  destruct (Hback _ _ Hget') as (c & Hget & _ & Hattrs & _).
  destruct (read_built_category _ _ _ _ _ _ _ _ Hwf Hbuild Hget)
    as (sa & sb & Hem & Hndrows & Hval & Hsame).
  destruct (emits_columns _ _ Hperm _ _ _ _ _ Hem) as (Hndcols & Hranked & _ & Hord).
  exists (attributeNameList c). split_and!; try done.
  intros a. rewrite (emits_columns_rows _ _ Hperm _ _ _ _ _ Hem Hndrows Hval).
  split; intros (l & Hl & Ha); exists l; (split; [done|]);
    unfold deref in *; [by rewrite Hsame | by rewrite <-Hsame].
Qed.

Lemma columns_in_rank_order_witness :
  ∃ cur' c' srtAtL,
    getObj cur' "clash" = Some c' ∧
    attributeNameList c' = ["ordinal"; "model"; "chain"; "resnum"; "atom"; "cid"] ∧
    Forall2 (λ a a', map_attribute sample_reader "clash" a = Ok a')
      srtAtL (attributeNameList c') ∧
    ∀ i j, srtAtL !! i = Some "chain" → srtAtL !! j = Some "atom" → (i < j)%nat.
Proof.
  assert (build_categories set_iter_insertion sample_reader
            (extract sample_store sample_doc).2 (extract sample_store sample_doc).1
          = Ok (_, _)) as Hbuild by (vm_compute; reflexivity).
  match type of Hbuild with
  | _ = Ok (_, ?cur) =>
      assert (rename_categories sample_reader cur = Ok _) as Hren
        by (vm_compute; reflexivity)
  end.
  match type of Hren with
  | _ = Ok ?cur' =>
      assert (getObj cur' "clash" = Some _) as Hget' by (vm_compute; reflexivity)
  end.
  destruct (columns_in_rank_order _ _ _ _ _ _ _ _ _ set_iter_insertion_perm sample_doc_wf
              Hbuild Hren Hget') as (srtAtL & Hattrs & _ & _ & _ & Hord).
  eexists _, _, srtAtL. split_and!; [exact Hget'|vm_compute; reflexivity|exact Hattrs|].
  intros i j Hi Hj.
  apply (Hord i j "chain" "atom" 3 7); [exact Hi|exact Hj|vm_compute; reflexivity..|lia].
Defined.

(** C10: the attributes of a top-level element are carried to its children
    exactly when its tag is [ModelledSubgroup], and then only the eight
    cardinal attributes: the child of any other element gets its own
    attributes and nothing else; under a [ModelledSubgroup] a cardinal
    attribute of the parent is put in the child's row, in place of the
    child's own value if it has one, and every other key keeps the child's
    value. *)
Theorem cardinal_propagation st xrt el ch :
  wf_doc st xrt → el ∈ children xrt → ch ∈ children el →
  (∀ k, k ∈ atL ↔
        k = "altcode" ∨ k = "chain" ∨ k = "ent" ∨ k = "model" ∨
        k = "resname" ∨ k = "resnum" ∨ k = "said" ∨ k = "seq") ∧
  ∃ l, l ∈ rows_of (extract st xrt).1 (tag ch) ∧ (length st ≤ l)%nat ∧
       (tag el ≠ "ModelledSubgroup" →
        ∀ k, aget (deref (extract st xrt).2 l) k = aget (deref st (attrib ch)) k) ∧
       (tag el = "ModelledSubgroup" →
        ∀ k,
          (∀ v, k ∈ atL → aget (deref st (attrib el)) k = Some v →
                aget (deref (extract st xrt).2 l) k = Some v) ∧
          (k ∉ atL ∨ aget (deref st (attrib el)) k = None →
           aget (deref (extract st xrt).2 l) k = aget (deref st (attrib ch)) k)).
Proof.
  intros Hwf Hel Hch. split.
  - intros k. unfold atL. rewrite !elem_of_cons, elem_of_nil. tauto.
  - destruct (extract_child_row _ _ _ _ Hwf Hel Hch) as (l & Hl & Hfresh & Hd).
    exists l. split_and!; [done|done| |].
    + intros Htag k. rewrite Hd, decide_False by done. apply child_row_no_parent.
    + intros Htag k. rewrite Hd, decide_True by done. rewrite child_row_lookup. split.
      * intros v Hk Hv. rewrite decide_True by done. by rewrite Hv.
      * intros [Hk|Hk]; [rewrite decide_False by done; reflexivity|].
        rewrite Hk. destruct (decide (k ∈ atL)); reflexivity.
Qed.

Lemma cardinal_propagation_witness :
  (∃ l, l ∈ rows_of (extract sample_store sample_doc).1 "clash" ∧
        aget (deref sample_store 2%nat) "chain" = Some (VStr "Z") ∧
        aget (deref (extract sample_store sample_doc).2 l) "chain" = Some (VStr "A") ∧
        aget (deref (extract sample_store sample_doc).2 l) "icode" = None) ∧
  (∃ l, l ∈ rows_of (extract sample_store sample_doc).1 "program" ∧
        ∀ k, aget (deref (extract sample_store sample_doc).2 l) k
             = aget (deref sample_store 5%nat) k).
Proof.
  split.
  - destruct (cardinal_propagation sample_store sample_doc
                (Element "ModelledSubgroup" 1%nat
                   [Element "clash" 2%nat [Element "dist" 3%nat []]])
                (Element "clash" 2%nat [Element "dist" 3%nat []]) sample_doc_wf)
      as (_ & l & Hl & _ & _ & Hms).
    + vm_compute. right. by left.
    + by left.
    + exists l. split_and!; [exact Hl|vm_compute; reflexivity| |].
      * apply (Hms eq_refl "chain"); [vm_compute; right; by left|vm_compute; reflexivity].
      * destruct (Hms eq_refl "icode") as [_ Hown]. rewrite Hown; [vm_compute; reflexivity|].
        left. vm_compute. intros Hin.
        repeat (apply elem_of_cons in Hin as [Hin|Hin]; [discriminate|]).
        by apply elem_of_nil in Hin.
  - destruct (cardinal_propagation sample_store sample_doc
                (Element "programs" 4%nat [Element "program" 5%nat []])
                (Element "program" 5%nat []) sample_doc_wf)
      as (_ & l & Hl & _ & Hother & _).
    + vm_compute. right. right. by left.
    + by left.
    + exists l. split; [exact Hl|]. apply Hother. discriminate.
Defined.

(** * Further properties *)

(** ** [__parse] *)

Lemma string_length_app (s t : string) :
  String.length (s ++ t) = (String.length s + String.length t)%nat.
Proof. induction s as [|a s IH]; simpl; [done | by rewrite IH]. Qed.

Lemma drop_string_app (s t : string) : drop_string (String.length s) (s ++ t) = t.
Proof. induction s as [|a s IH]; simpl; [by destruct t | done]. Qed.

Lemma drop_string_split (n : nat) (s : string) : ∃ stem, s = (stem ++ drop_string n s)%string.
Proof.
  revert s. induction n as [|n IH]; intros s.
  - exists EmptyString. by destruct s.
  - destruct s as [|a s]; simpl; [by exists EmptyString|].
    destruct (IH s) as [stem Hs]. exists (String a stem).
    rewrite Hs at 1. reflexivity.
Qed.

(** [s[-n:] == t] for a [t] of [n] characters says that [s] ends with [t]. *)
Lemma py_tail_suffix (s t : string) :
  py_tail (String.length t) s = t ↔ ∃ stem, s = (stem ++ t)%string.
Proof.
  unfold py_tail. split.
  - intros Ht. destruct (drop_string_split (String.length s - String.length t) s) as [stem Hs].
    exists stem. by rewrite Ht in Hs.
  - intros [stem ->]. rewrite string_length_app.
    replace (String.length stem + String.length t - String.length t)%nat
      with (String.length stem) by lia.
    apply drop_string_app.
Qed.

(** X1: [__parse] opens a file with [gzip.open] when its path ends with
    [.gz], and with [open] otherwise; what the opener or the parser raises
    is passed on. *)
Theorem parse_gzip_by_suffix {E handle tree : Type}
    (gzip_open plain_open : string → E + handle) (ET_parse : handle → E + tree)
    (filePath : string) :
  ((∃ stem, filePath = (stem ++ ".gz")%string) →
   parse gzip_open plain_open ET_parse filePath
   = match gzip_open filePath with inl e => inl e | inr ifh => ET_parse ifh end) ∧
  ((¬ ∃ stem, filePath = (stem ++ ".gz")%string) →
   parse gzip_open plain_open ET_parse filePath
   = match plain_open filePath with inl e => inl e | inr ifh => ET_parse ifh end).
Proof.
  unfold parse. split; intros Hsuffix.
  - rewrite bool_decide_eq_true_2; [done|]. by apply (py_tail_suffix filePath ".gz").
  - rewrite bool_decide_eq_false_2; [done|].
    intros Htail. apply Hsuffix. by apply (py_tail_suffix filePath ".gz").
Qed.

Lemma parse_gzip_by_suffix_witness :
  parse (λ p, inr ("gzip:" ++ p)%string) (λ p, inr ("file:" ++ p)%string)
    (λ ifh : string, inr ifh : string + string) "1abc_validation.xml.gz"
  = inr "gzip:1abc_validation.xml.gz" ∧
  parse (λ p, inr ("gzip:" ++ p)%string) (λ p, inr ("file:" ++ p)%string)
    (λ ifh : string, inr ifh : string + string) "1abc_validation.xml.GZ"
  = inr "file:1abc_validation.xml.GZ".
Proof.
  split.
  - rewrite (proj1 (parse_gzip_by_suffix _ _ _ "1abc_validation.xml.gz")); [reflexivity|].
    by exists "1abc_validation.xml".
  - rewrite (proj2 (parse_gzip_by_suffix _ _ _ "1abc_validation.xml.GZ")); [reflexivity|].
    intros Hsuffix. apply (py_tail_suffix "1abc_validation.xml.GZ" ".gz") in Hsuffix.
    vm_compute in Hsuffix. discriminate.
Defined.

(** ** [cnv] *)



(** ** [__extract] *)

Lemma fold_left_fmap_ext {A B C : Type} (f : A → B → A) (f' : A → C → A) (g : C → B)
    (l : list C) (a : A) :
  (∀ a x, f a (g x) = f' a x) → fold_left f (map g l) a = fold_left f' l a.
Proof.
  intros Hfg. revert a. induction l as [|x l IH]; intros a; simpl; [done|].
  by rewrite Hfg, IH.
Qed.

(** X3: [__extract] reads three levels of the document and nothing below:
    the elements under the grandchildren have no effect on the rows. *)
Theorem extract_ignores_deeper_levels st root :
  extract st (prune root) = extract st root.
Proof.
  unfold extract, prune. simpl. apply fold_left_fmap_ext. intros s el.
  unfold extract_el, prune_el. simpl. apply fold_left_fmap_ext. intros s' ch.
  unfold extract_ch, prune_ch. simpl. apply fold_left_fmap_ext. intros s'' gch.
  done.
Qed.

(** X4: the row table of any document has one entry for a tag, and every
    entry has at least one row; so the test for an empty row list in
    [__buildCif] never holds for it. *)
Theorem extract_table_shape st xrt :
  NoDup (akeys (extract st xrt).1) ∧
  ∀ t rows, (t, rows) ∈ (extract st xrt).1 →
            rows ≠ [] ∧ (length rows <? 1)%nat = false ∧ aget (extract st xrt).1 t = Some rows.
Proof.
  destruct (extract_table_ok st xrt) as [Hnd Hrows]. split; [done|].
  intros t rows Hin. split_and!.
  - by eapply Hrows.
  - apply length_lt_1_false. by eapply Hrows.
  - by apply elem_of_aget.
Qed.

Lemma extract_table_shape_witness :
  [6%nat] ≠ [] ∧ aget (extract sample_store sample_doc).1 "clash" = Some [6%nat].
Proof.
  destruct (proj2 (extract_table_shape sample_store sample_doc) "clash" [6%nat])
    as (Hrows & _ & Hget).
  - vm_compute. do 2 right. by left.
  - by split.
Defined.

(** X5: the rows collected under a tag are the rows of the elements with
    that tag at the three levels together, in document order: there are as
    many, and the row at each position has the content that the element at
    that position gives. *)
Theorem rows_in_document_order st xrt t :
  wf_doc st xrt →
  length (rows_of (extract st xrt).1 t)
  = length (filter (λ p, p.1 = t) (flatten xrt)) ∧
  ∀ i l p,
    rows_of (extract st xrt).1 t !! i = Some l →
    filter (λ p, p.1 = t) (flatten xrt) !! i = Some p →
    deref (extract st xrt).2 l = src_dict st p.2.
Proof.
  intros Hwf. pose proof (extract_rows_of st xrt t Hwf) as HF. split.
  - by eapply Forall2_length.
  - intros i l p Hl Hp.
    by destruct (Forall2_lookup_lr _ _ _ _ _ _ HF Hl Hp) as (_ & Hd & _).
Qed.

Lemma rows_in_document_order_witness :
  length (rows_of (extract sample_store sample_doc).1 "clash") = 1%nat ∧
  ∃ l, rows_of (extract sample_store sample_doc).1 "clash" !! 0%nat = Some l ∧
       deref (extract sample_store sample_doc).2 l
       = [("atom", VStr "CA"); ("cid", VStr "7"); ("chain", VStr "A");
          ("model", VStr "1"); ("resnum", VStr "5")].
Proof.
  destruct (rows_in_document_order sample_store sample_doc "clash" sample_doc_wf)
    as [Hlen Hrow].
  split; [rewrite Hlen; vm_compute; reflexivity|].
  eexists. split; [vm_compute; reflexivity|].
  rewrite (Hrow 0%nat 6%nat ("clash", Overlay 2%nat (Some 1%nat)));
    vm_compute; reflexivity.
Defined.

(** ** [__init__] *)

Lemma init_fold_registers (ks : list (string * string)) c a :
  ∀ d : list (string * list string),
    (∃ l, aget (fold_left (λ d key, setdefault_append d key.1 key.2) ks d) c = Some l ∧ a ∈ l)
    ↔ (∃ l, aget d c = Some l ∧ a ∈ l) ∨ (c, a) ∈ ks.
Proof.
  induction ks as [|[c0 a0] ks IH]; intros d; simpl.
  - split; [by left | by intros [?|?%elem_of_nil]].
  - rewrite IH, elem_of_cons. simpl.
    assert ((∃ l, aget (setdefault_append d c0 a0) c = Some l ∧ a ∈ l)
            ↔ (∃ l, aget d c = Some l ∧ a ∈ l) ∨ (c, a) = (c0, a0)) as Hstep.
    { rewrite aget_setdefault_append. destruct (decide (c0 = c)) as [->|Hne].
      - split.
        + intros (l & Hl & Ha). simplify_eq.
          apply elem_of_app in Ha as [Ha|Ha%list_elem_of_singleton]; [|subst; by right].
          left. destruct (aget d c) as [l0|]; [eauto | by apply elem_of_nil in Ha].
        + intros [(l & Hl & Ha)|Heq]; eexists; (split; [done|]).
          * rewrite Hl. simpl. apply elem_of_app. by left.
          * simplify_eq. apply elem_of_app. right. by left.
      - split; [by left|]. intros [?|?]; [done | by simplify_eq]. }
    rewrite Hstep. tauto.
Qed.

(** X6: [__init__] registers under a category exactly the attributes that
    the schema map pairs with it: an attribute is in the list of a category
    if and only if the pair is a key of the attribute table. *)
Theorem init_registers_attributes sm ord am c a :
  (∃ registered, aget (attribD (init sm ord am)) c = Some registered ∧ a ∈ registered)
  ↔ (c, a) ∈ akeys (attributes sm).
Proof.
  unfold init. simpl. rewrite init_fold_registers. split; [|by right].
  intros [(l & Hl & _)|?]; [done | done].
Qed.

Lemma init_registers_attributes_witness :
  ∃ registered, aget (attribD sample_reader) "clash" = Some registered ∧ "atom" ∈ registered.
Proof.
  apply (init_registers_attributes sample_schema sample_order sample_atMap "clash" "atom").
  vm_compute. do 7 right. by left.
Defined.

(** ** The first loop of [__buildCif] *)

(** X7: every category in the container after the first loop is registered
    under its own name, which is the tag of an entry of the row table with
    rows, has a registered attribute list and is not [programs]; it has one
    row of cells for each collected row. *)
Theorem built_categories_registered set_iter self st rD st1 cur key aCat :
  build_categories set_iter self st rD = Ok (st1, cur) →
  getObj cur key = Some aCat →
  cname aCat = key ∧ key ≠ "programs" ∧
  (∃ registered, aget (attribD self) key = Some registered ∧ registered ≠ []) ∧
  ∃ rows, (key, rows) ∈ rD ∧ rows ≠ [] ∧ getRowCount aCat = length rows.
Proof.
  intros Hbuild Hget. unfold build_categories in Hbuild.
  destruct (build_categories_getObj _ _ _ _ _ _ _ Hbuild Hget)
    as [?|(rD1 & rows & rD2 & sa & sb & -> & _ & Hem & _)]; [done|].
  pose proof (emits_cname _ _ _ _ _ _ _ Hem) as Hname.
  destruct Hem as (registered & sD & Hreg & Hne & Hrows & Hprog & _ & _ & ->).
  split_and!; [done|done|by exists registered|].
  exists rows. split_and!; [|done|].
  - apply elem_of_app. right. by left.
  - unfold getRowCount. simpl. by rewrite !length_map.
Qed.

Lemma built_categories_registered_witness :
  ∃ aCat, cname aCat = "clash" ∧ getRowCount aCat = 1%nat.
Proof.
  assert (build_categories set_iter_insertion sample_reader
            (extract sample_store sample_doc).2 (extract sample_store sample_doc).1
          = Ok (_, _)) as Hbuild by (vm_compute; reflexivity).
  match type of Hbuild with
  | _ = Ok (_, ?cur) =>
      assert (getObj cur "clash" = Some _) as Hget by (vm_compute; reflexivity)
  end.
  destruct (built_categories_registered _ _ _ _ _ _ _ _ Hbuild Hget)
    as (Hname & _ & _ & rows & _ & _ & Hcount).
  eexists. split; [exact Hname|]. vm_compute. reflexivity.
Defined.

(** ** The provenance step *)

Lemma foldM_Raise {A B : Type} (P : A → Prop) (f : A → B → result A) (l : list B) :
  (∀ a x a', x ∈ l → P a → f a x = Ok a' → P a') →
  ∀ a e, P a → foldM f l a = Raise e → ∃ a' x, P a' ∧ x ∈ l ∧ f a' x = Raise e.
Proof.
  induction l as [|x l IH]; intros Hstep a e Ha Hfold; simpl in Hfold; [done|].
  destruct (f a x) as [a1|e1] eqn:Hx; simpl in Hfold.
  - destruct (IH (λ b y b' Hy, Hstep b y b' (list_elem_of_further _ _ _ Hy)) a1 e)
      as (a' & y & Ha' & Hy & Hraise); [|done|].
    + eapply Hstep; [by left|done|done].
    + exists a', y. split_and!; [done|by right|done].
  - simplify_eq. exists a, x. split_and!; [done|by left|done].
Qed.

Section ProvenanceRows.
Variable self : reader.

(** One step of the loop over the rows, on a table with a [properties]
    column: the cell is a string and is replaced by its decoded value, or
    the step raises [AttributeError]. *)
Lemma provenance_row_cases c ind j :
  rectangular c → index_of "properties" (attributeNameList c) = Some ind →
  (j < length (data c))%nat →
  (provenance_row self c j = Raise AttributeError ∧
   ∃ row, data c !! j = Some row ∧ ∀ s, row !! ind ≠ Some (Some (VStr s))) ∨
  ∃ row s,
    data c !! j = Some row ∧ row !! ind = Some (Some (VStr s)) ∧
    provenance_row self c j
    = Ok {| cname := cname c;
            attributeNameList := attributeNameList c;
            data := <[j := <[ind := Some (VStr (decode_properties self s))]> row]> (data c) |}.
Proof.
  intros Hrect Hind Hj.
  destruct (lookup_lt_is_Some_2 _ _ Hj) as [row Hrow].
  assert (ind < length row)%nat as Hlt.
  { unfold rectangular in Hrect. rewrite Forall_forall in Hrect.
    rewrite (Hrect row) by (by eapply list_elem_of_lookup_2).
    clear -Hind. revert ind Hind.
    induction (attributeNameList c) as [|a l IH]; intros ind Hind; simpl in *; [done|].
    case_decide; simplify_eq; [lia|].
    destruct (index_of "properties" l) as [i|]; simpl in Hind; simplify_eq.
    specialize (IH i eq_refl). lia. }
  destruct (lookup_lt_is_Some_2 _ _ Hlt) as [cell Hcell].
  assert (provenance_row self c j
          = match cell with
            | Some (VStr s) =>
                Ok {| cname := cname c;
                      attributeNameList := attributeNameList c;
                      data := <[j := <[ind := Some (VStr (decode_properties self s))]> row]>
                                (data c) |}
            | _ => Raise AttributeError
            end) as Hcalc.
  { unfold provenance_row, getValue, setValue. rewrite Hrow, Hind, Hcell. simpl.
    by destruct cell as [[s|n]|]. }
  rewrite Hcalc. destruct cell as [[s|n]|].
  - right. by exists row, s.
  - left. split; [done|]. exists row. split; [done|]. intros s. by rewrite Hcell.
  - left. split; [done|]. exists row. split; [done|]. intros s. by rewrite Hcell.
Qed.

Lemma rectangular_insert_row c j ind cell row :
  rectangular c → data c !! j = Some row →
  rectangular {| cname := cname c;
                 attributeNameList := attributeNameList c;
                 data := <[j := <[ind := cell]> row]> (data c) |}.
Proof.
  unfold rectangular. simpl. intros Hrect Hrow.
  apply Forall_insert; [done|]. rewrite length_insert.
  rewrite Forall_forall in Hrect. apply Hrect. by eapply list_elem_of_lookup_2.
Qed.

(** The loop over rows [js], each once: what it leaves when it does not
    raise. *)
Lemma provenance_fold_rows ind js : ∀ c c',
  rectangular c → index_of "properties" (attributeNameList c) = Some ind →
  NoDup js → Forall (λ j, (j < length (data c))%nat) js →
  foldM (provenance_row self) js c = Ok c' →
  rectangular c' ∧ cname c' = cname c ∧ attributeNameList c' = attributeNameList c ∧
  length (data c') = length (data c) ∧
  (∀ j, j ∈ js →
        ∃ row s, data c !! j = Some row ∧ row !! ind = Some (Some (VStr s)) ∧
                 data c' !! j
                 = Some (<[ind := Some (VStr (decode_properties self s))]> row)) ∧
  (∀ j, j ∉ js → data c' !! j = data c !! j).
Proof.
  induction js as [|j js IH]; intros c c' Hrect Hind Hnd Hlt Hfold; simpl in Hfold.
  - simplify_eq. split_and!; try done. by intros j ?%elem_of_nil.
  - apply NoDup_cons in Hnd as [Hj Hnd]. apply Forall_cons in Hlt as [Hjlt Hlt].
    destruct (provenance_row_cases c ind j Hrect Hind Hjlt)
      as [[Hraise _]|(row & s & Hrow & Hcell & Hstep)].
    { rewrite Hraise in Hfold. done. }
    rewrite Hstep in Hfold. simpl in Hfold.
    apply IH in Hfold as (Hrect' & Hname & Hattrs & Hlen & Hin & Hout);
      [|by apply rectangular_insert_row|done|done|simpl; by rewrite length_insert].
    simpl in *. rewrite length_insert in Hlen.
    split_and!; try done.
    + intros k [->|Hk]%elem_of_cons.
      * exists row, s. split_and!; [done|done|].
        rewrite (Hout j Hj). by apply list_lookup_insert_eq.
      * destruct (Hin k Hk) as (row' & s' & Hrow' & Hcell' & Hk').
        exists row', s'. split_and!; [|done|done].
        rewrite <-Hrow'. symmetry. apply list_lookup_insert_ne. by intros ->.
    + intros k Hk. apply not_elem_of_cons in Hk as [Hne Hk].
      rewrite (Hout k Hk). by apply list_lookup_insert_ne.
Qed.

(** The loop raises nothing but [AttributeError]. *)
Lemma provenance_fold_error ind js : ∀ c e,
  rectangular c → index_of "properties" (attributeNameList c) = Some ind →
  Forall (λ j, (j < length (data c))%nat) js →
  foldM (provenance_row self) js c = Raise e → e = AttributeError.
Proof.
  induction js as [|j js IH]; intros c e Hrect Hind Hlt Hfold; simpl in Hfold; [done|].
  apply Forall_cons in Hlt as [Hjlt Hlt].
  destruct (provenance_row_cases c ind j Hrect Hind Hjlt)
    as [[Hraise _]|(row & s & Hrow & Hcell & Hstep)].
  { rewrite Hraise in Hfold. simpl in Hfold. by simplify_eq. }
  rewrite Hstep in Hfold. simpl in Hfold.
  eapply IH in Hfold; [done|by apply rectangular_insert_row|done|].
  simpl. by rewrite length_insert.
Qed.

(** A row whose [properties] cell is not a string makes the loop raise. *)
Lemma provenance_fold_missing ind i row js : ∀ c,
  rectangular c → index_of "properties" (attributeNameList c) = Some ind →
  Forall (λ j, (j < length (data c))%nat) js →
  i ∈ js → data c !! i = Some row → (∀ s, row !! ind ≠ Some (Some (VStr s))) →
  foldM (provenance_row self) js c = Raise AttributeError.
Proof.
  induction js as [|j js IH]; intros c Hrect Hind Hlt Hi Hrow Hcell; simpl.
  - by apply elem_of_nil in Hi.
  - apply Forall_cons in Hlt as [Hjlt Hlt].
    destruct (provenance_row_cases c ind j Hrect Hind Hjlt)
      as [[Hraise _]|(row' & s & Hrow' & Hcell' & Hstep)].
    { by rewrite Hraise. }
    rewrite Hstep. simpl.
    assert (i ≠ j) as Hne.
    { intros ->. simplify_eq. by eapply Hcell. }
    apply IH; [by apply rectangular_insert_row|done| | | |done].
    + simpl. by rewrite length_insert.
    + apply elem_of_cons in Hi as [?|?]; [done|done].
    + simpl. rewrite list_lookup_insert_ne; [done|]. by intros ->.
Qed.
End ProvenanceRows.

(** ** Tables *)

Lemma DataCategory_rectangular name attrs (rowDs : list dict) :
  rectangular (DataCategory name attrs rowDs).
Proof.
  unfold rectangular, DataCategory. simpl. apply Forall_forall.
  intros row Hrow. rewrite list_elem_of_In in Hrow. apply in_map_iff in Hrow as (d & <- & _).
  by rewrite length_map.
Qed.

Lemma emits_rectangular set_iter self st key rows st' aCat :
  emits set_iter self st key rows st' aCat → rectangular aCat ∧ data aCat ≠ [].
Proof.
  intros (registered & sD & _ & _ & Hrows & _ & _ & _ & ->). split.
  - apply DataCategory_rectangular.
  - simpl. by destruct rows.
Qed.

Lemma renamed_rectangular self key c c' :
  renamed self key c c' → rectangular c → rectangular c'.
Proof.
  intros (_ & Hattrs & Hdata). unfold rectangular. rewrite Hdata.
  by rewrite (Forall2_length _ _ _ Hattrs).
Qed.

Lemma built_renamed_rectangular set_iter self st rD st1 cur cur' key c' :
  build_categories set_iter self st rD = Ok (st1, cur) →
  rename_categories self cur = Ok cur' →
  getObj cur' key = Some c' →
  rectangular c' ∧ data c' ≠ [].
Proof.
  intros Hbuild Hren Hget'.
  pose proof (build_categories_NoDup _ _ _ _ _ Hbuild (NoDup_nil_2)) as Hnd.
  destruct (rename_categories_spec _ _ _ Hnd Hren) as (_ & _ & Hback).
  destruct (Hback _ _ Hget') as (c & Hget & Hrenamed).
  destruct (build_categories_getObj _ _ _ _ _ _ _ Hbuild Hget)
    as [?|(rD1 & rows & rD2 & sa & sb & _ & _ & Hem & _)]; [done|].
  destruct (emits_rectangular _ _ _ _ _ _ _ Hem) as [Hrect Hdata]. split.
  - by eapply renamed_rectangular.
  - destruct Hrenamed as (_ & _ & ->). done.
Qed.

(** What the provenance step returns when it returns a container. *)
Lemma map_provenance_result self cur l :
  (∀ catObj, getObj cur "program" = Some catObj → rectangular catObj) →
  map_provenance self cur = Ok (Some l) →
  ∃ catObj catObj' ind,
    l = [putObj cur "program" catObj'] ∧
    getObj cur "program" = Some catObj ∧
    index_of "properties" (attributeNameList catObj) = Some ind ∧
    rectangular catObj' ∧
    cname catObj' = cname catObj ∧
    attributeNameList catObj' = attributeNameList catObj ∧
    length (data catObj') = length (data catObj) ∧
    ∀ i row, data catObj !! i = Some row →
             ∃ s, row !! ind = Some (Some (VStr s)) ∧
                  data catObj' !! i
                  = Some (<[ind := Some (VStr (decode_properties self s))]> row).
Proof.
  intros Hrect. unfold map_provenance.
  destruct (getObj cur "program") as [catObj|]; [|done].
  destruct (negb _) eqn:Hrows; [|done]. simpl.
  unfold hasAttribute. case_bool_decide as Hprop; [|done].
  intros Hm. apply bind_Ok in Hm as (catObj' & Hfold & Hl). simplify_eq.
  apply index_of_elem_of in Hprop as (ind & Hind & _).
  apply (provenance_fold_rows self ind) in Hfold
    as (Hrect' & Hname & Hattrs & Hlen & Hin & _);
    [|by apply Hrect|done|apply NoDup_seq|].
  - exists catObj, catObj', ind. split_and!; try done.
    intros i row Hrow.
    destruct (Hin i) as (row' & s & Hrow' & Hcell & Hnew).
    { apply elem_of_seq. apply lookup_lt_Some in Hrow. unfold getRowCount. lia. }
    simplify_eq. eauto.
  - apply Forall_forall. intros j Hj%elem_of_seq. unfold getRowCount in Hj. lia.
Qed.

(** X8: every category of the container is a rectangular table with at
    least one row: each row has a cell for each column.  This holds after
    the columns are renamed and for the container that is returned. *)
Theorem tables_rectangular set_iter self st rD st1 cur cur' :
  build_categories set_iter self st rD = Ok (st1, cur) →
  rename_categories self cur = Ok cur' →
  (∀ key c', getObj cur' key = Some c' → rectangular c' ∧ data c' ≠ []) ∧
  (∀ l final key c,
     map_provenance self cur' = Ok (Some l) → final ∈ l →
     getObj final key = Some c → rectangular c ∧ data c ≠ []).
Proof.
  intros Hbuild Hren.
  assert (∀ key c', getObj cur' key = Some c' → rectangular c' ∧ data c' ≠ []) as Hrect.
  { intros key c'. by eapply built_renamed_rectangular. }
  split; [done|]. intros l final key c Hm Hfinal Hget.
  apply map_provenance_result in Hm
    as (catObj & catObj' & ind & -> & Hprog & _ & Hrect' & _ & _ & Hlen & _);
    [|intros c0 Hc0; by apply (Hrect "program")].
  apply list_elem_of_singleton in Hfinal as ->.
  unfold getObj, putObj in Hget. simpl in Hget. rewrite aget_aset in Hget.
  case_decide; [|by eapply Hrect]. simplify_eq. split; [done|].
  destruct (Hrect _ _ Hprog) as [_ Hne]. destruct (data c), (data catObj); done.
Qed.

Lemma tables_rectangular_witness :
  ∃ final c, getObj final "program" = Some c ∧ rectangular c ∧ data c ≠ [].
Proof.
  assert (build_categories set_iter_insertion sample_reader
            (extract sample_store sample_doc).2 (extract sample_store sample_doc).1
          = Ok (_, _)) as Hbuild by (vm_compute; reflexivity).
  match type of Hbuild with
  | _ = Ok (_, ?cur) =>
      assert (rename_categories sample_reader cur = Ok _) as Hren
        by (vm_compute; reflexivity)
  end.
  match type of Hren with
  | _ = Ok ?cur' =>
      assert (map_provenance sample_reader cur' = Ok (Some [_])) as Hm
        by (vm_compute; reflexivity)
  end.
  match type of Hm with
  | _ = Ok (Some [?final]) =>
      assert (getObj final "program" = Some _) as Hget by (vm_compute; reflexivity)
  end.
  destruct (tables_rectangular _ _ _ _ _ _ _ Hbuild Hren) as [_ Hfinal].
  eexists _, _. split; [exact Hget|].
  eapply Hfinal; [exact Hm|by left|exact Hget].
Defined.

(** X9: the provenance step changes the [properties] cells of the [program]
    category and nothing else: each cell is a string and is replaced, once,
    by its decoded value; the names, the number of rows, the other cells and
    the other categories stay as they are. *)
Theorem provenance_decodes_properties_only set_iter self st rD st1 cur cur' l :
  build_categories set_iter self st rD = Ok (st1, cur) →
  rename_categories self cur = Ok cur' →
  map_provenance self cur' = Ok (Some l) →
  ∃ final catObj catObj' ind,
    l = [final] ∧
    contName final = contName cur' ∧ getObjNameList final = getObjNameList cur' ∧
    (∀ key, key ≠ "program" → getObj final key = getObj cur' key) ∧
    getObj cur' "program" = Some catObj ∧ getObj final "program" = Some catObj' ∧
    index_of "properties" (attributeNameList catObj) = Some ind ∧
    cname catObj' = cname catObj ∧
    attributeNameList catObj' = attributeNameList catObj ∧
    length (data catObj') = length (data catObj) ∧
    ∀ i row, data catObj !! i = Some row →
             ∃ s, row !! ind = Some (Some (VStr s)) ∧
                  data catObj' !! i
                  = Some (<[ind := Some (VStr (decode_properties self s))]> row).
Proof.
  intros Hbuild Hren Hm.
  apply map_provenance_result in Hm
    as (catObj & catObj' & ind & -> & Hprog & Hind & _ & Hname & Hattrs & Hlen & Hrows).
  - exists (putObj cur' "program" catObj'), catObj, catObj', ind.
    split_and!; try done.
    + apply getObjNameList_putObj. by rewrite Hprog.
    + intros key Hkey. unfold getObj, putObj. simpl. by apply aget_aset_ne.
    + unfold getObj, putObj. simpl. apply aget_aset_eq.
  - intros c Hc. by eapply built_renamed_rectangular.
Qed.

Lemma provenance_decodes_properties_only_witness :
  ∃ final catObj',
    getObj final "program" = Some catObj' ∧
    data catObj'
    = [[Some (VInt 1); Some (VStr "mogul"); Some (VStr "Clashscore,bonds_rmsz");
        Some (VStr "1.8")]].
Proof.
  assert (build_categories set_iter_insertion sample_reader
            (extract unicode_store sample_doc).2 (extract unicode_store sample_doc).1
          = Ok (_, _)) as Hbuild by (vm_compute; reflexivity).
  match type of Hbuild with
  | _ = Ok (_, ?cur) =>
      assert (rename_categories sample_reader cur = Ok _) as Hren
        by (vm_compute; reflexivity)
  end.
  match type of Hren with
  | _ = Ok ?cur' =>
      assert (map_provenance sample_reader cur' = Ok (Some _)) as Hm
        by (vm_compute; reflexivity)
  end.
  destruct (provenance_decodes_properties_only _ _ _ _ _ _ _ _ Hbuild Hren Hm)
    as (final & catObj & catObj' & ind & Hl & _ & _ & _ & Hprog & Hfinal & _).
  exists final, catObj'. split; [exact Hfinal|].
  injection Hl as <-. vm_compute in Hfinal. injection Hfinal as <-. reflexivity.
Defined.

(** X10: when the [program] category has a [properties] column and some row
    has no string in it (the element had no [properties] attribute, so the
    cell is empty), [__buildCif] raises [AttributeError]. *)
Theorem provenance_raises_on_missing_properties
    set_iter self st rD st1 cur cur' catObj ind i row :
  build_categories set_iter self st rD = Ok (st1, cur) →
  rename_categories self cur = Ok cur' →
  getObj cur' "program" = Some catObj →
  index_of "properties" (attributeNameList catObj) = Some ind →
  data catObj !! i = Some row →
  (∀ s, row !! ind ≠ Some (Some (VStr s))) →
  buildCif set_iter self st rD = Raise AttributeError.
Proof.
  intros Hbuild Hren Hprog Hind Hrow Hcell.
  destruct (built_renamed_rectangular _ _ _ _ _ _ _ _ _ Hbuild Hren Hprog) as [Hrect Hne].
  unfold buildCif. rewrite Hbuild. simpl. rewrite Hren. simpl.
  unfold map_provenance. rewrite Hprog.
  assert (negb (getRowCount catObj =? 0)%nat = true) as ->.
  { unfold getRowCount. by destruct (data catObj). }
  assert (hasAttribute catObj "properties" = true) as ->.
  { unfold hasAttribute. apply bool_decide_eq_true_2.
    clear -Hind. revert ind Hind.
    induction (attributeNameList catObj) as [|a l IH]; intros ind Hind; simpl in *; [done|].
    case_decide; [subst; by left|]. right.
    destruct (index_of "properties" l) as [j|]; simpl in Hind; [by eapply IH | done]. }
  simpl.
  rewrite (provenance_fold_missing self ind i row); try done.
  - apply Forall_forall. intros j Hj%elem_of_seq. unfold getRowCount in Hj. lia.
  - apply elem_of_seq. apply lookup_lt_Some in Hrow. unfold getRowCount. lia.
Qed.

Lemma provenance_raises_on_missing_properties_witness :
  read set_iter_insertion sample_reader twoprograms_store twoprograms_doc
  = Raise AttributeError.
Proof.
  assert (build_categories set_iter_insertion sample_reader
            (extract twoprograms_store twoprograms_doc).2
            (extract twoprograms_store twoprograms_doc).1
          = Ok (_, _)) as Hbuild by (vm_compute; reflexivity).
  match type of Hbuild with
  | _ = Ok (_, ?cur) =>
      assert (rename_categories sample_reader cur = Ok _) as Hren
        by (vm_compute; reflexivity)
  end.
  match type of Hren with
  | _ = Ok ?cur' =>
      assert (getObj cur' "program" = Some _) as Hprog by (vm_compute; reflexivity)
  end.
  apply (provenance_raises_on_missing_properties _ _ _ _ _ _ _ _ 2%nat 1%nat
           [Some (VInt 2); Some (VStr "xtriage"); None] Hbuild Hren Hprog).
  - vm_compute. reflexivity.
  - vm_compute. reflexivity.
  - intros s. vm_compute. discriminate.
Defined.

(** ** Errors *)

Lemma rename_category_error self cur k e :
  is_Some (getObj cur k) →
  rename_category self cur k = Raise e →
  e = KeyError "at" ∧
  ∃ a entry, aget (attributes (schemaMap_ self)) (k, a) = Some entry ∧
             aget entry "at" = None.
Proof.
  intros [c Hc]. unfold rename_category. rewrite Hc.
  destruct (foldM _ (attributeNameList c) []) as [mapD|e'] eqn:Hfold; simpl; [done|].
  intros. simplify_eq.
  apply (foldM_Raise (λ _, True)) in Hfold as (mapD & a & _ & _ & Hstep); [|done|done].
  unfold map_attribute in Hstep.
  destruct (aget (attributes (schemaMap_ self)) (k, a)) as [entry|] eqn:Hentry; [|done].
  unfold getitem in Hstep. destruct (aget entry "at") eqn:Hat; simpl in Hstep; [done|].
  simplify_eq. eauto.
Qed.

Lemma rename_categories_error self cur e :
  rename_categories self cur = Raise e →
  e = KeyError "at" ∧
  ∃ key a entry, key ∈ getObjNameList cur ∧
                 aget (attributes (schemaMap_ self)) (key, a) = Some entry ∧
                 aget entry "at" = None.
Proof.
  unfold rename_categories. intros Hfold.
  apply (foldM_Raise (λ c, getObjNameList c = getObjNameList cur)) in Hfold
    as (cur1 & key & Hnames & Hkey & Hstep); [| |done].
  - apply rename_category_error in Hstep as (-> & a & entry & Hentry & Hat).
    + split; [done|]. by exists key, a, entry.
    + apply aget_is_Some. unfold getObjNameList in Hnames. by rewrite Hnames.
  - intros c k c' _ Hc (c0 & c1 & Hget & _ & ->)%rename_category_Ok.
    rewrite <-Hc. apply getObjNameList_putObj. by rewrite Hget.
Qed.

(** X11: the second loop of [__buildCif] raises only when an entry of the
    attribute table, for a category of the container, has no [at] field; the
    error is [KeyError] for [at].  When every entry has the field the loop
    does not raise. *)
Theorem rename_raises_only_for_missing_at self cur :
  (∀ e, rename_categories self cur = Raise e →
        e = KeyError "at" ∧
        ∃ key a entry, key ∈ getObjNameList cur ∧
                       aget (attributes (schemaMap_ self)) (key, a) = Some entry ∧
                       aget entry "at" = None) ∧
  ((∀ key entry, aget (attributes (schemaMap_ self)) key = Some entry →
                 is_Some (aget entry "at")) →
   ∃ cur', rename_categories self cur = Ok cur').
Proof.
  split; [intros e; apply rename_categories_error|].
  intros Hcomplete. destruct (rename_categories self cur) as [cur'|e] eqn:Hren; [eauto|].
  apply rename_categories_error in Hren as (_ & key & a & entry & _ & Hentry & Hat).
  destruct (Hcomplete _ _ Hentry) as [v Hv]. congruence.
Qed.

Lemma rename_raises_only_for_missing_at_witness :
  read set_iter_insertion (init incomplete_schema sample_order sample_atMap)
    summary_store summary_doc
  = Raise (KeyError "at").
Proof.
  assert (build_categories set_iter_insertion
            (init incomplete_schema sample_order sample_atMap)
            (extract summary_store summary_doc).2 (extract summary_store summary_doc).1
          = Ok (_, _)) as Hbuild by (vm_compute; reflexivity).
  match type of Hbuild with
  | _ = Ok (_, ?cur) =>
      destruct (rename_categories (init incomplete_schema sample_order sample_atMap) cur)
        as [cur'|e] eqn:Hren; [vm_compute in Hren; discriminate|];
      destruct (proj1 (rename_raises_only_for_missing_at _ cur) e Hren) as [-> _]
  end.
  unfold read, buildCif. rewrite Hbuild.
  change (Ok ?s ≫= ?f) with (f s). cbv beta. change ((?a, ?b).2) with b.
  by rewrite Hren.
Defined.

(** X12: [__buildCif] raises nothing but [KeyError] and [AttributeError]:
    the accessors of the categories are never called out of range. *)
Theorem buildCif_errors set_iter self st rD e :
  buildCif set_iter self st rD = Raise e →
  (∃ k, e = KeyError k) ∨ e = AttributeError.
Proof.
  unfold buildCif.
  destruct (build_categories set_iter self st rD) as [[st1 cur]|e1] eqn:Hbuild; simpl.
  - destruct (rename_categories self cur) as [cur'|e2] eqn:Hren; simpl.
    + destruct (map_provenance self cur') as [r|e3] eqn:Hm; simpl; [done|].
      intros. simplify_eq. right.
      unfold map_provenance in Hm.
      destruct (getObj cur' "program") as [catObj|] eqn:Hprog; [|done].
      destruct (negb _); [|done]. simpl in Hm.
      unfold hasAttribute in Hm. case_bool_decide as Hprop; [|done].
      destruct (foldM (provenance_row self) _ catObj) as [c'|e'] eqn:Hfold;
        simpl in Hm; [done|]. simplify_eq.
      apply index_of_elem_of in Hprop as (ind & Hind & _).
      apply (provenance_fold_error self ind _ _ _ (proj1
               (built_renamed_rectangular _ _ _ _ _ _ _ _ _ Hbuild Hren Hprog)) Hind)
        in Hfold; [done|].
      apply Forall_forall. intros j Hj%elem_of_seq. unfold getRowCount in Hj. lia.
    + intros. simplify_eq. left.
      apply rename_categories_error in Hren as [-> _]. eauto.
  - intros. simplify_eq. left. unfold build_categories in Hbuild.
    apply (foldM_Raise (λ _, True)) in Hbuild as (s & entry & _ & _ & Hstep); [|done|done].
    by eapply build_category_Raise.
Qed.

Lemma buildCif_errors_witness :
  (∃ k, KeyError "Extension" = KeyError k) ∨ KeyError "Extension" = AttributeError.
Proof.
  apply (buildCif_errors set_iter_insertion sample_reader
           (extract unregistered_store unregistered_doc).2
           (extract unregistered_store unregistered_doc).1).
  vm_compute. reflexivity.
Defined.

(** ** Order of the categories *)



(** ** Decoding *)

Lemma py_join_split (s : string) : py_join "," (py_split "," s) = s.
Proof.
  unfold py_join, py_split.
  induction s as [|a s IH]; [done|]. simpl.
  destruct (split_on "," s) as [hd tl]. case_decide as Ha.
  - subst a. simpl in *. by rewrite IH.
  - simpl in *. destruct tl as [|t tl]; [by rewrite IH|]. by rewrite <-IH.
Qed.

(** X14: a [properties] value whose tokens carry no blanks around them and
    are not in the decode table comes out of the decoding as it went in. *)
Theorem decode_properties_identity self pV :
  Forall (λ ky, strip ky = ky ∧ aget (atMap self) ky = None) (py_split "," pV) →
  decode_properties self pV = pV.
Proof.
  intros Htok. unfold decode_properties.
  assert (map strip (py_split "," pV) = py_split "," pV) as ->.
  { induction Htok as [|ky l [Hky _] _ IH]; simpl; [done|]. by rewrite Hky, IH. }
  rewrite decode_tokens_absent; [apply py_join_split|].
  eapply Forall_impl; [exact Htok|]. by intros ky [_ ?].
Qed.

Lemma decode_properties_identity_witness :
  decode_properties sample_reader "bonds_rmsz,angles_rmsz" = "bonds_rmsz,angles_rmsz".
Proof.
  apply decode_properties_identity.
  change (py_split "," "bonds_rmsz,angles_rmsz") with ["bonds_rmsz"; "angles_rmsz"].
  repeat (constructor; [split; vm_compute; reflexivity|]). constructor.
Defined.

(** A token between blanks outside ASCII is stripped and decoded like any
    other. *)
Example decode_properties_unicode_blanks :
  decode_properties sample_reader (chr 0xA0 +:+ "clashscore" +:+ chr 0x2028) = "Clashscore".
Proof. vm_compute. reflexivity. Qed.

(** ** Cells *)

(** X15: a cell of a column other than [ordinal], [icode] and [altcode] is
    the value that the row, as [__extract] made it, has for the column, and
    it is empty exactly when the row has no such key. *)
Theorem cells_hold_row_values set_iter self st xrt st1 cur key aCat i l a :
  wf_doc st xrt →
  build_categories set_iter self (extract st xrt).2 (extract st xrt).1 = Ok (st1, cur) →
  getObj cur key = Some aCat →
  rows_of (extract st xrt).1 key !! i = Some l →
  a ∈ attributeNameList aCat →
  a ≠ "ordinal" → a ≠ "icode" → a ≠ "altcode" →
  getValue aCat a i = Ok (aget (deref (extract st xrt).2 l) a).
Proof.
  intros Hwf Hbuild Hget Hi Ha Ho Hic Hac.
  destruct (read_built_cells _ _ _ _ _ _ _ _ _ _ Hwf Hbuild Hget Hi)
    as (registered & _ & Hrow & Hcells).
  rewrite (Hcells a Ha), Hrow. by rewrite normalize_row_other.
Qed.

Lemma cells_hold_row_values_witness :
  ∃ aCat,
    getValue aCat "chain" 0 = Ok (Some (VStr "A")) ∧
    getValue aCat "cid" 0 = Ok (Some (VStr "7")).
Proof.
  assert (build_categories set_iter_insertion sample_reader
            (extract sample_store sample_doc).2 (extract sample_store sample_doc).1
          = Ok (_, _)) as Hbuild by (vm_compute; reflexivity).
  match type of Hbuild with
  | _ = Ok (_, ?cur) =>
      assert (getObj cur "clash" = Some _) as Hget by (vm_compute; reflexivity)
  end.
  assert (rows_of (extract sample_store sample_doc).1 "clash" !! 0%nat = Some 6%nat) as Hi
    by (vm_compute; reflexivity).
  eexists. split.
  - rewrite (cells_hold_row_values _ _ _ _ _ _ _ _ _ _ "chain" sample_doc_wf Hbuild Hget Hi);
      [vm_compute; reflexivity|vm_compute; do 2 right; by left|discriminate..].
  - rewrite (cells_hold_row_values _ _ _ _ _ _ _ _ _ _ "cid" sample_doc_wf Hbuild Hget Hi);
      [vm_compute; reflexivity|vm_compute; do 5 right; by left|discriminate..].
Defined.

(** X16: the cells of the columns [icode] and [altcode] are the values of
    the rows turned into strings and stripped of the blanks around them; a
    row without the key still has an empty cell. *)
Theorem code_cells_are_stripped set_iter self st xrt st1 cur key aCat i l a :
  wf_doc st xrt →
  build_categories set_iter self (extract st xrt).2 (extract st xrt).1 = Ok (st1, cur) →
  getObj cur key = Some aCat →
  rows_of (extract st xrt).1 key !! i = Some l →
  a ∈ attributeNameList aCat →
  a = "icode" ∨ a = "altcode" →
  getValue aCat a i
  = Ok ((λ v, VStr (strip (py_str v))) <$> aget (deref (extract st xrt).2 l) a).
Proof.
  intros Hwf Hbuild Hget Hi Ha Hcode.
  destruct (read_built_cells _ _ _ _ _ _ _ _ _ _ Hwf Hbuild Hget Hi)
    as (registered & _ & Hrow & Hcells).
  rewrite (Hcells a Ha), Hrow.
  destruct Hcode as [->| ->]; [by rewrite normalize_row_icode | by rewrite normalize_row_altcode].
Qed.

Lemma code_cells_are_stripped_witness :
  ∃ aCat, getValue aCat "icode" 0 = Ok (Some (VStr "A")).
Proof.
  assert (build_categories set_iter_insertion sample_reader
            (extract unicode_store sample_doc).2 (extract unicode_store sample_doc).1
          = Ok (_, _)) as Hbuild by (vm_compute; reflexivity).
  match type of Hbuild with
  | _ = Ok (_, ?cur) =>
      assert (getObj cur "ModelledSubgroup" = Some _) as Hget by (vm_compute; reflexivity)
  end.
  assert (rows_of (extract unicode_store sample_doc).1 "ModelledSubgroup" !! 0%nat
          = Some 1%nat) as Hi by (vm_compute; reflexivity).
  eexists.
  rewrite (code_cells_are_stripped _ _ _ _ _ _ _ _ _ _ "icode" unicode_doc_wf Hbuild Hget Hi);
    [vm_compute; reflexivity|vm_compute; do 4 right; by left|by left].
Defined.
